(** * Day-use revenue prediction, holiday cache, pricing and history merge

    A shallow embedding of the JavaScript sources

    - [src/utils/holidays.js]   (holiday cache, [fetchHolidays], [isHolidaySync]),
    - [src/utils/prediction.js] (grouping, averaging, [predictDayuseRevenue]),
    - [src/components/Dashboard.jsx] (daily target, remaining rooms, minimum price),
    - [src/utils/storage.js]    ([getDayuseData], [saveDayuseData], [mergeDayuseData],
      settings, monthly targets, daily input),
    - [src/utils/security.js]   (login attempts, lockout, session),
    - [src/components/Login.jsx] ([handleSetPassword], [handleLogin]),
    - [src/components/CSVUploader.jsx] ([parseCSVLine]),

    followed by the properties of these functions.

    Conventions of the embedding.

    - JavaScript numbers that the program only ever uses as integers are
      mathematical integers ([Z]); the value [NaN] is [None] in [option Z].
      Quotients are never formed on their own: the source always wraps them in
      [Math.round] or [Math.ceil], and those compositions are defined on the
      pair (numerator, denominator).  The embedding agrees with IEEE doubles
      while magnitudes stay below 2^52.
    - A [Date] object is its time value in milliseconds since the epoch,
      [None] being the Invalid Date.  The local time zone is a parameter
      [LocalTZA] giving the offset (in ms) to add to a UTC time value.
    - One call of the asynchronous [fetchHolidays] is one atomic step whose
      network answer is an argument; the state it acts on records the
      cache, the requests sent and the lines logged.
    - A history record's [date] is the text [YYYY-MM-DD], the form both
      [groupByDate] and the importer document; it is kept as its three
      numeric fields, so that two records have the same text exactly when
      they have the same fields.  [new Date(text)] is read as V8 (Chrome,
      Node.js) reads it: midnight UTC of the day, a day number up to 31
      beyond the end of its month running on into the next month.
    - Stored records are objects whose property values are JSON primitives,
      so a round trip through [JSON.stringify] and [JSON.parse] gives them
      back unchanged.  [localStorage] is modelled after [JSON.parse], as the
      object kept under the key [dayuse_data], and its writes succeed. *)

From Stdlib Require Import ZArith Lia Ascii String.
From stdpp Require Import gmap strings list pretty.

Local Open Scope Z_scope.

(* ===================================================================== *)
(** ** JavaScript values and built-ins used by the sources *)
(* ===================================================================== *)

Module Js.

(** Primitive values that survive a JSON round trip. *)
Inductive Value :=
| VNull
| VBool (b : bool)
| VNum (n : Z)
| VStr (s : string).

#[export] Instance Value_eq_dec : EqDecision Value.
Proof. solve_decision. Defined.

(** A plain object: own properties by name.  A missing property reads as
    [undefined], which is [None]. *)
Abbreviation Object := (gmap string Value).

(** ToBoolean on a property read. *)
Definition truthy (v : option Value) : bool :=
  match v with
  | None => false
  | Some VNull => false
  | Some (VBool b) => b
  | Some (VNum n) => negb (n =? 0)
  | Some (VStr s) => negb (String.eqb s "")
  end.

(** [{ ...a, ...b }]: the properties of [a], overwritten by those of [b]. *)
Definition spread2 (a b : Object) : Object := b ∪ a.

(** [Math.round(a / b)] for [b > 0]: nearest integer, halves go up. *)
Definition Math_round_div (a b : Z) : Z := (2 * a + b) / (2 * b).

(** [Math.ceil(a / b)] for [b > 0]. *)
Definition Math_ceil_div (a b : Z) : Z := - ((- a) / b).

(** [x || 0] on a number: [NaN] and [0] both give [0]. *)
Definition num_or_0 (x : option Z) : Z :=
  match x with
  | Some n => if n =? 0 then 0 else n
  | None => 0
  end.

(** [a === b] on numbers: [NaN] equals nothing. *)
Definition num_eq (a b : option Z) : bool :=
  match a, b with
  | Some x, Some y => x =? y
  | _, _ => false
  end.

(** [String(n)] on a number. *)
Definition String_of_num (x : option Z) : string :=
  match x with
  | Some n => pretty n
  | None => "NaN"
  end.

(** [s.padStart(2, '0')]. *)
Definition padStart2 (s : string) : string :=
  match s with
  | EmptyString => "00"
  | String c EmptyString => String "0"%char (String c EmptyString)
  | _ => s
  end.

(** *** [parseInt(s)] without a radix argument

    Leading ASCII white space is skipped, then an optional sign and an
    optional [0x] prefix are read, then the longest run of digits. *)

Definition is_space (c : ascii) : bool :=
  let n := Z.of_nat (Ascii.nat_of_ascii c) in
  (n =? 32) || ((9 <=? n) && (n <=? 13)).

Fixpoint trimStart (s : string) : string :=
  match s with
  | String c s' => if is_space c then trimStart s' else s
  | EmptyString => EmptyString
  end.

Definition digit_value (c : ascii) : option Z :=
  let n := Z.of_nat (Ascii.nat_of_ascii c) in
  if (48 <=? n) && (n <=? 57) then Some (n - 48)
  else if (97 <=? n) && (n <=? 122) then Some (n - 87)
  else if (65 <=? n) && (n <=? 90) then Some (n - 55)
  else None.

(** The value of the longest prefix of radix-[R] digits, [acc] being the
    value read so far ([None]: no digit yet). *)
Fixpoint digits (R : Z) (s : string) (acc : option Z) : option Z :=
  match s with
  | EmptyString => acc
  | String c s' =>
      match digit_value c with
      | Some d =>
          if d <? R then digits R s' (Some (default 0 acc * R + d)) else acc
      | None => acc
      end
  end.

Definition parseInt (s : string) : option Z :=
  let s := trimStart s in
  let '(sign, s) :=
    match s with
    | String "-"%char r => (-1, r)
    | String "+"%char r => (1, r)
    | _ => (1, s)
    end in
  let '(R, s) :=
    match s with
    | String "0"%char (String "x"%char r) => (16, r)
    | String "0"%char (String "X"%char r) => (16, r)
    | _ => (10, s)
    end in
  match digits R s None with
  | Some n => Some (sign * n)
  | None => None
  end.

(** *** Insertion-ordered dictionaries

    Both a [Map] and an object with non-index string keys enumerate their
    entries in insertion order; writing to an existing key keeps its
    place. *)
Section Dict.
Context {K V : Type} `{EqDecision K}.

Fixpoint dict_get (k : K) (m : list (K * V)) : option V :=
  match m with
  | [] => None
  | (k', v) :: m' => if decide (k = k') then Some v else dict_get k m'
  end.

Definition dict_has (k : K) (m : list (K * V)) : bool :=
  bool_decide (is_Some (dict_get k m)).

Fixpoint dict_set (k : K) (v : V) (m : list (K * V)) : list (K * V) :=
  match m with
  | [] => [(k, v)]
  | (k', v') :: m' =>
      if decide (k = k') then (k, v) :: m' else (k', v') :: dict_set k v m'
  end.

(** [m[k].field = ...]: the value held under [k] is changed in place.  (On
    a missing key JavaScript would throw; the sources only do this right
    after making sure the key is there.) *)
Fixpoint dict_alter (f : V -> V) (k : K) (m : list (K * V)) : list (K * V) :=
  match m with
  | [] => []
  | (k', v) :: m' =>
      if decide (k = k') then (k', f v) :: m' else (k', v) :: dict_alter f k m'
  end.

Definition dict_values (m : list (K * V)) : list V := m.*2.
Definition dict_keys (m : list (K * V)) : list K := m.*1.
End Dict.

End Js.

(* ===================================================================== *)
(** ** Dates *)
(* ===================================================================== *)

Module JsDate.

Definition msPerDay : Z := 86400000.

(** A [Date] object: its time value, [None] for the Invalid Date. *)
Abbreviation Date := (option Z) (only parsing).

(** The text [YYYY-MM-DD] of a history record. *)
Record CalendarDate := mkCalendarDate {
  cd_year : Z;
  cd_month : Z;   (* 1..12 *)
  cd_day : Z      (* 1..31 *)
}.

#[export] Instance CalendarDate_eq_dec : EqDecision CalendarDate.
Proof. solve_decision. Defined.

Definition isLeapYear (y : Z) : bool :=
  ((y mod 4 =? 0) && negb (y mod 100 =? 0)) || (y mod 400 =? 0).

Definition daysInMonth (y m : Z) : Z :=
  if m =? 2 then (if isLeapYear y then 29 else 28)
  else if (m =? 4) || (m =? 6) || (m =? 9) || (m =? 11) then 30
  else 31.

(** What [new Date] accepts of a text [YYYY-MM-DD]: a month from 01 to 12
    and a day from 01 to 31, whatever the month.  A day beyond the end of
    its month is not refused: it counts on into the next month (see
    [Date_of_string]). *)
Definition validCalendarDate (c : CalendarDate) : bool :=
  (0 <=? cd_year c) && (cd_year c <=? 9999)
  && (1 <=? cd_month c) && (cd_month c <=? 12)
  && (1 <=? cd_day c) && (cd_day c <=? 31).

(** Day number (days since 1970-01-01) of a proleptic Gregorian date. *)
Definition days_from_civil (y m d : Z) : Z :=
  let y' := if m <=? 2 then y - 1 else y in
  let era := y' / 400 in
  let yoe := y' - era * 400 in
  let mp := (m + 9) mod 12 in
  let doy := (153 * mp + 2) / 5 + d - 1 in
  let doe := yoe * 365 + yoe / 4 - yoe / 100 + doy in
  era * 146097 + doe - 719468.

(** Year, month (1..12) and day of month of a day number. *)
Definition civil_from_days (z : Z) : Z * Z * Z :=
  let z' := z + 719468 in
  let era := z' / 146097 in
  let doe := z' - era * 146097 in
  let yoe := (doe - doe / 1460 + doe / 36524 - doe / 146096) / 365 in
  let doy := doe - (365 * yoe + yoe / 4 - yoe / 100) in
  let mp := (5 * doy + 2) / 153 in
  let d := doy - (153 * mp + 2) / 5 + 1 in
  let m := if mp <? 10 then mp + 3 else mp - 9 in
  let y := yoe + era * 400 + (if m <=? 2 then 1 else 0) in
  (y, m, d).

(** [new Date("YYYY-MM-DD")], as V8 (Chrome, Node.js) reads it: midnight UTC
    of that day.  The day number is [MakeDay] of the three fields, so a day
    beyond the end of the month runs on: 2024-02-30 is 1 March 2024 and
    2023-04-31 is 1 May 2023 ([days_from_civil] is linear in the day).  A
    text whose month is not 01..12 or whose day is not 01..31 gives the
    Invalid Date. *)
Definition Date_of_string (s : CalendarDate) : Date :=
  if validCalendarDate s
  then Some (days_from_civil (cd_year s) (cd_month s) (cd_day s) * msPerDay)
  else None.

Section Local.
(** Offset of local time from UTC, in milliseconds, at a UTC instant. *)
Variable LocalTZA : Z -> Z.

Definition LocalTime (t : Z) : Z := t + LocalTZA t.
Definition Day (t : Z) : Z := t / msPerDay.

Definition getFullYear (d : Date) : option Z :=
  t ← d; Some (civil_from_days (Day (LocalTime t))).1.1.

(** Months count from 0. *)
Definition getMonth (d : Date) : option Z :=
  t ← d; Some ((civil_from_days (Day (LocalTime t))).1.2 - 1).

Definition getDate (d : Date) : option Z :=
  t ← d; Some (civil_from_days (Day (LocalTime t))).2.

(** 0 = Sunday .. 6 = Saturday; 1970-01-01 was a Thursday. *)
Definition getDay (d : Date) : option Z :=
  t ← d; Some ((Day (LocalTime t) + 4) mod 7).
End Local.

End JsDate.

(* ===================================================================== *)
(** ** src/utils/holidays.js *)
(* ===================================================================== *)

Module Holidays.
Import Js JsDate.

(** One year's table, [{ 'YYYY-MM-DD': name, ... }], and the module-level
    [holidayCache], a [Map] from year to table. *)
Abbreviation HolidayTable := (gmap string string) (only parsing).
Abbreviation HolidayCache := (gmap Z (gmap string string)) (only parsing).

(** What the network does with one request: [fetch] rejects, or it resolves
    to a response.  [json = None]: the body is not JSON, so
    [response.json()] rejects; otherwise the body is an object from date
    text to holiday name, the shape the service documents. *)
Inductive Response :=
| Rejected
| Responded (ok : bool) (status : Z) (json : option (gmap string string)).

(** How a call ends. *)
Inductive Completion (A : Type) :=
| Returned (a : A)
| Thrown (message : string).
Arguments Returned {A} a.
Arguments Thrown {A} message.

(** The cache together with what the module did to the outside: the years
    it requested over the network and the lines it wrote with
    [console.error]. *)
Record World := mkWorld {
  holidayCache : gmap Z (gmap string string);
  requested : list Z;
  console : list string
}.

(** The body of the [try] block of [fetchHolidays]. *)
Definition fetchHolidays_try (year : Z) (resp : Response) (w : World)
  : Completion (gmap string string) * World :=
  let w := mkWorld (holidayCache w) (requested w ++ [year]) (console w) in
  match resp with
  | Rejected => (Thrown "TypeError: Failed to fetch", w)
  | Responded false status _ =>
      (Thrown ("Failed to fetch holidays: " +:+ pretty status), w)
  | Responded true _ None => (Thrown "SyntaxError", w)
  | Responded true _ (Some holidays) =>
      (Returned holidays,
       mkWorld (<[year := holidays]> (holidayCache w)) (requested w) (console w))
  end.

Definition fetchHolidays (year : Z) (resp : Response) (w : World)
  : Completion (gmap string string) * World :=
  match holidayCache w !! year with
  | Some holidays => (Returned holidays, w)
  | None =>
      match fetchHolidays_try year resp w with
      | (Returned holidays, w') => (Returned holidays, w')
      | (Thrown error, w') =>
          (Returned ∅,
           mkWorld (holidayCache w') (requested w')
                   (console w' ++ ["Error fetching holidays: " +:+ error]))
      end
  end.

Definition preloadHolidays (year : Z) (resp : Response) (w : World)
  : Completion unit * World :=
  match fetchHolidays year resp w with
  | (Returned _, w') => (Returned tt, w')
  | (Thrown e, w') => (Thrown e, w')
  end.

(** The argument of [isHolidaySync] is a [Date] or the text of a date. *)
Inductive DateOrString :=
| IsDate (d : Date)
| IsString (s : CalendarDate).

Section Local.
Variable LocalTZA : Z -> Z.

Definition formatDate (date : Date) : string :=
  let year := String_of_num (getFullYear LocalTZA date) in
  let month := padStart2 (String_of_num (Z.succ <$> getMonth LocalTZA date)) in
  let day := padStart2 (String_of_num (getDate LocalTZA date)) in
  year +:+ "-" +:+ month +:+ "-" +:+ day.

(** A cached table is an object, hence truthy: [!holidays] holds only when
    the year has no entry (in particular when the year is [NaN]). *)
Definition isHolidaySync (cache : gmap Z (gmap string string))
    (date : DateOrString) : bool :=
  let d := match date with IsString s => Date_of_string s | IsDate d => d end in
  let year := getFullYear LocalTZA d in
  let dateStr := formatDate d in
  match year ≫= (cache !!.) with
  | None => false
  | Some holidays => bool_decide (is_Some (holidays !! dateStr))
  end.
End Local.

Definition clearHolidayCache (w : World) : World :=
  mkWorld ∅ (requested w) (console w).

(** The asynchronous lookups.  They are followed for every date but the
    Invalid Date, whose year is [NaN] and cannot key the cache of this
    model: for it the result is [None]. *)
Section Async.
Variable LocalTZA : Z -> Z.

Definition isHoliday (date : DateOrString) (resp : Response) (w : World)
  : option (Completion bool * World) :=
  let d := match date with IsString s => Date_of_string s | IsDate d => d end in
  year ← getFullYear LocalTZA d;
  let dateStr := formatDate LocalTZA d in
  match fetchHolidays year resp w with
  | (Returned holidays, w') =>
      Some (Returned (bool_decide (is_Some (holidays !! dateStr))), w')
  | (Thrown e, w') => Some (Thrown e, w')
  end.

(** [holidays[dateStr] || null]: a missing entry and an empty name both
    give [null]. *)
Definition getHolidayName (date : DateOrString) (resp : Response) (w : World)
  : option (Completion (option string) * World) :=
  let d := match date with IsString s => Date_of_string s | IsDate d => d end in
  year ← getFullYear LocalTZA d;
  let dateStr := formatDate LocalTZA d in
  match fetchHolidays year resp w with
  | (Returned holidays, w') =>
      Some (Returned
              (match holidays !! dateStr with
               | Some name => if String.eqb name "" then None else Some name
               | None => None
               end), w')
  | (Thrown e, w') => Some (Thrown e, w')
  end.
End Async.

End Holidays.

(* ===================================================================== *)
(** ** src/utils/prediction.js *)
(* ===================================================================== *)

Module Prediction.
Import Js JsDate Holidays.

(** A row of the imported history, as far as the prediction reads it.
    [price = None]: the row has no [price] property. *)
Record HistoricalRecord := mkRecord {
  id : Value;
  date : CalendarDate;
  price : option Z
}.

(** [{ count, revenue }] of one day. *)
Record DailyTotal := mkDaily {
  day_count : Z;
  day_revenue : Z
}.

Record PredictionResult := mkPrediction {
  count : Z;
  revenue : Z;
  avgPrice : Z;
  hasData : bool;
  basis : string
}.

Definition dayNames : list string :=
  ["日"; "月"; "火"; "水"; "木"; "金"; "土"].

(** One turn of the [forEach] of [groupByDate].  The stored totals are
    objects, hence truthy: [!dailyTotals[dateStr]] tests for a missing key. *)
Definition groupByDate_step (dailyTotals : list (CalendarDate * DailyTotal))
    (item : HistoricalRecord) : list (CalendarDate * DailyTotal) :=
  let dateStr := date item in
  let dailyTotals :=
    if negb (dict_has dateStr dailyTotals)
    then dict_set dateStr (mkDaily 0 0) dailyTotals
    else dailyTotals in
  let dailyTotals :=
    dict_alter (fun d => mkDaily (day_count d + 1) (day_revenue d))
      dateStr dailyTotals in
  dict_alter (fun d => mkDaily (day_count d) (day_revenue d + num_or_0 (price item)))
    dateStr dailyTotals.

Definition groupByDate (dayuseData : list HistoricalRecord)
  : list (CalendarDate * DailyTotal) :=
  fold_left groupByDate_step dayuseData [].

Definition calculateAverage (dailyDataArray : list DailyTotal) (basis : string)
  : PredictionResult :=
  if decide (length dailyDataArray = 0%nat) then mkPrediction 0 0 0 false basis
  else
    let totalCount := fold_left (fun sum d => sum + day_count d) dailyDataArray 0 in
    let totalRevenue := fold_left (fun sum d => sum + day_revenue d) dailyDataArray 0 in
    let numDays := Z.of_nat (length dailyDataArray) in
    let avgCount := Math_round_div totalCount numDays in
    let avgRevenue := Math_round_div totalRevenue numDays in
    let avgPrice := if 0 <? avgCount then Math_round_div avgRevenue avgCount else 0 in
    mkPrediction avgCount avgRevenue avgPrice true basis.

Section Local.
Variable LocalTZA : Z -> Z.
Variable cache : gmap Z (gmap string string).

Definition predictFromHolidayData (dayuseData : list HistoricalRecord)
  : option PredictionResult :=
  let dailyTotals := groupByDate dayuseData in
  let holidayDays :=
    filter (fun e => isHolidaySync LocalTZA cache (IsString e.1) = true)
           dailyTotals in
  if decide (length holidayDays = 0%nat) then None
  else Some (calculateAverage holidayDays.*2 "祝日の過去平均").

(** The text [`${dayNames[dayOfWeek]}曜日の過去平均`]. *)
Definition weekdayBasis (dayOfWeek : option Z) : string :=
  let name :=
    match dayOfWeek with
    | Some n => if 0 <=? n then dayNames !! Z.to_nat n else None
    | None => None
    end in
  default "undefined" name +:+ "曜日の過去平均".

Definition predictFromDayOfWeek (dayuseData : list HistoricalRecord)
    (dayOfWeek : option Z) (basisOverride : option string)
  : PredictionResult :=
  let dailyTotals := groupByDate dayuseData in
  let sameDayData :=
    filter (fun e => num_eq (getDay LocalTZA (Date_of_string e.1)) dayOfWeek = true)
           dailyTotals in
  if decide (length sameDayData = 0%nat) then
    calculateAverage dailyTotals.*2 "全体平均（曜日データなし）"
  else
    calculateAverage sameDayData.*2
      (match basisOverride with
       | Some s => if String.eqb s "" then weekdayBasis dayOfWeek else s
       | None => weekdayBasis dayOfWeek
       end).

(** [dayuseData] is an array, hence truthy: the guard
    [!dayuseData || dayuseData.length === 0] tests for the empty array. *)
Definition predictDayuseRevenue (dayuseData : list HistoricalRecord)
    (targetDate : Date) : PredictionResult :=
  if decide (length dayuseData = 0%nat) then mkPrediction 0 0 0 false "データなし"
  else
    let dayOfWeek := getDay LocalTZA targetDate in
    let isTargetHoliday := isHolidaySync LocalTZA cache (IsDate targetDate) in
    if isTargetHoliday then
      match predictFromHolidayData dayuseData with
      | Some holidayPrediction => holidayPrediction
      | None =>
          predictFromDayOfWeek dayuseData (Some 6)
            (Some "祝日（土曜日データで代用）")
      end
    else predictFromDayOfWeek dayuseData dayOfWeek None.
End Local.

(** One value of the object returned by [getDayOfWeekStats]. *)
Record DayOfWeekStat := mkStat {
  stat_dayOfWeek : Z;
  stat_avgCount : Z;
  stat_avgRevenue : Z;
  stat_avgPrice : Z
}.

(** The object is keyed by the day names, written in the order of the loop. *)
Definition getDayOfWeekStats (LocalTZA : Z -> Z)
    (dayuseData : list HistoricalRecord) : list (string * DayOfWeekStat) :=
  fold_left
    (fun stats dow =>
       let prediction := predictFromDayOfWeek LocalTZA dayuseData (Some dow) None in
       dict_set (default "undefined" (dayNames !! Z.to_nat dow))
         (mkStat dow (count prediction) (revenue prediction) (avgPrice prediction))
         stats)
    (seqZ 0 7) [].

Definition initializePrediction (year : Z) (resp : Response) (w : World)
  : Completion unit * World :=
  preloadHolidays year resp w.

End Prediction.

(* ===================================================================== *)
(** ** src/data/hotels.js and src/components/Dashboard.jsx *)
(* ===================================================================== *)

Module Dashboard.
Import Js.

Record Hotel := mkHotel {
  hotel_id : string;
  hotel_name : string;
  rooms : Z
}.

Definition HOTELS : list Hotel :=
  [ mkHotel "hotel_a" "ホテルA" 52;
    mkHotel "hotel_b" "ホテルB" 45;
    mkHotel "hotel_c" "ホテルC" 21 ].

Definition getHotelById (hotelId : string) : option Hotel :=
  List.find (fun hotel => String.eqb (hotel_id hotel) hotelId) HOTELS.

(** [hotel?.rooms || 0]. *)
Definition totalRooms (hotel : option Hotel) : Z :=
  num_or_0 (rooms <$> hotel).

(** [Math.ceil(a / b)], [None] when the quotient is not a finite number. *)
Definition Math_ceil_quot (a b : Z) : option Z :=
  if b =? 0 then None else Some (Math_ceil_div a b).

(** [daysInMonth] is the length of the current month, 28 to 31. *)
Definition dailyTarget (monthlyTarget daysInMonth : Z) : Z :=
  if 0 <? monthlyTarget then Math_round_div monthlyTarget daysInMonth else 0.

(** The input fields hold the text typed by the user (a number restored
    from storage takes part through its decimal text). *)
Definition dayuseRevenue (dayuseCount dayuseAvgPrice : string)
    (prediction_revenue : Z) : Z :=
  let count := num_or_0 (parseInt dayuseCount) in
  let avgPrice := num_or_0 (parseInt dayuseAvgPrice) in
  if (0 <? count) && (0 <? avgPrice) then count * avgPrice
  else prediction_revenue.

Definition remainingRooms (totalRooms : Z) (stayCount : string) : Z :=
  let stay := num_or_0 (parseInt stayCount) in
  Z.max 1 (totalRooms - stay).

Definition minimumPrice (dailyTarget dayuseRevenue remainingRooms : Z)
  : option Z :=
  if dailyTarget <=? 0 then Some 0
  else
    let requiredRevenue := dailyTarget - dayuseRevenue in
    if requiredRevenue <=? 0 then Some 0
    else Math_ceil_quot requiredRevenue remainingRooms.

(** The derived values of one render. *)
Record PricingContext := mkPricing {
  pc_dailyTarget : Z;
  pc_dayuseRevenue : Z;
  pc_remainingRooms : Z;
  pc_minimumPrice : option Z
}.

Definition pricing (monthlyTarget daysInMonth totalRooms : Z)
    (dayuseCount dayuseAvgPrice stayCount : string) (prediction_revenue : Z)
  : PricingContext :=
  let dailyTarget := dailyTarget monthlyTarget daysInMonth in
  let dayuseRevenue := dayuseRevenue dayuseCount dayuseAvgPrice prediction_revenue in
  let remainingRooms := remainingRooms totalRooms stayCount in
  mkPricing dailyTarget dayuseRevenue remainingRooms
    (minimumPrice dailyTarget dayuseRevenue remainingRooms).

End Dashboard.

(* ===================================================================== *)
(** ** src/utils/storage.js *)
(* ===================================================================== *)

Module Storage.
Import Js.

(** The parsed value under the key [dayuse_data]: hotel id to array of
    records ([{}] when the key is absent). *)
Abbreviation DayuseStore := (gmap string (list (gmap string Value))) (only parsing).

Record MergeResult := mkMergeResult {
  added : Z;
  updated : Z;
  total : Z
}.

(** [item.id]. *)
Definition id_of (item : gmap string Value) : option Value := item !! "id".

Definition getDayuseData (hotelId : string)
    (allData : gmap string (list (gmap string Value)))
  : list (gmap string Value) :=
  default [] (allData !! hotelId).

Definition saveDayuseData (hotelId : string) (data : list (gmap string Value))
    (allData : gmap string (list (gmap string Value)))
  : gmap string (list (gmap string Value)) :=
  <[hotelId := data]> allData.

(** First loop of [mergeDayuseData]: index the stored records by id. *)
Definition index_step (dataMap : list (option Value * gmap string Value))
    (item : gmap string Value) : list (option Value * gmap string Value) :=
  if truthy (id_of item) then dict_set (id_of item) item dataMap else dataMap.

(** Second loop: the map and the two counters.  [dataMap.get] of a missing
    key is [undefined], which spreads to no property. *)
Definition merge_step
    (st : list (option Value * gmap string Value) * Z * Z)
    (item : gmap string Value)
  : list (option Value * gmap string Value) * Z * Z :=
  let '(dataMap, added, updated) := st in
  if negb (truthy (id_of item)) then st
  else if dict_has (id_of item) dataMap then
    (dict_set (id_of item)
       (spread2 (default ∅ (dict_get (id_of item) dataMap)) item) dataMap,
     added, updated + 1)
  else (dict_set (id_of item) item dataMap, added + 1, updated).

Definition mergeDayuseData (hotelId : string) (newData : list (gmap string Value))
    (allData : gmap string (list (gmap string Value)))
  : MergeResult * gmap string (list (gmap string Value)) :=
  let existingData := getDayuseData hotelId allData in
  let dataMap := fold_left index_step existingData [] in
  let '(dataMap, added, updated) := fold_left merge_step newData (dataMap, 0, 0) in
  let mergedData := dict_values dataMap in
  (mkMergeResult added updated (Z.of_nat (length mergedData)),
   saveDayuseData hotelId mergedData allData).

Definition getDayuseDataCount (hotelId : string)
    (allData : gmap string (list (gmap string Value))) : Z :=
  Z.of_nat (length (getDayuseData hotelId allData)).

Definition appendDayuseData (hotelId : string) (newData : list (gmap string Value))
    (allData : gmap string (list (gmap string Value)))
  : gmap string (list (gmap string Value)) :=
  let existingData := getDayuseData hotelId allData in
  let combinedData := existingData ++ newData in
  saveDayuseData hotelId combinedData allData.

Definition clearDayuseData (hotelId : string)
    (allData : gmap string (list (gmap string Value)))
  : gmap string (list (gmap string Value)) :=
  delete hotelId allData.

(** *** Hotel settings: the parsed value under the key [hotel_settings]

    A settings object is [{ monthlyTargets: { 'YYYY-MM': amount, ... } }];
    [monthlyTargets = None]: the property is missing. *)
Record HotelSettings := mkSettings {
  monthlyTargets : option (gmap string Z)
}.

Definition getHotelSettings (hotelId : string)
    (allSettings : gmap string HotelSettings) : HotelSettings :=
  default (mkSettings (Some ∅)) (allSettings !! hotelId).

Definition saveHotelSettings (hotelId : string) (settings : HotelSettings)
    (allSettings : gmap string HotelSettings) : gmap string HotelSettings :=
  <[hotelId := settings]> allSettings.

(** [`${year}-${String(month).padStart(2, '0')}`]. *)
Definition monthKey (year month : Z) : string :=
  String_of_num (Some year) +:+ "-" +:+ padStart2 (String_of_num (Some month)).

Definition getMonthlyTarget (hotelId : string) (year month : Z)
    (allSettings : gmap string HotelSettings) : Z :=
  let settings := getHotelSettings hotelId allSettings in
  let key := monthKey year month in
  num_or_0 (monthlyTargets settings ≫= (fun targets => targets !! key)).

Definition saveMonthlyTarget (hotelId : string) (year month target : Z)
    (allSettings : gmap string HotelSettings) : gmap string HotelSettings :=
  let settings := getHotelSettings hotelId allSettings in
  let key := monthKey year month in
  let settings :=
    match monthlyTargets settings with
    | None => mkSettings (Some ∅)
    | Some _ => settings
    end in
  let settings :=
    mkSettings (Some (<[key := target]> (default ∅ (monthlyTargets settings)))) in
  saveHotelSettings hotelId settings allSettings.

(** *** The day's manual input: the parsed value under [daily_input] *)

Definition defaultDailyInput : gmap string Value :=
  <["dayuseCount" := VNull]>
    (<["dayuseAvgPrice" := VNull]>
       (<["stayCount" := VNull]> (<["stayAvgPrice" := VNull]> ∅))).

Definition getDailyInput (hotelId dateStr : string)
    (allData : gmap string (gmap string (gmap string Value)))
  : gmap string Value :=
  default defaultDailyInput (allData !! hotelId ≫= (fun days => days !! dateStr)).

(** [now] is the text of [new Date().toISOString()]. *)
Definition saveDailyInput (hotelId dateStr : string) (input : gmap string Value)
    (now : string) (allData : gmap string (gmap string (gmap string Value)))
  : gmap string (gmap string (gmap string Value)) :=
  let days := default ∅ (allData !! hotelId) in
  let entry :=
    <["updatedAt" := VStr now]>
      (spread2 (getDailyInput hotelId dateStr allData) input) in
  <[hotelId := <[dateStr := entry]> days]> allData.

End Storage.

(* ===================================================================== *)
(** ** src/utils/security.js: login attempts and session *)
(* ===================================================================== *)

Module Security.
Import Js.

Definition MAX_LOGIN_ATTEMPTS : Z := 5.
Definition LOCKOUT_DURATION_MS : Z := 30 * 1000.
Definition SESSION_DURATION_MS : Z := 24 * 60 * 60 * 1000.

(** The parsed value under [login_attempts]; [lockoutUntil = None]: [null]. *)
Record LoginAttempts := mkAttempts {
  attempts : Z;
  lockoutUntil : option Z
}.

(** The parsed value under [session]; [hotelId = None]: [null]. *)
Record Session := mkSession {
  createdAt : Z;
  expiresAt : Z;
  hotelId : option string
}.

(** The three keys of [localStorage] that the login uses.  [None]: the key
    is absent (a value that does not parse reads the same way). *)
Record Store := mkStore {
  login_attempts : option LoginAttempts;
  session : option Session;
  app_password_hash : option string
}.

Record FailureResult := mkFailure {
  fr_isLocked : bool;
  remainingAttempts : Z;
  lockoutSeconds : Z
}.

Record LockStatus := mkLock {
  isLocked : bool;
  remainingSeconds : Z
}.

Definition getLoginAttempts (st : Store) : LoginAttempts :=
  default (mkAttempts 0 None) (login_attempts st).

(** [now] is the value of [Date.now()]. *)
Definition recordLoginFailure (now : Z) (st : Store) : FailureResult * Store :=
  let current := getLoginAttempts st in
  let newAttempts := attempts current + 1 in
  let '(lockoutUntil, isLocked) :=
    if MAX_LOGIN_ATTEMPTS <=? newAttempts
    then (Some (now + LOCKOUT_DURATION_MS), true)
    else (None, false) in
  (mkFailure isLocked (Z.max 0 (MAX_LOGIN_ATTEMPTS - newAttempts))
     (if isLocked then Math_ceil_div LOCKOUT_DURATION_MS 1000 else 0),
   mkStore (Some (mkAttempts newAttempts lockoutUntil)) (session st)
     (app_password_hash st)).

Definition resetLoginAttempts (st : Store) : Store :=
  mkStore None (session st) (app_password_hash st).

(** [!current.lockoutUntil] holds for [null] and for [0]. *)
Definition checkLockout (now : Z) (st : Store) : LockStatus * Store :=
  let current := getLoginAttempts st in
  match lockoutUntil current with
  | None => (mkLock false 0, st)
  | Some lockoutUntil =>
      if lockoutUntil =? 0 then (mkLock false 0, st)
      else if lockoutUntil <=? now then (mkLock false 0, resetLoginAttempts st)
      else (mkLock true (Math_ceil_div (lockoutUntil - now) 1000), st)
  end.

(** [createSession] reads the clock twice. *)
Definition createSession (now1 now2 : Z) (hotelId : option string) (st : Store)
  : Store :=
  mkStore (login_attempts st)
    (Some (mkSession now1 (now2 + SESSION_DURATION_MS) hotelId))
    (app_password_hash st).

Definition clearSession (st : Store) : Store :=
  mkStore (login_attempts st) None (app_password_hash st).

Definition getSession (now : Z) (st : Store) : option Session * Store :=
  match session st with
  | None => (None, st)
  | Some s =>
      if expiresAt s <=? now then (None, clearSession st) else (Some s, st)
  end.

Definition isSessionValid (now : Z) (st : Store) : bool * Store :=
  let '(s, st') := getSession now st in
  (bool_decide (is_Some s), st').

(** [now1] is read by [getSession], [now2] for the new expiry. *)
Definition refreshSession (now1 now2 : Z) (st : Store) : Store :=
  match getSession now1 st with
  | (Some s, st') =>
      mkStore (login_attempts st')
        (Some (mkSession (createdAt s) (now2 + SESSION_DURATION_MS) (hotelId s)))
        (app_password_hash st')
  | (None, st') => st'
  end.

Definition getSessionRemainingTime (now1 now2 : Z) (st : Store) : Z * Store :=
  match getSession now1 st with
  | (None, st') => (0, st')
  | (Some s, st') => (Z.max 0 (Math_ceil_div (expiresAt s - now2) 1000), st')
  end.

(** *** Password hash (src/utils/storage.js) and its check

    A password is its sequence of UTF-16 code units; [hashPassword] is the
    SHA-256 digest in hexadecimal, taken here as a parameter. *)
Definition isPasswordSet (st : Store) : bool :=
  bool_decide (is_Some (app_password_hash st)).

Definition savePasswordHash (hash : string) (st : Store) : Store :=
  mkStore (login_attempts st) (session st) (Some hash).

Definition getPasswordHash (st : Store) : option string := app_password_hash st.

Section Hash.
Variable hashPassword : list N -> string.

(** [inputHash === storedHash], the stored hash being [null] when unset. *)
Definition verifyPassword (inputPassword : list N) (storedHash : option string)
  : bool :=
  bool_decide (Some (hashPassword inputPassword) = storedHash).
End Hash.

End Security.

(* ===================================================================== *)
(** ** src/components/Login.jsx: the two submit handlers *)
(* ===================================================================== *)

Module Login.
Import Js Security.

(** What the form shows after a submit. *)
Inductive Outcome :=
| Locked (lockoutSeconds : Z)
| ErrorEmptyPassword
| ErrorTooShort
| ErrorMismatch
| LoginSuccess
| ErrorWrongPassword (remainingAttempts : Z)
| ErrorNowLocked (lockoutSeconds : Z).

(** The successive values of [Date.now()] during one submit. *)
Record Clock := mkClock {
  at_check : Z;
  at_failure : Z;
  at_created : Z;
  at_expiry : Z
}.

Section Hash.
Variable hashPassword : list N -> string.

Definition handleSetPassword (password confirmPassword : list N) (clock : Clock)
    (st : Store) : Outcome * Store :=
  if Z.of_nat (length password) <? 4 then (ErrorTooShort, st)
  else if negb (bool_decide (password = confirmPassword)) then (ErrorMismatch, st)
  else
    let hash := hashPassword password in
    let st := savePasswordHash hash st in
    let st := createSession (at_created clock) (at_expiry clock) None st in
    (LoginSuccess, st).

Definition handleLogin (password : list N) (clock : Clock) (st : Store)
  : Outcome * Store :=
  let '(lockStatus, st) := checkLockout (at_check clock) st in
  if isLocked lockStatus then (Locked (remainingSeconds lockStatus), st)
  else if bool_decide (password = []) then (ErrorEmptyPassword, st)
  else
    let storedHash := getPasswordHash st in
    let isValid := verifyPassword hashPassword password storedHash in
    if isValid then
      let st := resetLoginAttempts st in
      let st := createSession (at_created clock) (at_expiry clock) None st in
      (LoginSuccess, st)
    else
      let '(result, st) := recordLoginFailure (at_failure clock) st in
      if fr_isLocked result then (ErrorNowLocked (lockoutSeconds result), st)
      else (ErrorWrongPassword (remainingAttempts result), st).
End Hash.

End Login.

(* ===================================================================== *)
(** ** src/components/CSVUploader.jsx: one line of the file *)
(* ===================================================================== *)

Module Csv.

(** A line is its sequence of UTF-16 code units. *)
Definition QUOTE : N := 34.
Definition COMMA : N := 44.

(** The white space and line terminators that [String.prototype.trim]
    removes. *)
Definition isWhiteSpace (c : N) : bool :=
  bool_decide (c ∈ [9; 10; 11; 12; 13; 32; 160; 5760; 8232; 8233; 8239; 8287;
                    12288; 65279]%N)
  || ((8192 <=? c)%N && (c <=? 8202)%N).

Fixpoint trimStart (s : list N) : list N :=
  match s with
  | c :: s' => if isWhiteSpace c then trimStart s' else s
  | [] => []
  end.

Definition trim (s : list N) : list N :=
  reverse (trimStart (reverse (trimStart s))).

(** The loop of [parseCSVLine], from position [i] on. *)
Fixpoint parseCSVLine_from (line : list N) (result : list (list N))
    (current : list N) (inQuotes : bool) : list (list N) :=
  match line with
  | [] => result ++ [trim current]
  | char :: rest =>
      if N.eqb char QUOTE then
        parseCSVLine_from rest result current (negb inQuotes)
      else if N.eqb char COMMA && negb inQuotes then
        parseCSVLine_from rest (result ++ [trim current]) [] inQuotes
      else parseCSVLine_from rest result (current ++ [char]) inQuotes
  end.

Definition parseCSVLine (line : list N) : list (list N) :=
  parseCSVLine_from line [] [] false.

End Csv.

(* ===================================================================== *)
(** * Notions and inputs used in the statements *)
(* ===================================================================== *)

Module Notions.
Import Js JsDate Holidays Prediction Storage.

(** A day with at least one record. *)
Definition counted (d : DailyTotal) : Prop := 1 <= day_count d.

(** A result that is the average over a non-empty list of such days. *)
Definition averaged (r : PredictionResult) : Prop :=
  exists days b, days <> [] /\ Forall counted days /\ r = calculateAverage days b.

(** The request did not produce a table: the network failed, the status
    was not OK, or the body was not JSON. *)
Definition failed (resp : Response) : Prop :=
  match resp with
  | Rejected => True
  | Responded ok _ json => ok = false \/ json = None
  end.

(** The [Date] that [isHolidaySync] looks at. *)
Definition date_of (date : DateOrString) : option Z :=
  match date with
  | IsString s => Date_of_string s
  | IsDate d => d
  end.

(** [item.id] is truthy. *)
Definition has_id (item : gmap string Value) : Prop := truthy (id_of item) = true.

(** Stored records that all carry a truthy id, no id twice. *)
Definition wellFormed (data : list (gmap string Value)) : Prop :=
  Forall has_id data /\ NoDup (id_of <$> data).

(** An entry of [dataMap]: a record under its own, truthy, id. *)
Definition entry_ok (e : option Value * gmap string Value) : Prop :=
  id_of e.2 = e.1 /\ truthy e.1 = true.

Definition indexed (m : list (option Value * gmap string Value)) : Prop :=
  Forall entry_ok m /\ NoDup m.*1.

Definition entry (r : gmap string Value) : option Value * gmap string Value :=
  (id_of r, r).

(** The distinct truthy ids of a list of records, in order of appearance. *)
Definition distinct_ids (data : list (gmap string Value)) : list (option Value) :=
  remove_dups (filter (fun k => truthy k = true) (id_of <$> data)).
End Notions.

Module Scenario.
Import Js JsDate Holidays Prediction Storage.

(** Japan Standard Time: UTC+9 all year. *)
Definition JST (t : Z) : Z := 32400000.

(** Noon, local time in Japan, of a calendar day. *)
Definition noon_JST (y m d : Z) : option Z :=
  Some (days_from_civil y m d * msPerDay + 3 * 3600000).

(** Part of the 2024 table of the holiday service. *)
Definition holidays_2024 : gmap string string :=
  <["2024-01-01" := "元日"]>
    (<["2024-01-08" := "成人の日"]>
       (<["2024-02-12" := "建国記念の日 振替休日"]> ∅)).

Definition cache_2024 : gmap Z (gmap string string) := {[ 2024 := holidays_2024 ]}.

Definition two_mondays : list HistoricalRecord :=
  [ mkRecord (VNum 1) (mkCalendarDate 2024 1 8) (Some 5000);
    mkRecord (VNum 2) (mkCalendarDate 2024 1 15) (Some 7000) ].

Definition with_saturdays : list HistoricalRecord :=
  [ mkRecord (VStr "a") (mkCalendarDate 2024 1 6) (Some 4000);
    mkRecord (VStr "b") (mkCalendarDate 2024 1 6) (Some 6000);
    mkRecord (VStr "c") (mkCalendarDate 2024 1 10) (Some 3000);
    mkRecord (VStr "d") (mkCalendarDate 2024 1 13) (Some 5000) ].

Definition fresh_world : World := mkWorld ∅ [] [].

(** A first load of 2024 that fails, then a second one that succeeds. *)
Definition after_failure : World := (fetchHolidays 2024 Rejected fresh_world).2.
Definition after_retry : World :=
  (fetchHolidays 2024 (Responded true 200 (Some holidays_2024)) after_failure).2.

Definition record (id : string) (date : string) (price : Z) : gmap string Value :=
  <["id" := VStr id]> (<["date" := VStr date]> (<["price" := VNum price]> ∅)).

(** A history saved from a file whose first data row has an empty id. *)
Definition store_with_blank_id : gmap string (list (gmap string Value)) :=
  {[ "hotel_a" := [ record "" "2024-01-08" 5000; record "a" "2024-01-15" 7000 ] ]}.

Definition store_ab : gmap string (list (gmap string Value)) :=
  {[ "hotel_a" := [ record "a" "2024-01-08" 5000; record "b" "2024-01-15" 7000 ] ]}.
End Scenario.

Module MoreNotions.
Import Js JsDate Holidays Prediction Storage.

(** The records of a history dated [k], and the sum of [price || 0]. *)
Definition on_date (k : CalendarDate) (h : list HistoricalRecord)
  : list HistoricalRecord :=
  filter (fun r => date r = k) h.

Definition price_sum (rs : list HistoricalRecord) : Z :=
  foldr (fun r s => num_or_0 (price r) + s) 0 rs.

(** Sum of a quantity over the days of a dictionary. *)
Definition day_sum (f : DailyTotal -> Z) (m : list (CalendarDate * DailyTotal)) : Z :=
  foldr (fun e s => f e.2 + s) 0 m.

(** The records whose date the code sees as weekday [dow], as a holiday. *)
Definition on_weekday (LocalTZA : Z -> Z) (dow : Z) (h : list HistoricalRecord)
  : list HistoricalRecord :=
  filter (fun r => getDay LocalTZA (Date_of_string (date r)) = Some dow) h.

Definition on_holiday (LocalTZA : Z -> Z) (cache : gmap Z (gmap string string))
    (h : list HistoricalRecord) : list HistoricalRecord :=
  filter (fun r => isHolidaySync LocalTZA cache (IsString (date r)) = true) h.

(** The statistics entry of weekday [dow]. *)
Definition stat_of (LocalTZA : Z -> Z) (h : list HistoricalRecord) (dow : Z)
  : DayOfWeekStat :=
  let prediction := predictFromDayOfWeek LocalTZA h (Some dow) None in
  mkStat dow (count prediction) (revenue prediction) (avgPrice prediction).
End MoreNotions.

Module MergeNotions.
Import Js Storage Notions.

(** The incoming records that are written under the key [k]. *)
Definition written_to (k : option Value) (newData : list (gmap string Value))
  : list (gmap string Value) :=
  filter (fun item => has_id item /\ id_of item = k) newData.

(** The value under a key after these records are merged into it in turn. *)
Definition merged_value (v : option (gmap string Value))
    (items : list (gmap string Value)) : option (gmap string Value) :=
  fold_left (fun v item => Some (spread2 (default ∅ v) item)) items v.

(** All their properties, later records first. *)
Definition overlay (items : list (gmap string Value)) : gmap string Value :=
  fold_left (fun acc item => spread2 acc item) items ∅.
End MergeNotions.

Module SecurityNotions.
Import Js Security.

(** The store after a run of failed logins at the given times. *)
Definition failures (times : list Z) (st : Store) : Store :=
  fold_left (fun st now => (recordLoginFailure now st).2) times st.

(** No lock is in force at the time of the check. *)
Definition not_locked_at (now : Z) (st : Store) : Prop :=
  match lockoutUntil (getLoginAttempts st) with
  | None => True
  | Some lockedUntil => lockedUntil = 0 \/ lockedUntil <= now
  end.
End SecurityNotions.

Module CsvNotions.
Import Csv.

(** A field written between double quotes, and cells joined by commas. *)
Definition quoted (field : list N) : list N := QUOTE :: field ++ [QUOTE].

Fixpoint joined (cells : list (list N)) : list N :=
  match cells with
  | [] => []
  | [cell] => cell
  | cell :: rest => cell ++ COMMA :: joined rest
  end.

(** No white space at either end. *)
Definition trimmed (s : list N) : Prop :=
  trimStart s = s /\ trimStart (reverse s) = reverse s.

(** [cell] is a way to write [field] in a line: as it is when it has no
    comma, or between quotes. *)
Definition written_as (field cell : list N) : Prop :=
  (cell = field /\ COMMA ∉ field) \/ cell = quoted field.

Definition clean (field : list N) : Prop := (QUOTE ∉ field) /\ trimmed field.

(** Number of commas of a line. *)
Definition commas (line : list N) : nat := length (filter (fun c => c = COMMA) line).
End CsvNotions.

Module CalendarNotions.
Import Js JsDate Holidays Prediction.

(** Day of the 400-year era from the year of the era and the day of the
    (March-based) year, and back: the two steps of [days_from_civil] and
    [civil_from_days] that deal with years. *)
Definition doe_of (yoe doy : Z) : Z := yoe * 365 + yoe / 4 - yoe / 100 + doy.
Definition yoe_of (doe : Z) : Z :=
  (doe - doe / 1460 + doe / 36524 - doe / 146096) / 365.

(** Length of the March-based year [yoe]: its February is that of the next
    calendar year. *)
Definition year_length (yoe : Z) : Z := if isLeapYear (yoe + 1) then 366 else 365.

(** Every day of the year [yoe] of an era is sent back to [yoe]. *)
Definition era_ok (yoe : Z) : bool :=
  forallb (fun doy =>
             (0 <=? doe_of yoe doy) && (doe_of yoe doy <? 146097)
             && (yoe_of (doe_of yoe doy) =? yoe))
          (seqZ 0 (year_length yoe)).

(** A date of the calendar (the day exists in its month) in the years 1000
    to 9999, whose number has four digits. *)
Definition realCalendarDate (s : CalendarDate) : bool :=
  (1000 <=? cd_year s) && (cd_year s <=? 9999)
  && (1 <=? cd_month s) && (cd_month s <=? 12)
  && (1 <=? cd_day s) && (cd_day s <=? daysInMonth (cd_year s) (cd_month s)).

(** [s.padStart(4, '0')]. *)
Definition padStart4 (s : string) : string :=
  match String.length s with
  | 0%nat => "0000"
  | 1%nat => "000" +:+ s
  | 2%nat => "00" +:+ s
  | 3%nat => "0" +:+ s
  | _ => s
  end.

(** The text [YYYY-MM-DD] of a date: the year on four digits, the month and
    the day on two. *)
Definition date_text (s : CalendarDate) : string :=
  padStart4 (pretty (cd_year s)) +:+ "-" +:+ padStart2 (pretty (cd_month s))
    +:+ "-" +:+ padStart2 (pretty (cd_day s)).

(** The weekday of the date a text names (0 = Sunday .. 6 = Saturday;
    1970-01-01 was a Thursday), whatever the time zone; [None] when the text
    names no date. *)
Definition weekday_of (s : CalendarDate) : option Z :=
  if validCalendarDate s
  then Some ((days_from_civil (cd_year s) (cd_month s) (cd_day s) + 4) mod 7)
  else None.

(** The text of the date is a key of the cached table of its year. *)
Definition listed (cache : gmap Z (gmap string string)) (s : CalendarDate) : bool :=
  match cache !! cd_year s with
  | Some holidays => bool_decide (is_Some (holidays !! date_text s))
  | None => false
  end.

(** The records dated on weekday [dow], and those dated on a listed
    holiday: by the text of their date alone. *)
Definition dated_on_weekday (dow : Z) (h : list HistoricalRecord)
  : list HistoricalRecord :=
  filter (fun r => weekday_of (date r) = Some dow) h.

Definition dated_on_holiday (cache : gmap Z (gmap string string))
    (h : list HistoricalRecord) : list HistoricalRecord :=
  filter (fun r => listed cache (date r) = true) h.

(** A zone five hours west of Greenwich, and noon there. *)
Definition EST (t : Z) : Z := - 18000000.

Definition noon_EST (y m d : Z) : option Z :=
  Some (days_from_civil y m d * msPerDay + 17 * 3600000).
End CalendarNotions.

(* ===================================================================== *)
(** * Properties *)
(* ===================================================================== *)

(** ** Arithmetic of the rounding helpers *)

Module JsFacts.
Import Js.

Lemma Math_round_div_exact a b : 0 < b -> Math_round_div (a * b) b = a.
Proof.
  intros Hb. unfold Math_round_div.
  symmetry. apply (Z.div_unique _ _ _ b); lia.
Qed.

Lemma Math_round_div_ge_1 a b : 0 < b -> b <= a -> 1 <= Math_round_div a b.
Proof.
  intros Hb Hab. unfold Math_round_div.
  apply Z.div_le_lower_bound; lia.
Qed.

Lemma num_eq_Some x n : num_eq x (Some n) = true <-> x = Some n.
Proof.
  destruct x as [y|]; simpl; [|split; discriminate].
  rewrite Z.eqb_eq. split; congruence.
Qed.

(** The built-ins on a few inputs. *)
Example parseInt_digits : parseInt "48" = Some 48.
Proof. reflexivity. Qed.

Example parseInt_prefix : parseInt "  -12px" = Some (-12).
Proof. reflexivity. Qed.

Example parseInt_hex : parseInt "0x1F" = Some 31.
Proof. reflexivity. Qed.

Example parseInt_empty : parseInt "" = None.
Proof. reflexivity. Qed.

Example Math_round_half_up : Math_round_div 3 2 = 2 /\ Math_round_div (-5) 2 = -2.
Proof. split; reflexivity. Qed.

Example Math_ceil_up : Math_ceil_div 7 2 = 4 /\ Math_ceil_div (-7) 2 = -3.
Proof. split; reflexivity. Qed.

(** *** Insertion-ordered dictionaries *)
Section Dict.
Context {K V : Type} `{EqDecision K}.
Implicit Types (k : K) (v : V) (m : list (K * V)).

Lemma dict_set_not_nil k v m : dict_set k v m <> [].
Proof. destruct m as [|[k' v'] m]; simpl; [done|]. by destruct (decide (k = k')). Qed.

Lemma dict_get_None k m : dict_get k m = None <-> k ∉ m.*1.
Proof.
  induction m as [|[k' v'] m IH]; simpl.
  - split; [intros _; apply not_elem_of_nil | done].
  - rewrite not_elem_of_cons. destruct (decide (k = k')) as [->|Hne].
    + split; [discriminate | intros [? _]; done].
    + rewrite IH. tauto.
Qed.

Lemma dict_get_is_Some k m : is_Some (dict_get k m) <-> k ∈ m.*1.
Proof.
  rewrite <-not_eq_None_Some, dict_get_None.
  destruct (decide (k ∈ m.*1)); tauto.
Qed.

Lemma dict_get_elem_of k v m : dict_get k m = Some v -> (k, v) ∈ m.
Proof.
  induction m as [|[k' v'] m IH]; simpl; [done|].
  destruct (decide (k = k')) as [->|]; intros Hg.
  - injection Hg as ->. apply list_elem_of_here.
  - apply list_elem_of_further; auto.
Qed.

Lemma dict_set_keys_old k v m : k ∈ m.*1 -> (dict_set k v m).*1 = m.*1.
Proof.
  induction m as [|[k' v'] m IH]; simpl.
  - by intros ?%elem_of_nil.
  - destruct (decide (k = k')) as [->|Hne]; simpl; [done|].
    intros [?|Hin]%elem_of_cons; [done|]. f_equal. by apply IH.
Qed.

Lemma dict_set_keys_new k v m : k ∉ m.*1 -> dict_set k v m = m ++ [(k, v)].
Proof.
  induction m as [|[k' v'] m IH]; simpl; [done|].
  intros [Hne Hin]%not_elem_of_cons.
  destruct (decide (k = k')); [done|]. f_equal. by apply IH.
Qed.

Lemma dict_set_Forall (Q : K * V -> Prop) k v m :
  Q (k, v) -> Forall Q m -> Forall Q (dict_set k v m).
Proof.
  intros Hq. induction 1 as [|[k' v'] m Hx Hm IH]; simpl.
  - by constructor.
  - destruct (decide (k = k')); constructor; auto.
Qed.

Lemma dict_get_set_eq k v m : dict_get k (dict_set k v m) = Some v.
Proof.
  induction m as [|[k' v'] m IH]; simpl.
  - by rewrite decide_True.
  - destruct (decide (k = k')); simpl; [by rewrite decide_True|].
    by rewrite decide_False.
Qed.

Lemma dict_get_set_ne k k0 v m : k0 <> k -> dict_get k0 (dict_set k v m) = dict_get k0 m.
Proof.
  intros Hne. induction m as [|[k' v'] m IH]; simpl.
  - by rewrite decide_False.
  - destruct (decide (k = k')) as [->|]; simpl.
    + by rewrite !decide_False.
    + destruct (decide (k0 = k')); auto.
Qed.

Lemma dict_has_true k m : dict_has k m = true <-> is_Some (dict_get k m).
Proof. unfold dict_has. apply bool_decide_eq_true. Qed.

Lemma dict_has_get k m v : dict_get k m = Some v -> dict_has k m = true.
Proof. intros Hg. apply dict_has_true. by exists v. Qed.

Lemma dict_has_None k m : dict_get k m = None -> dict_has k m = false.
Proof.
  intros Hg. unfold dict_has. apply bool_decide_eq_false. rewrite Hg.
  by intros [? ?].
Qed.

Lemma dict_alter_set f k v m : dict_alter f k (dict_set k v m) = dict_set k (f v) m.
Proof.
  induction m as [|[k' v'] m IH]; simpl.
  - by rewrite decide_True.
  - destruct (decide (k = k')) as [->|]; simpl.
    + by rewrite decide_True.
    + rewrite decide_False by done. by rewrite IH.
Qed.

Lemma dict_alter_get f k v m :
  dict_get k m = Some v -> dict_alter f k m = dict_set k (f v) m.
Proof.
  induction m as [|[k' v'] m IH]; simpl; [done|].
  destruct (decide (k = k')) as [->|]; intros Hg.
  - by injection Hg as ->.
  - by rewrite IH.
Qed.

(** Filtering on the key commutes with reads and writes. *)
Section Filter.
Context (P : K -> Prop) `{!forall k, Decision (P k)}.

Lemma dict_get_filter k m :
  P k -> dict_get k (filter (fun e => P e.1) m) = dict_get k m.
Proof.
  intros Hk. induction m as [|[k' v'] m IH]; simpl; [done|].
  rewrite filter_cons. simpl.
  destruct (decide (P k')) as [Hk'|Hk']; simpl.
  - destruct (decide (k = k')); auto.
  - destruct (decide (k = k')) as [->|]; [done|auto].
Qed.

Lemma dict_set_filter_in k v m :
  P k ->
  filter (fun e => P e.1) (dict_set k v m)
  = dict_set k v (filter (fun e => P e.1) m).
Proof.
  intros Hk. induction m as [|[k' v'] m IH]; simpl.
  - rewrite filter_cons. simpl. by rewrite decide_True.
  - destruct (decide (k = k')) as [->|Hne].
    + rewrite !filter_cons. simpl. rewrite !decide_True by done.
      simpl. by rewrite decide_True.
    + rewrite !filter_cons. simpl.
      destruct (decide (P k')); simpl; [|done].
      rewrite decide_False by done. by rewrite IH.
Qed.

Lemma dict_set_filter_out k v m :
  ~ P k ->
  filter (fun e => P e.1) (dict_set k v m) = filter (fun e => P e.1) m.
Proof.
  intros Hk. induction m as [|[k' v'] m IH]; simpl.
  - rewrite filter_cons. simpl. by rewrite decide_False.
  - destruct (decide (k = k')) as [->|Hne].
    + rewrite !filter_cons. simpl. by rewrite !decide_False.
    + rewrite !filter_cons. simpl. rewrite IH. done.
Qed.
End Filter.
End Dict.

End JsFacts.

(** ** Grouping and averaging *)

Module PredictionFacts.
Import Js JsDate Holidays Prediction Notions JsFacts.

Lemma sum_shift (f : DailyTotal -> Z) l a :
  fold_left (fun sum d => sum + f d) l a
  = a + fold_left (fun sum d => sum + f d) l 0.
Proof.
  revert a. induction l as [|d l IH]; intros a; simpl; [lia|].
  rewrite (IH (a + f d)), (IH (0 + f d)). lia.
Qed.

Lemma sum_counts_ge l :
  Forall counted l ->
  Z.of_nat (length l) <= fold_left (fun sum d => sum + day_count d) l 0.
Proof.
  induction 1 as [|d l Hd _ IH]; simpl; [lia|].
  rewrite sum_shift. unfold counted in Hd. lia.
Qed.

(** One turn of the loop, as a single write. *)
Lemma groupByDate_step_eq acc item :
  groupByDate_step acc item
  = let cur := default (mkDaily 0 0) (dict_get (date item) acc) in
    dict_set (date item)
      (mkDaily (day_count cur + 1) (day_revenue cur + num_or_0 (price item)))
      acc.
Proof.
  unfold groupByDate_step. cbv zeta.
  destruct (dict_get (date item) acc) as [cur|] eqn:Hg.
  - rewrite (dict_has_get _ _ _ Hg). cbn [negb default].
    rewrite (dict_alter_get _ _ _ _ Hg). by rewrite dict_alter_set.
  - rewrite (dict_has_None _ _ Hg). cbn [negb default].
    by rewrite !dict_alter_set.
Qed.

(** Every day that [groupByDate] lists has at least one record. *)
Lemma groupByDate_step_counted acc item :
  Forall (fun e => counted e.2) acc ->
  Forall (fun e => counted e.2) (groupByDate_step acc item).
Proof.
  intros Hacc. rewrite groupByDate_step_eq. cbv zeta. apply dict_set_Forall; [|done].
  unfold counted. simpl.
  destruct (dict_get (date item) acc) as [cur|] eqn:Hg; simpl; [|lia].
  apply dict_get_elem_of in Hg.
  rewrite Forall_forall in Hacc. specialize (Hacc _ Hg). unfold counted in Hacc.
  simpl in Hacc. lia.
Qed.

Lemma fold_counted h : forall acc,
  Forall (fun e => counted e.2) acc ->
  Forall (fun e => counted e.2) (fold_left groupByDate_step h acc).
Proof.
  induction h as [|item h IH]; intros acc Hacc; simpl; [done|].
  apply IH, groupByDate_step_counted, Hacc.
Qed.

Lemma groupByDate_counted h : Forall (fun e => counted e.2) (groupByDate h).
Proof. apply fold_counted. constructor. Qed.

Lemma fold_not_nil h : forall acc,
  acc <> [] -> fold_left groupByDate_step h acc <> [].
Proof.
  induction h as [|item h IH]; intros acc Hacc; simpl; [done|].
  apply IH. rewrite groupByDate_step_eq. apply dict_set_not_nil.
Qed.

Lemma groupByDate_not_nil h : h <> [] -> groupByDate h <> [].
Proof.
  destruct h as [|item h]; [done|]. intros _. unfold groupByDate. simpl.
  apply fold_not_nil. rewrite groupByDate_step_eq. apply dict_set_not_nil.
Qed.

(** Selecting days by a property of the date is the same as grouping the
    records that have this property. *)
Section Select.
Context (P : CalendarDate -> Prop) `{!forall k, Decision (P k)}.

Lemma filter_groupByDate_step acc item :
  filter (fun e => P e.1) (groupByDate_step acc item)
  = if decide (P (date item))
    then groupByDate_step (filter (fun e => P e.1) acc) item
    else filter (fun e => P e.1) acc.
Proof.
  rewrite !groupByDate_step_eq. cbv zeta. destruct (decide (P (date item))) as [Hp|Hp].
  - rewrite (dict_set_filter_in P) by done. by rewrite (dict_get_filter P).
  - by rewrite (dict_set_filter_out P).
Qed.

Lemma filter_fold h : forall acc,
  filter (fun e => P e.1) (fold_left groupByDate_step h acc)
  = fold_left groupByDate_step (filter (fun r => P (date r)) h)
      (filter (fun e => P e.1) acc).
Proof.
  induction h as [|item h IH]; intros acc; simpl; [done|].
  rewrite IH, filter_groupByDate_step, filter_cons.
  by destruct (decide (P (date item))).
Qed.

Lemma filter_groupByDate h :
  filter (fun e => P e.1) (groupByDate h)
  = groupByDate (filter (fun r => P (date r)) h).
Proof. unfold groupByDate. by rewrite filter_fold. Qed.
End Select.

(** *** [calculateAverage] *)

Lemma length_0_nil {A} (l : list A) : length l = 0%nat <-> l = [].
Proof. destruct l; simpl; split; congruence. Qed.

Lemma calculateAverage_hasData l b :
  hasData (calculateAverage l b) = bool_decide (l <> []).
Proof.
  unfold calculateAverage. destruct (decide (length l = 0%nat)) as [H0|H0]; simpl.
  - apply length_0_nil in H0 as ->. by rewrite bool_decide_false by auto.
  - rewrite bool_decide_true; [done|]. by rewrite <-length_0_nil.
Qed.

Lemma calculateAverage_avgPrice l b :
  let r := calculateAverage l b in
  (0 < count r -> avgPrice r = Math_round_div (revenue r) (count r))
  /\ (count r <= 0 -> avgPrice r = 0).
Proof.
  unfold calculateAverage. destruct (decide (length l = 0%nat)); simpl.
  - split; [lia|done].
  - match goal with |- context [0 <? ?c] => destruct (Z.ltb_spec 0 c) end;
      split; intros; (done || lia).
Qed.

Lemma calculateAverage_zero l b :
  hasData (calculateAverage l b) = false ->
  count (calculateAverage l b) = 0
  /\ revenue (calculateAverage l b) = 0
  /\ avgPrice (calculateAverage l b) = 0.
Proof.
  unfold calculateAverage. by destruct (decide (length l = 0%nat)).
Qed.

Lemma calculateAverage_count_ge_1 l b :
  l <> [] -> Forall counted l -> 1 <= count (calculateAverage l b).
Proof.
  intros Hl Hc. unfold calculateAverage.
  destruct (decide (length l = 0%nat)) as [H0|H0]; [by apply length_0_nil in H0|].
  simpl. apply Math_round_div_ge_1; [lia|]. by apply sum_counts_ge.
Qed.

Lemma counted_values (P : CalendarDate * DailyTotal -> Prop)
    `{!forall e, Decision (P e)} h :
  Forall counted (filter P (groupByDate h)).*2.
Proof.
  rewrite Forall_fmap, Forall_forall. intros e [_ He]%list_elem_of_filter.
  pose proof (groupByDate_counted h) as Hall.
  rewrite Forall_forall in Hall. by apply Hall.
Qed.

Lemma fmap_not_nil {A B} (f : A -> B) (l : list A) : l <> [] -> f <$> l <> [].
Proof. by destruct l. Qed.

(** *** The shape of every prediction on a non-empty history *)
Section Shape.
Variable LocalTZA : Z -> Z.
Variable cache : gmap Z (gmap string string).

Lemma predictFromDayOfWeek_averaged h dow override :
  h <> [] -> averaged (predictFromDayOfWeek LocalTZA h dow override).
Proof.
  intros Hh. unfold predictFromDayOfWeek.
  destruct (decide _) as [H0|H0].
  - exists (groupByDate h).*2, "全体平均（曜日データなし）". split; [|split; [|done]].
    + by apply fmap_not_nil, groupByDate_not_nil.
    + rewrite Forall_fmap. apply groupByDate_counted.
  - eexists _, _. split; [|split; [|reflexivity]].
    + apply fmap_not_nil. by rewrite <-length_0_nil.
    + apply counted_values.
Qed.

Lemma predictDayuseRevenue_averaged h t :
  h <> [] -> averaged (predictDayuseRevenue LocalTZA cache h t).
Proof.
  intros Hh. unfold predictDayuseRevenue.
  destruct (decide (length h = 0%nat)) as [H0|_]; [by apply length_0_nil in H0|].
  destruct (isHolidaySync LocalTZA cache (IsDate t)).
  - unfold predictFromHolidayData. destruct (decide _) as [H0|H0].
    + by apply predictFromDayOfWeek_averaged.
    + eexists _, _. split; [|split; [|reflexivity]].
      * apply fmap_not_nil. by rewrite <-length_0_nil.
      * apply counted_values.
  - by apply predictFromDayOfWeek_averaged.
Qed.
End Shape.

End PredictionFacts.

(* ===================================================================== *)
(** * Calendar dates and the local time zone *)
(* ===================================================================== *)

Section CalendarFacts.
Import Js JsDate Holidays Prediction Notions MoreNotions CalendarNotions.

(** Checked by evaluation over the 146097 days of an era. *)
Lemma eras_ok : forallb era_ok (seqZ 0 400) = true.
Proof. vm_compute. reflexivity. Qed.

Lemma yoe_round_trip yoe doy :
  0 <= yoe < 400 -> 0 <= doy < year_length yoe ->
  0 <= doe_of yoe doy < 146097 /\ yoe_of (doe_of yoe doy) = yoe.
Proof.
  intros Hy Hd. pose proof eras_ok as Hall.
  rewrite forallb_forall in Hall.
  assert (era_ok yoe = true) as Hera.
  { apply Hall, list_elem_of_In, elem_of_seqZ. lia. }
  unfold era_ok in Hera. rewrite forallb_forall in Hera.
  specialize (Hera doy). rewrite <-list_elem_of_In, elem_of_seqZ in Hera.
  specialize (Hera ltac:(lia)).
  apply andb_prop in Hera as [Hera H3]. apply andb_prop in Hera as [H1 H2].
  apply Z.leb_le in H1. apply Z.ltb_lt in H2. apply Z.eqb_eq in H3. lia.
Qed.

Ltac div_lia := Z.div_mod_to_equations; lia.

(** Month and day of the month are recovered from the day of the
    March-based year. *)
Lemma month_round_trip m d :
  1 <= m <= 12 -> 1 <= d <= 31 ->
  (m = 2 -> d <= 29) ->
  (m = 4 \/ m = 6 \/ m = 9 \/ m = 11 -> d <= 30) ->
  let mp := (m + 9) mod 12 in
  let doy := (153 * mp + 2) / 5 + d - 1 in
  0 <= doy <= 365
  /\ (doy = 365 -> m = 2 /\ d = 29)
  /\ (5 * doy + 2) / 153 = mp
  /\ (if mp <? 10 then mp + 3 else mp - 9) = m.
Proof.
  intros Hm Hd H2 H30.
  assert (m = 1 \/ m = 2 \/ m = 3 \/ m = 4 \/ m = 5 \/ m = 6 \/ m = 7 \/ m = 8 \/ m = 9
          \/ m = 10 \/ m = 11 \/ m = 12) as Hc by lia.
  destruct Hc as [->|[->|[->|[->|[->|[->|[->|[->|[->|[->|[->| ->]]]]]]]]]]];
    cbn -[Z.div Z.mul Z.add Z.sub]; repeat split; try done; div_lia.
Qed.

Lemma isLeapYear_era era yoe : isLeapYear (era * 400 + yoe + 1) = isLeapYear (yoe + 1).
Proof.
  unfold isLeapYear.
  replace ((era * 400 + yoe + 1) mod 4) with ((yoe + 1) mod 4) by div_lia.
  replace ((era * 400 + yoe + 1) mod 100) with ((yoe + 1) mod 100) by div_lia.
  replace ((era * 400 + yoe + 1) mod 400) with ((yoe + 1) mod 400) by div_lia.
  done.
Qed.

Lemma civil_from_days_eq z era doe yoe doy mp :
  z + 719468 = era * 146097 + doe ->
  0 <= doe < 146097 ->
  yoe_of doe = yoe ->
  doy = doe - (365 * yoe + yoe / 4 - yoe / 100) ->
  (5 * doy + 2) / 153 = mp ->
  civil_from_days z
  = (yoe + era * 400 + (if (if mp <? 10 then mp + 3 else mp - 9) <=? 2 then 1 else 0),
     if mp <? 10 then mp + 3 else mp - 9,
     doy - (153 * mp + 2) / 5 + 1).
Proof.
  intros Hz Hdoe Hyoe Hdoy Hmp. unfold civil_from_days. cbv zeta. rewrite Hz.
  assert ((era * 146097 + doe) / 146097 = era) as ->
    by (symmetry; apply (Z.div_unique _ _ _ doe); lia).
  replace (era * 146097 + doe - era * 146097) with doe by lia.
  fold (yoe_of doe). rewrite Hyoe, <-Hdoy, Hmp. done.
Qed.

(** [civil_from_days] inverts [days_from_civil] on calendar dates. *)
Lemma civil_round_trip y m d :
  1 <= m <= 12 -> 1 <= d <= daysInMonth y m ->
  civil_from_days (days_from_civil y m d) = (y, m, d).
Proof.
  intros Hm Hd.
  set (y' := if m <=? 2 then y - 1 else y).
  set (era := y' / 400). set (yoe := y' - era * 400).
  set (mp := (m + 9) mod 12).
  set (doy := (153 * mp + 2) / 5 + d - 1).
  assert (0 <= yoe < 400) as Hyoe by (subst yoe era; div_lia).
  assert (d <= 31 /\ (m = 2 -> d <= 29 /\ (d = 29 -> isLeapYear y = true))
          /\ (m = 4 \/ m = 6 \/ m = 9 \/ m = 11 -> d <= 30)) as (Hd31 & Hfeb & H30).
  { unfold daysInMonth in Hd.
    destruct (Z.eqb_spec m 2) as [->|Hne2].
    - destruct (isLeapYear y) eqn:Hl; repeat split; try lia; intros; try done; lia.
    - destruct ((m =? 4) || (m =? 6) || (m =? 9) || (m =? 11)) eqn:H4;
        repeat split; lia. }
  assert (1 <= d <= 31) as Hd' by lia.
  assert (m = 2 -> d <= 29) as Hfeb' by (intros; by apply Hfeb).
  pose proof (month_round_trip m d Hm Hd' Hfeb' H30) as Hmd. cbv zeta in Hmd.
  fold mp in Hmd. fold doy in Hmd. destruct Hmd as (Hdoy & H365 & Hmp & Hmonth).
  assert (doy < year_length yoe) as Hlen.
  { unfold year_length. destruct (Z.eq_dec doy 365) as [H5|H5]; [|destruct (isLeapYear (yoe + 1)); lia].
    destruct (H365 H5) as [-> ->]. destruct (Hfeb eq_refl) as [_ Hleap].
    specialize (Hleap eq_refl).
    assert (y = era * 400 + yoe + 1) as Hy by (subst yoe y'; cbn; lia).
    rewrite Hy, isLeapYear_era in Hleap. rewrite Hleap. lia. }
  destruct (yoe_round_trip yoe doy Hyoe ltac:(lia)) as [Hdoe Hback].
  rewrite (civil_from_days_eq (days_from_civil y m d) era (doe_of yoe doy) yoe doy mp).
  - rewrite Hmonth. f_equal; [f_equal|].
    + subst yoe y'. destruct (Z.leb_spec m 2); lia.
    + subst doy. lia.
  - unfold days_from_civil. fold y' era yoe mp doy. unfold doe_of. lia.
  - done.
  - done.
  - unfold doe_of. lia.
  - done.
Qed.
Lemma daysInMonth_le_31 y m : daysInMonth y m <= 31.
Proof.
  unfold daysInMonth. destruct (m =? 2); [by destruct (isLeapYear y)|].
  by destruct ((m =? 4) || (m =? 6) || (m =? 9) || (m =? 11)).
Qed.

Lemma realCalendarDate_bounds s :
  realCalendarDate s = true ->
  validCalendarDate s = true
  /\ 1000 <= cd_year s <= 9999
  /\ 1 <= cd_month s <= 12
  /\ 1 <= cd_day s <= daysInMonth (cd_year s) (cd_month s).
Proof.
  unfold realCalendarDate, validCalendarDate.
  pose proof (daysInMonth_le_31 (cd_year s) (cd_month s)). lia.
Qed.

(** The number of a year from 1000 to 9999 has four digits: checked by
    evaluation. *)
Lemma years_ok :
  forallb (fun y => bool_decide (padStart4 (pretty y) = pretty y)) (seqZ 1000 9000)
  = true.
Proof. vm_compute. reflexivity. Qed.

Lemma padStart4_year y : 1000 <= y <= 9999 -> padStart4 (pretty y) = pretty y.
Proof.
  intros Hy. pose proof years_ok as Hall. rewrite forallb_forall in Hall.
  specialize (Hall y). rewrite <-list_elem_of_In, elem_of_seqZ in Hall.
  specialize (Hall ltac:(lia)). by apply bool_decide_eq_true in Hall.
Qed.

Example weekday_of_examples :
  weekday_of (mkCalendarDate 1970 1 1) = Some 4
  /\ weekday_of (mkCalendarDate 2024 1 6) = Some 6
  /\ weekday_of (mkCalendarDate 2024 1 8) = Some 1
  /\ weekday_of (mkCalendarDate 2024 13 1) = None.
Proof. repeat split. Qed.

(** A day beyond the end of its month runs on into the next month. *)
Example Date_of_string_runs_on :
  Date_of_string (mkCalendarDate 2024 2 30) = Date_of_string (mkCalendarDate 2024 3 1)
  /\ Date_of_string (mkCalendarDate 2023 4 31) = Date_of_string (mkCalendarDate 2023 5 1)
  /\ Date_of_string (mkCalendarDate 2024 2 32) = None
  /\ date_text (mkCalendarDate 24 1 8) = "0024-01-08".
Proof. repeat split. Qed.
End CalendarFacts.

Section ZoneFacts.
Import Js JsDate Holidays Prediction Notions MoreNotions CalendarNotions.
Variable LocalTZA : Z -> Z.

Lemma Day_LocalTime_east d :
  (forall t, 0 <= LocalTZA t < msPerDay) ->
  Day (LocalTime LocalTZA (d * msPerDay)) = d.
Proof.
  intros Htz. unfold Day, LocalTime. specialize (Htz (d * msPerDay)).
  unfold msPerDay in *. symmetry.
  apply (Z.div_unique _ _ _ (LocalTZA (d * 86400000))); lia.
Qed.

Lemma Day_LocalTime_west d :
  (forall t, - msPerDay <= LocalTZA t < 0) ->
  Day (LocalTime LocalTZA (d * msPerDay)) = d - 1.
Proof.
  intros Htz. unfold Day, LocalTime. specialize (Htz (d * msPerDay)).
  unfold msPerDay in *. symmetry.
  apply (Z.div_unique _ _ _ (LocalTZA (d * 86400000) + 86400000)); lia.
Qed.

(** At or east of Greenwich the code's weekday of a date text is the
    weekday of the date. *)
Lemma getDay_east s :
  (forall t, 0 <= LocalTZA t < msPerDay) ->
  getDay LocalTZA (Date_of_string s) = weekday_of s.
Proof.
  intros Htz. unfold weekday_of, Date_of_string.
  destruct (validCalendarDate s); [|done].
  cbn [getDay mbind option_bind]. by rewrite Day_LocalTime_east.
Qed.

Lemma on_weekday_east dow h :
  (forall t, 0 <= LocalTZA t < msPerDay) ->
  on_weekday LocalTZA dow h = dated_on_weekday dow h.
Proof.
  intros Htz. unfold on_weekday, dated_on_weekday.
  apply list_filter_iff. intros r. by rewrite getDay_east.
Qed.

(** At or east of Greenwich a calendar date is read back field by field,
    and formatted as its own text. *)
Lemma Date_of_string_east s :
  (forall t, 0 <= LocalTZA t < msPerDay) ->
  realCalendarDate s = true ->
  getFullYear LocalTZA (Date_of_string s) = Some (cd_year s)
  /\ getMonth LocalTZA (Date_of_string s) = Some (cd_month s - 1)
  /\ getDate LocalTZA (Date_of_string s) = Some (cd_day s)
  /\ formatDate LocalTZA (Date_of_string s) = date_text s.
Proof.
  intros Htz Hreal.
  destruct (realCalendarDate_bounds s Hreal) as (Hv & Hy & Hm & Hd).
  assert (getFullYear LocalTZA (Date_of_string s) = Some (cd_year s)) as Hyear.
  { unfold Date_of_string. rewrite Hv. cbn [getFullYear mbind option_bind].
    by rewrite Day_LocalTime_east, civil_round_trip. }
  assert (getMonth LocalTZA (Date_of_string s) = Some (cd_month s - 1)) as Hmonth.
  { unfold Date_of_string. rewrite Hv. cbn [getMonth mbind option_bind].
    by rewrite Day_LocalTime_east, civil_round_trip. }
  assert (getDate LocalTZA (Date_of_string s) = Some (cd_day s)) as Hday.
  { unfold Date_of_string. rewrite Hv. cbn [getDate mbind option_bind].
    by rewrite Day_LocalTime_east, civil_round_trip. }
  repeat split; try done.
  unfold formatDate. rewrite Hyear, Hmonth, Hday.
  cbn [fmap option_fmap option_map String_of_num].
  unfold date_text. rewrite padStart4_year by done.
  by replace (Z.succ (cd_month s - 1)) with (cd_month s) by lia.
Qed.

Lemma isHolidaySync_listed cache s :
  (forall t, 0 <= LocalTZA t < msPerDay) ->
  realCalendarDate s = true ->
  isHolidaySync LocalTZA cache (IsString s) = listed cache s.
Proof.
  intros Htz Hreal.
  destruct (Date_of_string_east s Htz Hreal) as (Hy & _ & _ & Hf).
  unfold isHolidaySync, listed. cbv zeta. by rewrite Hy, Hf.
Qed.

Lemma on_holiday_east cache h :
  (forall t, 0 <= LocalTZA t < msPerDay) ->
  Forall (fun r => realCalendarDate (date r) = true) h ->
  on_holiday LocalTZA cache h = dated_on_holiday cache h.
Proof.
  intros Htz Hreal. unfold on_holiday, dated_on_holiday.
  induction Hreal as [|r h Hr _ IH]; [done|].
  rewrite !filter_cons, IH, isHolidaySync_listed by done. done.
Qed.
End ZoneFacts.

(* ===================================================================== *)
(** * The prediction engine *)
(* ===================================================================== *)

Section PredictionProperties.
Import Js JsDate Holidays Prediction Notions MoreNotions CalendarNotions.
Import JsFacts PredictionFacts.

Variable LocalTZA : Z -> Z.
Variable cache : gmap Z (gmap string string).

(** C2.  Whatever the history, the target date and the cached holiday
    tables, the result of [predictDayuseRevenue] has
    [avgPrice = Math.round(revenue / count)] when [count > 0] and
    [avgPrice = 0] otherwise, and a result with [hasData = false] has
    [count], [revenue] and [avgPrice] all equal to 0. *)
Theorem predict_result_invariant dayuseData targetDate :
  let r := predictDayuseRevenue LocalTZA cache dayuseData targetDate in
  (0 < count r -> avgPrice r = Math_round_div (revenue r) (count r))
  /\ (count r <= 0 -> avgPrice r = 0)
  /\ (hasData r = false -> count r = 0 /\ revenue r = 0 /\ avgPrice r = 0).
Proof.
  destruct dayuseData as [|item h] eqn:Hd.
  - cbn. repeat split; (lia || done).
  - destruct (predictDayuseRevenue_averaged LocalTZA cache (item :: h) targetDate)
      as (days & b & _ & _ & ->); [done|].
    cbv zeta. pose proof (calculateAverage_avgPrice days b) as [H1 H2].
    repeat split; auto; by apply calculateAverage_zero.
Qed.

(** C3.  [predictDayuseRevenue] answers [hasData: true] exactly when the
    history is not empty, and for the empty history it answers exactly
    [{ count: 0, revenue: 0, avgPrice: 0, hasData: false }] with the
    no-data basis, which the source writes 'データなし'. *)
Theorem predict_hasData_iff_nonempty dayuseData targetDate :
  (hasData (predictDayuseRevenue LocalTZA cache dayuseData targetDate) = true
   <-> dayuseData <> [])
  /\ predictDayuseRevenue LocalTZA cache [] targetDate
     = mkPrediction 0 0 0 false "データなし".
Proof.
  split; [|reflexivity].
  destruct dayuseData as [|item h].
  - cbn. split; [discriminate | done].
  - destruct (predictDayuseRevenue_averaged LocalTZA cache (item :: h) targetDate)
      as (days & b & Hdays & _ & ->); [done|].
    rewrite calculateAverage_hasData, bool_decide_true by done. done.
Qed.

(** C9.  Every day listed by [groupByDate] counts at least one record, and
    for a non-empty history the predicted [count] is at least 1, so the
    test [avgCount > 0] succeeds and [avgPrice] is the rounded quotient. *)
Theorem predict_count_ge_1 dayuseData targetDate :
  dayuseData <> [] ->
  let r := predictDayuseRevenue LocalTZA cache dayuseData targetDate in
  Forall (fun e => 1 <= day_count e.2) (groupByDate dayuseData)
  /\ 1 <= count r
  /\ (0 <? count r) = true
  /\ avgPrice r = Math_round_div (revenue r) (count r).
Proof.
  intros Hd r. split; [apply groupByDate_counted|].
  destruct (predictDayuseRevenue_averaged LocalTZA cache dayuseData targetDate Hd)
    as (days & b & Hdays & Hc & Hr).
  assert (1 <= count r) as Hge.
  { subst r. rewrite Hr. by apply calculateAverage_count_ge_1. }
  split; [done|]. split; [apply Z.ltb_lt; lia|].
  subst r. rewrite Hr. apply calculateAverage_avgPrice. rewrite <-Hr. lia.
Qed.

(** Rewriting with a lemma stated for a predicate on keys. *)
Ltac rewrite_beta H :=
  let E := fresh "E" in
  pose proof H as E; cbv beta in E; rewrite E; clear E.

Lemma filter_none {A} (P : A -> Prop) `{!forall x, Decision (P x)} (l : list A) :
  (forall x, x ∈ l -> ~ P x) -> filter P l = [].
Proof.
  induction l as [|x l IH]; intros Hl; [done|].
  rewrite filter_cons_False; [|apply Hl, list_elem_of_here].
  apply IH. intros y Hy. apply Hl. by apply list_elem_of_further.
Qed.

(** The fallback in terms of what the code computes for each record:
    [isHolidaySync] of its date text and [getDay] of the parsed date. *)
Lemma holiday_fallback_local dayuseData targetDate :
  isHolidaySync LocalTZA cache (IsDate targetDate) = true ->
  (forall r, r ∈ dayuseData ->
             isHolidaySync LocalTZA cache (IsString (date r)) = false) ->
  (exists r, r ∈ dayuseData
             /\ getDay LocalTZA (Date_of_string (date r)) = Some 6) ->
  let saturdays :=
    filter (fun r => getDay LocalTZA (Date_of_string (date r)) = Some 6)
           dayuseData in
  saturdays <> []
  /\ predictDayuseRevenue LocalTZA cache dayuseData targetDate
     = calculateAverage (groupByDate saturdays).*2 "祝日（土曜日データで代用）".
Proof.
  intros Htarget Hnone (r0 & Hr0 & Hsat) saturdays.
  assert (saturdays <> []) as Hne.
  { intros Hnil. exact (filter_nil_not_elem_of _ _ r0 Hnil Hsat Hr0). }
  split; [done|].
  unfold predictDayuseRevenue.
  destruct (decide (length dayuseData = 0%nat)) as [H0|_].
  { apply length_0_nil in H0. subst. by apply elem_of_nil in Hr0. }
  rewrite Htarget.
  unfold predictFromHolidayData.
  rewrite_beta (filter_groupByDate
             (fun k => isHolidaySync LocalTZA cache (IsString k) = true)).
  rewrite filter_none; last first.
  { intros r Hr. rewrite (Hnone r Hr). discriminate. }
  cbn [groupByDate fold_left length]. rewrite decide_True by done.
  unfold predictFromDayOfWeek.
  rewrite_beta (filter_groupByDate
             (fun k => num_eq (getDay LocalTZA (Date_of_string k)) (Some 6) = true)).
  rewrite (list_filter_iff _
             (fun r => getDay LocalTZA (Date_of_string (date r)) = Some 6));
    [|intros r; apply num_eq_Some].
  fold saturdays.
  rewrite decide_False; [done|].
  rewrite length_0_nil. by apply groupByDate_not_nil.
Qed.

(** C4, in a time zone at or east of Greenwich.  When every record is dated
    on a day of the calendar (years 1000 to 9999), the target date is a
    holiday, no record is dated on a listed holiday and some record is
    dated on a Saturday, the result is the average over the daily totals of
    the records dated on a Saturday, and its basis is
    '祝日（土曜日データで代用）' (holiday, Saturday data used instead). *)
Theorem holiday_without_holiday_data_uses_saturday dayuseData targetDate :
  (forall t, 0 <= LocalTZA t < msPerDay) ->
  Forall (fun r => realCalendarDate (date r) = true) dayuseData ->
  isHolidaySync LocalTZA cache (IsDate targetDate) = true ->
  (forall r, r ∈ dayuseData -> listed cache (date r) = false) ->
  (exists r, r ∈ dayuseData /\ weekday_of (date r) = Some 6) ->
  dated_on_weekday 6 dayuseData <> []
  /\ predictDayuseRevenue LocalTZA cache dayuseData targetDate
     = calculateAverage (groupByDate (dated_on_weekday 6 dayuseData)).*2
         "祝日（土曜日データで代用）".
Proof.
  intros Htz Hreal Htarget Hnone (r0 & Hr0 & Hsat).
  rewrite <-(on_weekday_east LocalTZA 6 dayuseData Htz).
  apply holiday_fallback_local.
  - exact Htarget.
  - intros r Hr. rewrite isHolidaySync_listed; [by apply Hnone|done|].
    by apply (proj1 (Forall_forall _ _) Hreal).
  - exists r0. split; [done|]. by rewrite getDay_east.
Qed.

Lemma getDay_of_string s :
  (forall t, 0 <= LocalTZA t < msPerDay) ->
  validCalendarDate s = true ->
  getDay LocalTZA (Date_of_string s)
  = Some ((days_from_civil (cd_year s) (cd_month s) (cd_day s) + 4) mod 7).
Proof.
  intros Htz Hv. unfold Date_of_string. rewrite Hv. cbn [getDay mbind option_bind].
  unfold Day, LocalTime.
  set (d := days_from_civil _ _ _).
  specialize (Htz (d * msPerDay)).
  replace ((d * msPerDay + LocalTZA (d * msPerDay)) `div` msPerDay) with d; [done|].
  unfold msPerDay in *.
  apply (Z.div_unique _ _ _ (LocalTZA (d * 86400000))); lia.
Qed.

(** C1, as the code computes it.  In a time zone at or east of Greenwich,
    for the two records dated 2024-01-08 and 2024-01-15 (prices 5000 and
    7000) and a target that is a Monday and not a holiday, the result is
    [count = 1], [revenue = 6000], [avgPrice = 6000], [hasData = true]
    with the Monday basis '月曜日の過去平均': the two records fall on two
    days of one record each, and the averages are taken per day. *)
Theorem two_mondays_prediction targetDate :
  (forall t, 0 <= LocalTZA t < msPerDay) ->
  getDay LocalTZA targetDate = Some 1 ->
  isHolidaySync LocalTZA cache (IsDate targetDate) = false ->
  predictDayuseRevenue LocalTZA cache Scenario.two_mondays targetDate
  = mkPrediction 1 6000 6000 true "月曜日の過去平均".
Proof.
  intros Htz Hmon Hhol.
  unfold predictDayuseRevenue. rewrite Hhol, Hmon.
  cbn [Scenario.two_mondays length]. rewrite decide_False by done.
  unfold predictFromDayOfWeek.
  change (groupByDate _) with
    [ (mkCalendarDate 2024 1 8, mkDaily 1 5000);
      (mkCalendarDate 2024 1 15, mkDaily 1 7000) ].
  rewrite !filter_cons, filter_nil. cbn [fst].
  rewrite !getDay_of_string by done.
  reflexivity.
Qed.

End PredictionProperties.

Section PredictionInstances.
Import Js JsDate Holidays Prediction Scenario CalendarNotions.

Lemma predict_result_invariant_witness :
  avgPrice (predictDayuseRevenue JST cache_2024 with_saturdays (noon_JST 2024 1 1))
  = Math_round_div 7500 2.
Proof.
  pose proof (predict_result_invariant JST cache_2024 with_saturdays
                (noon_JST 2024 1 1)) as [H _].
  apply H. vm_compute. reflexivity.
Defined.

Lemma predict_hasData_iff_nonempty_witness :
  hasData (predictDayuseRevenue JST cache_2024 two_mondays (noon_JST 2024 1 22))
  = true.
Proof.
  apply (predict_hasData_iff_nonempty JST cache_2024 two_mondays
           (noon_JST 2024 1 22)).
  discriminate.
Defined.

Lemma predict_count_ge_1_witness :
  with_saturdays <> []
  /\ 1 <= count (predictDayuseRevenue JST cache_2024 with_saturdays
                   (noon_JST 2024 1 10)).
Proof.
  assert (with_saturdays <> []) as Hne by discriminate.
  split; [exact Hne|].
  apply (predict_count_ge_1 JST cache_2024 with_saturdays (noon_JST 2024 1 10) Hne).
Defined.

Lemma holiday_without_holiday_data_uses_saturday_witness :
  isHolidaySync JST cache_2024 (IsDate (noon_JST 2024 1 1)) = true
  /\ predictDayuseRevenue JST cache_2024 with_saturdays (noon_JST 2024 1 1)
     = mkPrediction 2 7500 3750 true "祝日（土曜日データで代用）".
Proof.
  assert (isHolidaySync JST cache_2024 (IsDate (noon_JST 2024 1 1)) = true)
    as Htarget by (vm_compute; reflexivity).
  split; [exact Htarget|].
  destruct (holiday_without_holiday_data_uses_saturday JST cache_2024
              with_saturdays (noon_JST 2024 1 1)) as [_ Heq].
  - intros t. unfold JST, msPerDay. lia.
  - unfold with_saturdays. repeat constructor.
  - exact Htarget.
  - intros r Hr. unfold with_saturdays in Hr.
    rewrite !elem_of_cons, elem_of_nil in Hr.
    destruct Hr as [Hr|[Hr|[Hr|[Hr|[]]]]]; rewrite Hr; vm_compute; reflexivity.
  - exists (mkRecord (VStr "d") (mkCalendarDate 2024 1 13) (Some 5000)).
    split; [|vm_compute; reflexivity].
    unfold with_saturdays. rewrite !elem_of_cons. tauto.
  - rewrite Heq. vm_compute. reflexivity.
Defined.

(** C4, as the specification words it, without a time zone: five hours west
    of Greenwich, for a target on the holiday 2024-01-01 and a history with
    no record dated on a holiday and three records dated on a Saturday
    (2024-01-06 twice, 2024-01-13), the result is not the Saturday average
    but the average over all days, with the basis
    '全体平均（曜日データなし）': read as midnight UTC, each date falls on
    the evening before in local time, and no record is a Saturday one. *)
Lemma saturday_records_west_of_Greenwich :
  isHolidaySync EST cache_2024 (IsDate (noon_EST 2024 1 1)) = true
  /\ dated_on_holiday cache_2024 with_saturdays = []
  /\ length (dated_on_weekday 6 with_saturdays) = 3%nat
  /\ predictDayuseRevenue EST cache_2024 with_saturdays (noon_EST 2024 1 1)
     = mkPrediction 1 6000 6000 true "全体平均（曜日データなし）"
  /\ predictDayuseRevenue EST cache_2024 with_saturdays (noon_EST 2024 1 1)
     <> calculateAverage (groupByDate (dated_on_weekday 6 with_saturdays)).*2
          "祝日（土曜日データで代用）".
Proof.
  repeat split; try (vm_compute; reflexivity).
  vm_compute. discriminate.
Qed.

Lemma two_mondays_prediction_witness :
  getDay JST (noon_JST 2024 1 22) = Some 1
  /\ isHolidaySync JST cache_2024 (IsDate (noon_JST 2024 1 22)) = false
  /\ predictDayuseRevenue JST cache_2024 two_mondays (noon_JST 2024 1 22)
     = mkPrediction 1 6000 6000 true "月曜日の過去平均".
Proof.
  assert (getDay JST (noon_JST 2024 1 22) = Some 1) as Hmon
    by (vm_compute; reflexivity).
  assert (isHolidaySync JST cache_2024 (IsDate (noon_JST 2024 1 22)) = false)
    as Hhol by (vm_compute; reflexivity).
  split; [exact Hmon|]. split; [exact Hhol|].
  apply (two_mondays_prediction JST cache_2024 (noon_JST 2024 1 22)).
  - intros t. unfold JST, msPerDay. lia.
  - exact Hmon.
  - exact Hhol.
Defined.

(** C1, as the specification words it: on the scenario the code does not
    answer [count = 2] and [avgPrice = 3000]. *)
Lemma two_mondays_not_as_specified :
  ~ (count (predictDayuseRevenue JST cache_2024 two_mondays (noon_JST 2024 1 22)) = 2
     /\ revenue (predictDayuseRevenue JST cache_2024 two_mondays (noon_JST 2024 1 22)) = 6000
     /\ avgPrice (predictDayuseRevenue JST cache_2024 two_mondays (noon_JST 2024 1 22)) = 3000
     /\ hasData (predictDayuseRevenue JST cache_2024 two_mondays (noon_JST 2024 1 22)) = true).
Proof.
  replace (predictDayuseRevenue JST cache_2024 two_mondays (noon_JST 2024 1 22))
    with (mkPrediction 1 6000 6000 true "月曜日の過去平均")
    by (vm_compute; reflexivity).
  cbn. intros [H _]. discriminate H.
Qed.

End PredictionInstances.

(* ===================================================================== *)
(** * The holiday cache *)
(* ===================================================================== *)

Section HolidayProperties.
Import Js JsDate Holidays Notions Scenario.

Example formatDate_pads :
  formatDate JST (noon_JST 2024 2 5) = "2024-02-05"
  /\ formatDate JST None = "NaN-NaN-NaN".
Proof. split; vm_compute; reflexivity. Qed.

(** Midnight UTC is still the previous day west of Greenwich. *)
Example getDay_depends_on_zone :
  JsDate.getDay JST (Date_of_string (mkCalendarDate 2024 1 8)) = Some 1
  /\ JsDate.getDay (fun _ => -18000000) (Date_of_string (mkCalendarDate 2024 1 8))
     = Some 0.
Proof. split; vm_compute; reflexivity. Qed.

Example isHolidaySync_on_table :
  isHolidaySync JST cache_2024 (IsString (mkCalendarDate 2024 1 8)) = true
  /\ isHolidaySync JST cache_2024 (IsString (mkCalendarDate 2024 1 9)) = false
  /\ isHolidaySync JST cache_2024 (IsString (mkCalendarDate 2025 1 1)) = false
  /\ isHolidaySync JST cache_2024 (IsString (mkCalendarDate 2024 2 30)) = false.
Proof. repeat split; vm_compute; reflexivity. Qed.

Lemma isHolidaySync_uncached LocalTZA cache date year :
  getFullYear LocalTZA (date_of date) = Some year ->
  cache !! year = None ->
  isHolidaySync LocalTZA cache date = false.
Proof.
  intros Hy Hc. unfold isHolidaySync. fold (date_of date).
  rewrite Hy. cbn [mbind option_bind]. by rewrite Hc.
Qed.

Lemma isHolidaySync_invalid LocalTZA cache date :
  date_of date = None -> isHolidaySync LocalTZA cache date = false.
Proof.
  intros Hd. unfold isHolidaySync. fold (date_of date). by rewrite Hd.
Qed.

(** C5, as the code behaves.  A cached year is never requested again: the
    call returns the cached table and changes nothing.  For a year that is
    not cached, a successful request stores its table; a failed request
    (network failure, status not OK, body not JSON) returns an empty table,
    writes one [console.error] line and leaves the cache as it was, so the
    year stays uncached and [isHolidaySync] answers [false] for the dates
    of that year until a later load succeeds.  No call throws. *)
Theorem fetchHolidays_cached_or_failed year resp w :
  (forall holidays,
      holidayCache w !! year = Some holidays ->
      fetchHolidays year resp w = (Returned holidays, w))
  /\ (forall status holidays,
         holidayCache w !! year = None ->
         resp = Responded true status (Some holidays) ->
         fetchHolidays year resp w
         = (Returned holidays,
            mkWorld (<[year := holidays]> (holidayCache w))
                    (requested w ++ [year]) (console w)))
  /\ (holidayCache w !! year = None -> failed resp ->
      (exists line,
          fetchHolidays year resp w
          = (Returned ∅,
             mkWorld (holidayCache w) (requested w ++ [year])
                     (console w ++ [line])))
      /\ holidayCache (fetchHolidays year resp w).2 !! year = None
      /\ forall LocalTZA date,
          getFullYear LocalTZA (date_of date) = Some year ->
          isHolidaySync LocalTZA (holidayCache (fetchHolidays year resp w).2) date
          = false)
  /\ (exists holidays w', fetchHolidays year resp w = (Returned holidays, w')).
Proof.
  split; [|split; [|split]].
  - intros holidays Hc. unfold fetchHolidays. by rewrite Hc.
  - intros status holidays Hc ->. unfold fetchHolidays. by rewrite Hc.
  - intros Hc Hf.
    assert (exists line,
               fetchHolidays year resp w
               = (Returned ∅,
                  mkWorld (holidayCache w) (requested w ++ [year])
                          (console w ++ [line]))) as [line Hline].
    { unfold fetchHolidays. rewrite Hc.
      destruct resp as [|[] status [holidays|]]; cbn in Hf |- *;
        try (eexists; reflexivity).
      destruct Hf; discriminate. }
    split; [by exists line|]. rewrite Hline. cbn.
    split; [done|]. intros LocalTZA date Hy.
    by apply (isHolidaySync_uncached _ _ _ year).
  - unfold fetchHolidays.
    destruct (holidayCache w !! year) as [holidays|]; [by eexists _, _|].
    destruct resp as [|[] status [holidays|]]; cbn; by eexists _, _.
Qed.

Lemma fetchHolidays_cached_or_failed_witness :
  holidayCache fresh_world !! 2024 = None
  /\ failed (Responded false 503 None)
  /\ holidayCache (fetchHolidays 2024 (Responded false 503 None) fresh_world).2 !! 2024
     = None.
Proof.
  assert (holidayCache fresh_world !! 2024 = None) as Hc by reflexivity.
  assert (failed (Responded false 503 None)) as Hf by (simpl; left; reflexivity).
  split; [exact Hc|]. split; [exact Hf|].
  pose proof (fetchHolidays_cached_or_failed 2024 (Responded false 503 None)
                fresh_world) as (_ & _ & H & _).
  destruct (H Hc Hf) as (_ & Hnone & _). exact Hnone.
Defined.

(** C5, as the specification words it: after a failed load the cache holds
    no table for the year (not an empty one), the next load asks the
    network again, and once that one succeeds a date of the year is a
    holiday. *)
Lemma failed_load_is_not_cached :
  holidayCache after_failure !! 2024 <> Some ∅
  /\ requested after_retry = [2024; 2024]
  /\ isHolidaySync JST (holidayCache after_retry)
       (IsString (mkCalendarDate 2024 1 1)) = true.
Proof.
  split; [|split].
  - cbn. discriminate.
  - reflexivity.
  - vm_compute. reflexivity.
Qed.

End HolidayProperties.

(* ===================================================================== *)
(** * The pricing computation *)
(* ===================================================================== *)

Section PricingProperties.
Import Js Dashboard.

(** C6.  With a monthly target of 300000 over 30 days the daily target is
    10000; with a day-use revenue of 4000, 50 rooms and 48 booked stays,
    2 rooms remain and the minimum price is [Math.ceil(6000 / 2) = 3000]. *)
Theorem pricing_scenario :
  dailyTarget 300000 30 = 10000
  /\ remainingRooms 50 "48" = 2
  /\ minimumPrice 10000 4000 2 = Math_ceil_quot 6000 2
  /\ Math_ceil_quot 6000 2 = Some 3000
  /\ pricing 300000 30 50 "" "" "48" 4000 = mkPricing 10000 4000 2 (Some 3000)
  /\ pricing 300000 30 50 "2" "2000" "48" 0 = mkPricing 10000 4000 2 (Some 3000).
Proof. repeat split; vm_compute; reflexivity. Qed.

(** C7.  Whatever the number of rooms and whatever is typed as the number
    of booked stays, [remainingRooms] is at least 1; it is exactly 1 when
    the booked stays reach the number of rooms; and with this divisor the
    division of [minimumPrice] always yields a finite number. *)
Theorem remainingRooms_at_least_1 totalRooms stayCount :
  1 <= remainingRooms totalRooms stayCount
  /\ (totalRooms <= num_or_0 (parseInt stayCount) ->
      remainingRooms totalRooms stayCount = 1)
  /\ forall dailyTarget dayuseRevenue,
      is_Some (minimumPrice dailyTarget dayuseRevenue
                 (remainingRooms totalRooms stayCount)).
Proof.
  unfold remainingRooms. split; [lia|]. split; [lia|].
  intros dailyTarget dayuseRevenue. unfold minimumPrice, Math_ceil_quot.
  destruct (dailyTarget <=? 0); [by eexists|].
  destruct (dailyTarget - dayuseRevenue <=? 0); [by eexists|].
  destruct (Z.eqb_spec (Z.max 1 (totalRooms - num_or_0 (parseInt stayCount))) 0);
    [lia | by eexists].
Qed.

Lemma remainingRooms_at_least_1_witness :
  52 <= num_or_0 (parseInt "60") /\ remainingRooms 52 "60" = 1.
Proof.
  assert (52 <= num_or_0 (parseInt "60")) as H by (vm_compute; discriminate).
  split; [exact H|].
  apply (remainingRooms_at_least_1 52 "60"). exact H.
Defined.

End PricingProperties.

(* ===================================================================== *)
(** * Merging imported records into the stored history *)
(* ===================================================================== *)

Module StorageFacts.
Import Js Storage Notions JsFacts.

Section Dict.
Context {K V : Type} `{EqDecision K}.
Implicit Types (k : K) (v : V) (m : list (K * V)).

Lemma dict_set_keys k v m :
  (dict_set k v m).*1 = if decide (k ∈ m.*1) then m.*1 else m.*1 ++ [k].
Proof.
  destruct (decide (k ∈ m.*1)) as [Hin|Hin].
  - by apply dict_set_keys_old.
  - rewrite dict_set_keys_new by done. by rewrite fmap_app.
Qed.

Lemma dict_set_NoDup k v m : NoDup m.*1 -> NoDup (dict_set k v m).*1.
Proof.
  intros Hm. rewrite dict_set_keys. destruct (decide (k ∈ m.*1)); [done|].
  apply NoDup_app. split; [done|]. split; [|apply NoDup_singleton].
  intros x Hx ->%list_elem_of_singleton. done.
Qed.

Lemma dict_set_length_old k v m : k ∈ m.*1 -> length (dict_set k v m) = length m.
Proof.
  intros Hin. rewrite <-(length_fmap fst (dict_set k v m)), dict_set_keys_old by done.
  apply length_fmap.
Qed.
End Dict.

Lemma spread2_id old item : has_id item -> id_of (spread2 old item) = id_of item.
Proof.
  unfold has_id, id_of, spread2. intros Hid.
  destruct (item !! "id") as [v|] eqn:Hv; [|discriminate].
  by apply lookup_union_Some_l.
Qed.

(** *** One step of each loop *)

Lemma index_step_indexed m item : indexed m -> indexed (index_step m item).
Proof.
  intros [Hok Hnd]. unfold index_step.
  destruct (truthy (id_of item)) eqn:Hid; [|done].
  split; [|by apply dict_set_NoDup].
  apply dict_set_Forall; [|done]. by split.
Qed.

Lemma index_step_keys m item k :
  k ∈ (index_step m item).*1
  <-> k ∈ m.*1 \/ (truthy k = true /\ k = id_of item).
Proof.
  unfold index_step. destruct (truthy (id_of item)) eqn:Hid.
  - rewrite dict_set_keys. destruct (decide (id_of item ∈ m.*1)) as [Hin|Hin].
    + split; [tauto|]. intros [?|[_ ->]]; done.
    + rewrite elem_of_app, list_elem_of_singleton.
      split; [intros [?| ->]; tauto | tauto].
  - split; [tauto|]. intros [?|[Ht ->]]; [done|congruence].
Qed.

(** One turn of the second loop, by cases on the stored record. *)
Lemma merge_step_eq m a u item :
  merge_step (m, a, u) item
  = if negb (truthy (id_of item)) then (m, a, u)
    else match dict_get (id_of item) m with
         | Some old => (dict_set (id_of item) (spread2 old item) m, a, u + 1)
         | None => (dict_set (id_of item) item m, a + 1, u)
         end.
Proof.
  unfold merge_step. destruct (negb (truthy (id_of item))); [done|].
  destruct (dict_get (id_of item) m) as [old|] eqn:Hg.
  - by rewrite (dict_has_get _ _ _ Hg).
  - by rewrite (dict_has_None _ _ Hg).
Qed.

Lemma merge_step_spec m a u item :
  indexed m ->
  let '(m', a', u') := merge_step (m, a, u) item in
  indexed m'
  /\ Z.of_nat (length m') = Z.of_nat (length m) + (a' - a)
  /\ (a' - a) + (u' - u) = (if truthy (id_of item) then 1 else 0)
  /\ (forall k, k ∈ m'.*1 <-> k ∈ m.*1 \/ (truthy k = true /\ k = id_of item)).
Proof.
  intros [Hok Hnd]. rewrite merge_step_eq.
  destruct (truthy (id_of item)) eqn:Hid; cbn [negb].
  - destruct (dict_get (id_of item) m) as [old|] eqn:Hg.
    + assert (id_of item ∈ m.*1) as Hin by (apply dict_get_is_Some; eauto).
      split; [|split; [|split]].
      * split; [|by apply dict_set_NoDup].
        apply dict_set_Forall; [|done]. split; [|done]. by apply spread2_id.
      * rewrite dict_set_length_old by done. lia.
      * lia.
      * intros k. rewrite dict_set_keys_old by done.
        split; [tauto|]. intros [?|[_ ->]]; done.
    + assert (id_of item ∉ m.*1) as Hin by (by apply dict_get_None).
      split; [|split; [|split]].
      * split; [|by apply dict_set_NoDup]. apply dict_set_Forall; [|done]. by split.
      * rewrite dict_set_keys_new by done. rewrite length_app. simpl. lia.
      * lia.
      * intros k. rewrite dict_set_keys_new by done.
        rewrite fmap_app, elem_of_app. cbn. rewrite list_elem_of_singleton.
        split; [intros [?| ->]; tauto | tauto].
  - split; [done|]. split; [lia|]. split; [lia|].
    intros k. split; [tauto|]. intros [?|[Ht ->]]; [done|congruence].
Qed.

(** *** The two loops *)

Lemma index_fold existing : forall m,
  indexed m ->
  indexed (fold_left index_step existing m)
  /\ forall k, k ∈ (fold_left index_step existing m).*1
               <-> k ∈ m.*1 \/ (truthy k = true /\ k ∈ id_of <$> existing).
Proof.
  induction existing as [|item l IH]; intros m Hm; cbn [fold_left].
  - split; [done|]. intros k. rewrite fmap_nil, elem_of_nil. tauto.
  - destruct (IH (index_step m item)) as [Hi Hk]; [by apply index_step_indexed|].
    split; [done|]. intros k. rewrite Hk, index_step_keys, fmap_cons, elem_of_cons.
    tauto.
Qed.

Lemma merge_fold newData : forall m a u,
  indexed m ->
  let '(m', a', u') := fold_left merge_step newData (m, a, u) in
  indexed m'
  /\ Z.of_nat (length m') = Z.of_nat (length m) + (a' - a)
  /\ (a' - a) + (u' - u) = Z.of_nat (length (filter has_id newData))
  /\ (forall k, k ∈ m'.*1
                <-> k ∈ m.*1 \/ (truthy k = true /\ k ∈ id_of <$> newData)).
Proof.
  induction newData as [|item l IH]; intros m a u Hm; cbn [fold_left].
  - split; [done|]. split; [lia|]. split; [rewrite filter_nil; simpl; lia|].
    intros k. rewrite fmap_nil, elem_of_nil. tauto.
  - pose proof (merge_step_spec m a u item Hm) as Hstep.
    destruct (merge_step (m, a, u) item) as [[m1 a1] u1].
    destruct Hstep as (Hi1 & Hl1 & Hc1 & Hk1).
    pose proof (IH m1 a1 u1 Hi1) as Hrest.
    destruct (fold_left merge_step l (m1, a1, u1)) as [[m2 a2] u2].
    destruct Hrest as (Hi2 & Hl2 & Hc2 & Hk2).
    split; [done|]. split; [lia|]. split.
    + rewrite filter_cons. unfold has_id at 1.
      destruct (decide (truthy (id_of item) = true)) as [Ht|Ht].
      * rewrite Ht in Hc1. simpl. lia.
      * apply not_true_is_false in Ht. rewrite Ht in Hc1. lia.
    + intros k. rewrite Hk2, Hk1, fmap_cons, elem_of_cons. tauto.
Qed.

(** Records without a truthy id do not take part in either loop. *)
Lemma index_fold_filter existing : forall m,
  fold_left index_step existing m
  = fold_left index_step (filter has_id existing) m.
Proof.
  induction existing as [|item l IH]; intros m; [done|].
  rewrite filter_cons. simpl. unfold has_id at 1.
  destruct (decide (truthy (id_of item) = true)) as [Ht|Ht]; simpl.
  - apply IH.
  - apply not_true_is_false in Ht. unfold index_step at 2. rewrite Ht. apply IH.
Qed.

Lemma merge_fold_filter newData : forall st,
  fold_left merge_step newData st
  = fold_left merge_step (filter has_id newData) st.
Proof.
  induction newData as [|item l IH]; intros st; [done|].
  rewrite filter_cons. simpl. unfold has_id at 1.
  destruct (decide (truthy (id_of item) = true)) as [Ht|Ht]; simpl.
  - apply IH.
  - apply not_true_is_false in Ht. destruct st as [[m a] u].
    unfold merge_step at 2. rewrite Ht. cbn [negb]. apply IH.
Qed.

Lemma indexed_nil : indexed [].
Proof. split; constructor. Qed.

Lemma indexed_values m :
  indexed m -> Forall has_id (dict_values m) /\ id_of <$> dict_values m = m.*1.
Proof.
  intros [Hok _]. unfold dict_values. induction Hok as [|[k r] m [Hk Ht] _ IH].
  - by split.
  - cbn in Hk, Ht. destruct IH as [IH1 IH2]. split.
    + constructor; [|done]. unfold has_id. cbn. by rewrite Hk.
    + rewrite !fmap_cons. cbn. by rewrite Hk, IH2.
Qed.

End StorageFacts.

Section StorageProperties.
Import Js Storage Notions JsFacts StorageFacts Scenario.

(** Closing a decidable closed goal by evaluation. *)
Ltac by_decide := apply (bool_decide_unpack _); vm_compute; exact I.

Lemma entries_values l : (entry <$> l).*2 = l.
Proof. induction l as [|r l IH]; [done|]. rewrite !fmap_cons. cbn. by rewrite IH. Qed.

Lemma entries_keys l : (entry <$> l).*1 = id_of <$> l.
Proof. induction l as [|r l IH]; [done|]. rewrite !fmap_cons. cbn. by rewrite IH. Qed.

Lemma index_wellFormed data : forall m,
  wellFormed data ->
  (forall r, r ∈ data -> id_of r ∉ m.*1) ->
  fold_left index_step data m = m ++ (entry <$> data).
Proof.
  induction data as [|item l IH]; intros m [Hid Hnd] Hfresh; cbn [fold_left].
  - by rewrite fmap_nil, app_nil_r.
  - rewrite fmap_cons in Hnd. apply NoDup_cons in Hnd as [Hitem Hnd].
    apply Forall_cons in Hid as [Hi Hid].
    assert (index_step m item = m ++ [entry item]) as ->.
    { unfold index_step. unfold has_id in Hi. rewrite Hi.
      apply dict_set_keys_new, Hfresh, list_elem_of_here. }
    rewrite IH; [by rewrite <-app_assoc | by split |].
    intros r Hr. rewrite fmap_app, not_elem_of_app. split.
    + by apply Hfresh, list_elem_of_further.
    + cbn. rewrite list_elem_of_singleton. intros Heq. apply Hitem.
      rewrite <-Heq. by apply list_elem_of_fmap_2.
Qed.

Lemma entries_get l k old :
  NoDup (id_of <$> l) -> old ∈ l -> id_of old = k ->
  dict_get k (entry <$> l) = Some old.
Proof.
  induction l as [|r l IH]; intros Hnd Hin Hk; [by apply elem_of_nil in Hin|].
  rewrite fmap_cons in Hnd. apply NoDup_cons in Hnd as [Hr Hnd].
  rewrite fmap_cons. cbn [entry dict_get]. apply elem_of_cons in Hin as [->|Hin].
  - by rewrite decide_True.
  - rewrite decide_False; [by apply IH|].
    intros Heq. apply Hr. rewrite <-Heq, <-Hk. by apply list_elem_of_fmap_2.
Qed.

Lemma entries_set l k (f : gmap string Value -> gmap string Value) old :
  NoDup (id_of <$> l) -> old ∈ l -> id_of old = k ->
  (dict_set k (f old) (entry <$> l)).*2
  = (fun r => if decide (id_of r = k) then f r else r) <$> l.
Proof.
  induction l as [|r l IH]; intros Hnd Hin Hk; [by apply elem_of_nil in Hin|].
  rewrite fmap_cons in Hnd. apply NoDup_cons in Hnd as [Hr Hnd].
  rewrite !fmap_cons. cbn [entry dict_set].
  destruct (decide (k = id_of r)) as [Heq|Hne].
  - assert (old = r) as ->.
    { apply elem_of_cons in Hin as [?|Hin]; [done|].
      exfalso. apply Hr. rewrite <-Heq, <-Hk. by apply list_elem_of_fmap_2. }
    rewrite fmap_cons. cbn [snd]. rewrite decide_True by done. f_equal.
    rewrite entries_values. symmetry. rewrite <-(list_fmap_id l) at 2.
    apply Forall_fmap_ext, Forall_forall. intros r' Hr'.
    rewrite decide_False; [done|].
    intros Heq'. apply Hr. rewrite <-Heq, <-Heq'. by apply list_elem_of_fmap_2.
  - rewrite fmap_cons. cbn [snd]. rewrite decide_False by done. f_equal.
    apply elem_of_cons in Hin as [->|Hin]; [by rewrite Hk in Hne|].
    by apply IH.
Qed.

Lemma mergeDayuseData_unfold hotelId newData allData m a u :
  fold_left merge_step newData
    (fold_left index_step (getDayuseData hotelId allData) [], 0, 0) = (m, a, u) ->
  mergeDayuseData hotelId newData allData
  = (mkMergeResult a u (Z.of_nat (length (dict_values m))),
     saveDayuseData hotelId (dict_values m) allData).
Proof. intros E. unfold mergeDayuseData. by rewrite E. Qed.

Lemma getDayuseData_save hotelId data allData :
  getDayuseData hotelId (saveDayuseData hotelId data allData) = data.
Proof. unfold getDayuseData, saveDayuseData. by rewrite lookup_insert_eq. Qed.

(** C10.  After any merge every stored record has a truthy id and no id is
    stored twice; the returned [total] is the length of the stored array,
    which is the number of distinct truthy ids among the old and the new
    records; each incoming record with a truthy id is counted once, as
    added or updated, the others not at all; and the outcome is the one
    obtained after dropping, from the store and from the input, every
    record without a truthy id. *)
Theorem merge_keeps_only_records_with_id hotelId newData allData :
  let existing := getDayuseData hotelId allData in
  let res := (mergeDayuseData hotelId newData allData).1 in
  let stored :=
    getDayuseData hotelId (mergeDayuseData hotelId newData allData).2 in
  Forall has_id stored
  /\ NoDup (id_of <$> stored)
  /\ total res = Z.of_nat (length stored)
  /\ total res = Z.of_nat (length (distinct_ids (existing ++ newData)))
  /\ added res + updated res = Z.of_nat (length (filter has_id newData))
  /\ mergeDayuseData hotelId newData allData
     = mergeDayuseData hotelId (filter has_id newData)
         (saveDayuseData hotelId (filter has_id existing) allData).
Proof.
  intros existing res stored.
  destruct (index_fold existing [] indexed_nil) as [Hi0 Hk0].
  pose proof (merge_fold newData (fold_left index_step existing []) 0 0 Hi0) as Hm.
  destruct (fold_left merge_step newData (fold_left index_step existing [], 0, 0))
    as [[m a] u] eqn:E.
  destruct Hm as (Hi & Hlen & Hcount & Hk).
  pose proof (mergeDayuseData_unfold hotelId newData allData m a u E) as Hmerge.
  destruct (indexed_values m Hi) as [Hids Hkeys].
  assert (stored = dict_values m) as Hstored.
  { subst stored. rewrite Hmerge. cbn [snd]. apply getDayuseData_save. }
  assert (res = mkMergeResult a u (Z.of_nat (length (dict_values m)))) as Hres.
  { subst res. by rewrite Hmerge. }
  rewrite Hstored, Hres. cbn [total added updated].
  split; [done|]. split; [rewrite Hkeys; apply Hi|]. split; [done|].
  split; [|split].
  - f_equal. rewrite <-(length_fmap id_of), Hkeys.
    apply Permutation_length, NoDup_Permutation.
    + apply Hi.
    + apply NoDup_remove_dups.
    + intros k. unfold distinct_ids.
      rewrite Hk, Hk0, elem_of_remove_dups, list_elem_of_filter, fmap_app, elem_of_app.
      rewrite elem_of_nil. tauto.
  - lia.
  - rewrite Hmerge.
    rewrite (mergeDayuseData_unfold hotelId (filter has_id newData)
               (saveDayuseData hotelId (filter has_id existing) allData) m a u).
    + unfold saveDayuseData. by rewrite insert_insert_eq.
    + rewrite getDayuseData_save.
      by rewrite <-index_fold_filter, <-merge_fold_filter.
Qed.

Lemma merge_keeps_only_records_with_id_witness :
  total (mergeDayuseData "hotel_a" [record "" "2024-01-22" 1; record "c" "2024-01-22" 2]
           store_with_blank_id).1
  = Z.of_nat (length (getDayuseData "hotel_a"
                        (mergeDayuseData "hotel_a"
                           [record "" "2024-01-22" 1; record "c" "2024-01-22" 2]
                           store_with_blank_id).2)).
Proof.
  apply (merge_keeps_only_records_with_id "hotel_a"
           [record "" "2024-01-22" 1; record "c" "2024-01-22" 2]
           store_with_blank_id).
Defined.

(** With a store of records that have truthy, pairwise distinct ids, the
    total after a merge is the old length plus the number added. *)
Lemma merge_total hotelId newData allData :
  wellFormed (getDayuseData hotelId allData) ->
  total (mergeDayuseData hotelId newData allData).1
  = Z.of_nat (length (getDayuseData hotelId allData))
    + added (mergeDayuseData hotelId newData allData).1.
Proof.
  intros Hwf. set (existing := getDayuseData hotelId allData) in *.
  pose proof (index_wellFormed existing [] Hwf) as Hidx.
  rewrite app_nil_l in Hidx.
  specialize (Hidx (fun r _ => not_elem_of_nil (id_of r))).
  assert (indexed (entry <$> existing)) as Hi0.
  { rewrite <-Hidx. apply index_fold, indexed_nil. }
  pose proof (merge_fold newData (entry <$> existing) 0 0 Hi0) as Hm.
  destruct (fold_left merge_step newData (entry <$> existing, 0, 0))
    as [[m a] u] eqn:E.
  destruct Hm as (_ & Hlen & _).
  rewrite (mergeDayuseData_unfold hotelId newData allData m a u).
  - cbn [fst total added]. unfold dict_values.
    rewrite length_fmap, Hlen, length_fmap. lia.
  - fold existing. by rewrite Hidx.
Qed.

(** C8, as the code behaves.  Let every stored record have a truthy id, no
    id twice.  Merging one record with a truthy id that is already stored
    replaces the stored record [r] of that id by [{ ...r, ...item }], in
    place, and leaves the others and the record count as they were
    ([updated = 1], [added = 0]).  Merging one record whose id is new
    appends it: the count grows by exactly one ([added = 1],
    [updated = 0]).  For any incoming array the total is the old count plus
    the number added. *)
Theorem merge_one_record hotelId item allData :
  wellFormed (getDayuseData hotelId allData) ->
  has_id item ->
  let existing := getDayuseData hotelId allData in
  let res := (mergeDayuseData hotelId [item] allData).1 in
  let allData' := (mergeDayuseData hotelId [item] allData).2 in
  (id_of item ∈ id_of <$> existing ->
     getDayuseDataCount hotelId allData' = getDayuseDataCount hotelId allData
     /\ total res = getDayuseDataCount hotelId allData
     /\ updated res = 1 /\ added res = 0
     /\ getDayuseData hotelId allData'
        = (fun r => if decide (id_of r = id_of item) then spread2 r item else r)
            <$> existing)
  /\ (id_of item ∉ id_of <$> existing ->
     getDayuseDataCount hotelId allData' = getDayuseDataCount hotelId allData + 1
     /\ total res = getDayuseDataCount hotelId allData + 1
     /\ added res = 1 /\ updated res = 0
     /\ getDayuseData hotelId allData' = existing ++ [item])
  /\ (forall newData,
       total (mergeDayuseData hotelId newData allData).1
       = getDayuseDataCount hotelId allData
         + added (mergeDayuseData hotelId newData allData).1).
Proof.
  intros Hwf Hid existing res allData'.
  assert (forall newData,
             total (mergeDayuseData hotelId newData allData).1
             = getDayuseDataCount hotelId allData
               + added (mergeDayuseData hotelId newData allData).1) as Hgen.
  { intros newData. by apply merge_total. }
  cut ((id_of item ∈ id_of <$> existing ->
        getDayuseDataCount hotelId allData' = getDayuseDataCount hotelId allData
        /\ total res = getDayuseDataCount hotelId allData
        /\ updated res = 1 /\ added res = 0
        /\ getDayuseData hotelId allData'
           = (fun r => if decide (id_of r = id_of item) then spread2 r item else r)
               <$> existing)
       /\ (id_of item ∉ id_of <$> existing ->
           getDayuseDataCount hotelId allData' = getDayuseDataCount hotelId allData + 1
           /\ total res = getDayuseDataCount hotelId allData + 1
           /\ added res = 1 /\ updated res = 0
           /\ getDayuseData hotelId allData' = existing ++ [item])).
  { intros [H1 H2]. split; [exact H1|]. split; [exact H2|exact Hgen]. }
  clear Hgen.
  pose proof (index_wellFormed existing [] Hwf) as Hidx.
  rewrite app_nil_l in Hidx.
  specialize (Hidx (fun r _ => not_elem_of_nil (id_of r))).
  unfold has_id in Hid. destruct Hwf as [_ Hnd]. fold existing in Hnd.
  split.
  - intros Hin. apply list_elem_of_fmap in Hin as (old & Hold & Hin).
    assert (mergeDayuseData hotelId [item] allData
            = (mkMergeResult 0 1 (Z.of_nat (length existing)),
               saveDayuseData hotelId
                 ((fun r => if decide (id_of r = id_of item)
                            then spread2 r item else r) <$> existing) allData))
      as Hmerge.
    { rewrite (mergeDayuseData_unfold hotelId [item] allData
                 (dict_set (id_of item) (spread2 old item) (entry <$> existing)) 0 1).
      - unfold dict_values.
        rewrite (entries_set existing (id_of item) (fun r => spread2 r item) old)
          by done.
        by rewrite length_fmap.
      - fold existing. rewrite Hidx. cbn [fold_left]. rewrite merge_step_eq.
        rewrite Hid. cbn [negb].
        by rewrite (entries_get existing (id_of item) old). }
    subst res allData'. rewrite Hmerge. cbn [fst snd total added updated].
    unfold getDayuseDataCount. rewrite getDayuseData_save, length_fmap.
    done.
  - intros Hnew.
    assert (mergeDayuseData hotelId [item] allData
            = (mkMergeResult 1 0 (Z.of_nat (length (existing ++ [item]))),
               saveDayuseData hotelId (existing ++ [item]) allData)) as Hmerge.
    { rewrite (mergeDayuseData_unfold hotelId [item] allData
                 (entry <$> (existing ++ [item])) 1 0).
      - unfold dict_values. by rewrite entries_values.
      - fold existing. rewrite Hidx. cbn [fold_left]. rewrite merge_step_eq.
        rewrite Hid. cbn [negb].
        assert (id_of item ∉ (entry <$> existing).*1) as Hk
          by (by rewrite entries_keys).
        rewrite (proj2 (dict_get_None _ _) Hk), dict_set_keys_new by done.
        by rewrite fmap_app. }
    subst res allData'. rewrite Hmerge. cbn [fst snd total added updated].
    unfold getDayuseDataCount. rewrite getDayuseData_save, length_app.
    fold existing. cbn [length]. repeat split; lia.
Qed.

Lemma store_ab_wellFormed : wellFormed (getDayuseData "hotel_a" store_ab).
Proof.
  split.
  - repeat constructor.
  - by_decide.
Defined.

Lemma merge_one_record_witness :
  getDayuseData "hotel_a"
    (mergeDayuseData "hotel_a" [record "a" "2024-01-08" 5500] store_ab).2
  = [ record "a" "2024-01-08" 5500; record "b" "2024-01-15" 7000 ]
  /\ getDayuseDataCount "hotel_a"
       (mergeDayuseData "hotel_a" [record "c" "2024-01-22" 6000] store_ab).2
     = getDayuseDataCount "hotel_a" store_ab + 1.
Proof.
  split.
  - destruct (merge_one_record "hotel_a" (record "a" "2024-01-08" 5500) store_ab
                store_ab_wellFormed eq_refl) as (Hupd & _).
    destruct Hupd as (_ & _ & _ & _ & ->).
    + by_decide.
    + vm_compute. reflexivity.
  - destruct (merge_one_record "hotel_a" (record "c" "2024-01-22" 6000) store_ab
                store_ab_wellFormed eq_refl) as (_ & Hnew & _).
    apply Hnew. by_decide.
Defined.

(** C8, as the specification words it: in a store holding a record with an
    empty id, merging a record whose id is already stored changes the
    record count, from 2 to 1. *)
Lemma merge_existing_id_changes_count :
  VStr "a" ∈ (default VNull <$> (id_of <$> getDayuseData "hotel_a" store_with_blank_id))
  /\ getDayuseDataCount "hotel_a" store_with_blank_id = 2
  /\ total (mergeDayuseData "hotel_a" [record "a" "2024-01-15" 7500]
              store_with_blank_id).1 = 1
  /\ getDayuseDataCount "hotel_a"
       (mergeDayuseData "hotel_a" [record "a" "2024-01-15" 7500]
          store_with_blank_id).2
     <> getDayuseDataCount "hotel_a" store_with_blank_id.
Proof.
  split; [|split; [|split]].
  - by_decide.
  - reflexivity.
  - vm_compute. reflexivity.
  - vm_compute. discriminate.
Qed.

End StorageProperties.

(* ===================================================================== *)
(** * Grouping by date and the paths of the prediction *)
(* ===================================================================== *)

Section PredictionGrouping.
Import Js JsDate Holidays Prediction Notions MoreNotions JsFacts PredictionFacts StorageFacts.

Lemma groupByDate_step_get acc item k :
  dict_get k (groupByDate_step acc item)
  = if decide (k = date item)
    then Some (mkDaily (day_count (default (mkDaily 0 0) (dict_get k acc)) + 1)
                 (day_revenue (default (mkDaily 0 0) (dict_get k acc))
                  + num_or_0 (price item)))
    else dict_get k acc.
Proof.
  rewrite groupByDate_step_eq. cbv zeta.
  destruct (decide (k = date item)) as [->|Hne].
  - apply dict_get_set_eq.
  - by apply dict_get_set_ne.
Qed.

Lemma on_date_cons k item h :
  on_date k (item :: h)
  = if decide (date item = k) then item :: on_date k h else on_date k h.
Proof. unfold on_date. by rewrite filter_cons. Qed.

Lemma price_sum_cons r rs : price_sum (r :: rs) = num_or_0 (price r) + price_sum rs.
Proof. reflexivity. Qed.

Lemma fold_get h : forall acc k,
  dict_get k (fold_left groupByDate_step h acc)
  = match on_date k h with
    | [] => dict_get k acc
    | rs =>
        let cur := default (mkDaily 0 0) (dict_get k acc) in
        Some (mkDaily (day_count cur + Z.of_nat (length rs))
                (day_revenue cur + price_sum rs))
    end.
Proof.
  induction h as [|item h IH]; intros acc k; [done|].
  cbn [fold_left]. rewrite IH, on_date_cons, groupByDate_step_get.
  destruct (decide (date item = k)) as [<-|Hne].
  - rewrite decide_True by done. set (cur := default _ (dict_get (date item) acc)).
    cbn [from_option Datatypes.id].
    destruct (on_date (date item) h) as [|r rs]; cbv zeta;
      rewrite ?price_sum_cons, ?length_cons, ?Nat2Z.inj_succ;
      cbn [day_count day_revenue length price_sum foldr]; f_equal; f_equal; lia.
  - rewrite decide_False by done. done.
Qed.

Lemma fold_keys_NoDup h : forall acc,
  NoDup acc.*1 -> NoDup (fold_left groupByDate_step h acc).*1.
Proof.
  induction h as [|item h IH]; intros acc Hacc; [done|].
  cbn [fold_left]. apply IH. rewrite groupByDate_step_eq. by apply dict_set_NoDup.
Qed.

Lemma groupByDate_get h k :
  dict_get k (groupByDate h)
  = match on_date k h with
    | [] => None
    | rs => Some (mkDaily (Z.of_nat (length rs)) (price_sum rs))
    end.
Proof. unfold groupByDate. rewrite fold_get. by destruct (on_date k h). Qed.

(** X1.  [groupByDate] has one entry per date of the history, and the entry
    of a date holds the number of records of that date and the sum of their
    prices ([price || 0]); a date without a record has no entry. *)
Theorem groupByDate_totals h :
  NoDup (groupByDate h).*1
  /\ forall k,
      dict_get k (groupByDate h)
      = match on_date k h with
        | [] => None
        | rs => Some (mkDaily (Z.of_nat (length rs)) (price_sum rs))
        end.
Proof.
  split.
  - apply fold_keys_NoDup. constructor.
  - intros k. unfold groupByDate. rewrite fold_get. by destruct (on_date k h).
Qed.

Lemma day_sum_cons f k v m : day_sum f ((k, v) :: m) = f v + day_sum f m.
Proof. reflexivity. Qed.

Lemma day_sum_set f k v m :
  day_sum f (dict_set k v m)
  = day_sum f m + f v - from_option f 0 (dict_get k m).
Proof.
  induction m as [|[k' v'] m IH]; cbn [dict_set dict_get].
  - rewrite day_sum_cons. cbn. lia.
  - destruct (decide (k = k')) as [->|Hne]; rewrite !day_sum_cons.
    + cbn [from_option]. lia.
    + rewrite IH. lia.
Qed.

Lemma day_sum_fold f (m : list (CalendarDate * DailyTotal)) :
  fold_left (fun sum d => sum + f d) m.*2 0 = day_sum f m.
Proof.
  induction m as [|[k v] m IH]; [done|].
  rewrite fmap_cons, day_sum_cons. cbn [fold_left snd]. rewrite sum_shift, IH.
  clear IH. lia.
Qed.

Lemma fold_sums h : forall acc,
  day_sum day_count (fold_left groupByDate_step h acc)
  = day_sum day_count acc + Z.of_nat (length h)
  /\ day_sum day_revenue (fold_left groupByDate_step h acc)
     = day_sum day_revenue acc + price_sum h.
Proof.
  induction h as [|item h IH]; intros acc.
  - cbn [fold_left length]. unfold price_sum. cbn [foldr]. lia.
  - cbn [fold_left]. destruct (IH (groupByDate_step acc item)) as [-> ->].
    rewrite groupByDate_step_eq. cbv zeta. rewrite !day_sum_set.
    rewrite price_sum_cons, length_cons, Nat2Z.inj_succ.
    destruct (dict_get (date item) acc) as [cur|];
      cbn [from_option Datatypes.id day_count day_revenue]; lia.
Qed.

(** X2.  Grouping loses nothing: the counts of the days add up to the number
    of records, and the revenues of the days to the sum of all prices. *)
Theorem groupByDate_conserves h :
  fold_left (fun sum d => sum + day_count d) (groupByDate h).*2 0 = Z.of_nat (length h)
  /\ fold_left (fun sum d => sum + day_revenue d) (groupByDate h).*2 0 = price_sum h.
Proof.
  rewrite !day_sum_fold. unfold groupByDate.
  destruct (fold_sums h []) as [-> ->]. unfold day_sum. cbn [foldr]. lia.
Qed.

Lemma groupByDate_key_has_record h k :
  k ∈ (groupByDate h).*1 -> exists r, r ∈ h /\ date r = k.
Proof.
  intros Hk. apply dict_get_is_Some in Hk as [d Hd].
  rewrite groupByDate_get in Hd.
  destruct (on_date k h) as [|r rs] eqn:Hrs; [done|].
  assert (r ∈ on_date k h) as Hr by (rewrite Hrs; apply list_elem_of_here).
  apply list_elem_of_filter in Hr as [Hrk Hrh]. by exists r.
Qed.
End PredictionGrouping.

Section PredictionPaths.
Import Js JsDate Holidays Prediction Notions MoreNotions CalendarNotions.
Import JsFacts PredictionFacts.

Variable LocalTZA : Z -> Z.
Variable cache : gmap Z (gmap string string).

Ltac rewrite_beta H :=
  let E := fresh "E" in
  pose proof H as E; cbv beta in E; rewrite E; clear E.

Lemma same_day_filter dow h :
  filter (fun e : CalendarDate * DailyTotal =>
            num_eq (getDay LocalTZA (Date_of_string e.1)) (Some dow) = true)
         (groupByDate h)
  = groupByDate (on_weekday LocalTZA dow h).
Proof.
  rewrite_beta (filter_groupByDate
                  (fun k => num_eq (getDay LocalTZA (Date_of_string k)) (Some dow) = true)).
  unfold on_weekday. f_equal. apply list_filter_iff. intros r. apply num_eq_Some.
Qed.

Lemma holiday_filter h :
  filter (fun e : CalendarDate * DailyTotal =>
            isHolidaySync LocalTZA cache (IsString e.1) = true)
         (groupByDate h)
  = groupByDate (on_holiday LocalTZA cache h).
Proof.
  by rewrite_beta (filter_groupByDate
                     (fun k => isHolidaySync LocalTZA cache (IsString k) = true)).
Qed.

Lemma groupByDate_nil_iff h : groupByDate h = [] <-> h = [].
Proof.
  split; [|by intros ->].
  destruct h as [|r h]; [done|]. intros Hnil.
  by apply (groupByDate_not_nil (r :: h)) in Hnil.
Qed.

(** The three outcomes of [predictFromDayOfWeek]. *)
Lemma predictFromDayOfWeek_cases h dow override :
  predictFromDayOfWeek LocalTZA h (Some dow) override
  = if decide (on_weekday LocalTZA dow h = [])
    then calculateAverage (groupByDate h).*2 "全体平均（曜日データなし）"
    else calculateAverage (groupByDate (on_weekday LocalTZA dow h)).*2
           (match override with
            | Some s => if String.eqb s "" then weekdayBasis (Some dow) else s
            | None => weekdayBasis (Some dow)
            end).
Proof.
  unfold predictFromDayOfWeek. rewrite same_day_filter.
  destruct (decide (on_weekday LocalTZA dow h = [])) as [Hnil|Hne].
  - rewrite Hnil. cbn [groupByDate fold_left length]. by rewrite decide_True.
  - rewrite decide_False; [done|].
    rewrite length_0_nil, groupByDate_nil_iff. done.
Qed.

(** X3.  In a time zone at or east of Greenwich, when the target date is
    not a holiday and the history has a record dated on the target's
    weekday, the prediction is the average over the days of the records
    dated on that weekday alone, with the weekday's basis text. *)
Theorem weekday_prediction h targetDate dow :
  (forall t, 0 <= LocalTZA t < msPerDay) ->
  isHolidaySync LocalTZA cache (IsDate targetDate) = false ->
  getDay LocalTZA targetDate = Some dow ->
  dated_on_weekday dow h <> [] ->
  predictDayuseRevenue LocalTZA cache h targetDate
  = calculateAverage (groupByDate (dated_on_weekday dow h)).*2
      (weekdayBasis (Some dow)).
Proof.
  intros Htz Hhol Hdow Hne.
  rewrite <-(on_weekday_east LocalTZA dow h Htz) in *.
  unfold predictDayuseRevenue.
  destruct (decide (length h = 0%nat)) as [H0|_].
  { apply length_0_nil in H0. subst h. done. }
  rewrite Hhol, Hdow, predictFromDayOfWeek_cases. by rewrite decide_False.
Qed.

(** X4.  In a time zone at or east of Greenwich, for a non-empty history:
    when the target is not a holiday and no record is dated on its weekday,
    or when the target is a holiday and the history, all of calendar dates
    (years 1000 to 9999), has no record dated on a listed holiday and none
    dated on a Saturday, the prediction is the average over all days, with
    the basis '全体平均（曜日データなし）'; its count is the number of
    records divided by the number of distinct dates, rounded. *)
Theorem no_weekday_data_uses_overall_average h targetDate :
  (forall t, 0 <= LocalTZA t < msPerDay) ->
  h <> [] ->
  (isHolidaySync LocalTZA cache (IsDate targetDate) = false
   /\ (forall r, r ∈ h -> weekday_of (date r) <> getDay LocalTZA targetDate))
  \/ (isHolidaySync LocalTZA cache (IsDate targetDate) = true
      /\ Forall (fun r => realCalendarDate (date r) = true) h
      /\ dated_on_holiday cache h = []
      /\ dated_on_weekday 6 h = []) ->
  predictDayuseRevenue LocalTZA cache h targetDate
  = calculateAverage (groupByDate h).*2 "全体平均（曜日データなし）"
  /\ count (predictDayuseRevenue LocalTZA cache h targetDate)
     = Math_round_div (Z.of_nat (length h)) (Z.of_nat (length (groupByDate h))).
Proof.
  intros Htz Hh Hcases.
  assert (predictDayuseRevenue LocalTZA cache h targetDate
          = calculateAverage (groupByDate h).*2 "全体平均（曜日データなし）") as Hp.
  { unfold predictDayuseRevenue.
    destruct (decide (length h = 0%nat)) as [H0|_]; [by apply length_0_nil in H0|].
    destruct Hcases as [[Hhol Hnone]|(Hhol & Hreal & Hnoh & Hnos)]; rewrite Hhol.
    - unfold predictFromDayOfWeek.
      rewrite filter_none; [by rewrite decide_True|].
      intros [k d] Hin Heq. cbn [fst] in Heq.
      destruct (getDay LocalTZA targetDate) as [dow|] eqn:Hdow;
        [|by destruct (getDay LocalTZA (Date_of_string k))].
      apply num_eq_Some in Heq.
      assert (k ∈ (groupByDate h).*1) as Hk
        by (apply list_elem_of_fmap; by exists (k, d)).
      destruct (groupByDate_key_has_record h k Hk) as (r & Hrh & Hrk).
      apply (Hnone r Hrh). by rewrite Hrk, <-(getDay_east LocalTZA k Htz).
    - rewrite <-(on_holiday_east LocalTZA cache h Htz Hreal) in Hnoh.
      rewrite <-(on_weekday_east LocalTZA 6 h Htz) in Hnos.
      unfold predictFromHolidayData. rewrite holiday_filter, Hnoh.
      cbn [groupByDate fold_left length]. rewrite decide_True by done.
      rewrite predictFromDayOfWeek_cases. by rewrite decide_True. }
  split; [done|]. rewrite Hp. unfold calculateAverage.
  rewrite decide_False.
  - cbn [count]. rewrite length_fmap. f_equal.
    rewrite day_sum_fold. unfold groupByDate.
    destruct (fold_sums h []) as [-> _]. unfold day_sum. cbn [foldr]. lia.
  - rewrite length_fmap, length_0_nil, groupByDate_nil_iff. done.
Qed.
End PredictionPaths.

Section PredictionOrder.
Import Js JsDate Holidays Prediction Notions MoreNotions CalendarNotions.
Import JsFacts PredictionFacts.

Variable LocalTZA : Z -> Z.
Variable cache : gmap Z (gmap string string).

(** X5.  In a time zone at or east of Greenwich, when the target date is a
    holiday and the history, all of calendar dates (years 1000 to 9999),
    has a record dated on a listed holiday, the prediction is the average
    over the days of the records dated on a listed holiday alone, with the
    basis '祝日の過去平均'. *)
Theorem holiday_prediction h targetDate :
  (forall t, 0 <= LocalTZA t < msPerDay) ->
  Forall (fun r => realCalendarDate (date r) = true) h ->
  isHolidaySync LocalTZA cache (IsDate targetDate) = true ->
  dated_on_holiday cache h <> [] ->
  predictDayuseRevenue LocalTZA cache h targetDate
  = calculateAverage (groupByDate (dated_on_holiday cache h)).*2 "祝日の過去平均".
Proof.
  intros Htz Hreal Hhol Hne.
  rewrite <-(on_holiday_east LocalTZA cache h Htz Hreal) in *.
  unfold predictDayuseRevenue.
  destruct (decide (length h = 0%nat)) as [H0|_].
  { apply length_0_nil in H0. subst h. done. }
  rewrite Hhol. unfold predictFromHolidayData. rewrite holiday_filter.
  rewrite decide_False; [done|].
  by rewrite length_0_nil, groupByDate_nil_iff.
Qed.

Lemma price_sum_Permutation rs rs' : rs ≡ₚ rs' -> price_sum rs = price_sum rs'.
Proof.
  induction 1 as [|r rs rs' _ IH|r1 r2 rs|rs1 rs2 rs3 _ IH1 _ IH2];
    rewrite ?price_sum_cons; try lia; congruence.
Qed.

Lemma sum_Permutation (f : DailyTotal -> Z) l l' :
  l ≡ₚ l' ->
  fold_left (fun sum d => sum + f d) l 0 = fold_left (fun sum d => sum + f d) l' 0.
Proof.
  induction 1 as [|d l l' _ IH|d1 d2 l|l1 l2 l3 _ IH1 _ IH2]; cbn [fold_left].
  - done.
  - rewrite (sum_shift f l), (sum_shift f l'), IH. done.
  - rewrite (sum_shift f l (0 + f d1 + f d2)), (sum_shift f l (0 + f d2 + f d1)).
    generalize (fold_left (fun sum d => sum + f d) l 0). intros x. lia.
  - congruence.
Qed.

Lemma calculateAverage_Permutation l l' b :
  l ≡ₚ l' -> calculateAverage l b = calculateAverage l' b.
Proof.
  intros Hp. unfold calculateAverage.
  rewrite (Permutation_length Hp).
  by rewrite (sum_Permutation day_count l l' Hp), (sum_Permutation day_revenue l l' Hp).
Qed.

Lemma dict_elem_of {K V} `{EqDecision K} (m : list (K * V)) k v :
  NoDup m.*1 -> (k, v) ∈ m <-> dict_get k m = Some v.
Proof.
  intros Hnd. split; [|apply dict_get_elem_of].
  induction m as [|[k' v'] m IH]; [by intros ?%elem_of_nil|].
  rewrite fmap_cons in Hnd. apply NoDup_cons in Hnd as [Hk' Hnd].
  intros [Heq|Hin]%elem_of_cons; cbn [dict_get].
  - injection Heq as -> ->. by rewrite decide_True.
  - rewrite decide_False; [by apply IH|].
    intros ->. apply Hk'. apply list_elem_of_fmap. by exists (k', v).
Qed.

Lemma dict_Permutation {K V} `{EqDecision K} (m m' : list (K * V)) :
  NoDup m.*1 -> NoDup m'.*1 ->
  (forall k, dict_get k m = dict_get k m') -> m ≡ₚ m'.
Proof.
  intros Hm Hm' Hget. apply NoDup_Permutation.
  - by apply (NoDup_fmap_1 fst).
  - by apply (NoDup_fmap_1 fst).
  - intros [k v]. by rewrite !dict_elem_of, Hget.
Qed.

Lemma groupByDate_Permutation h h' : h ≡ₚ h' -> groupByDate h ≡ₚ groupByDate h'.
Proof.
  intros Hp.
  apply dict_Permutation; [apply fold_keys_NoDup; constructor..|].
  intros k. rewrite !groupByDate_get.
  assert (on_date k h ≡ₚ on_date k h') as Hk by (unfold on_date; by rewrite Hp).
  destruct (on_date k h) as [|r rs], (on_date k h') as [|r' rs'].
  - done.
  - by apply Permutation_nil_l in Hk.
  - by apply Permutation_nil_r in Hk.
  - cbv zeta. f_equal. f_equal.
    + f_equal. exact (Permutation_length Hk).
    + exact (price_sum_Permutation _ _ Hk).
Qed.

Lemma predictFromDayOfWeek_Permutation h h' dow override :
  h ≡ₚ h' ->
  predictFromDayOfWeek LocalTZA h dow override
  = predictFromDayOfWeek LocalTZA h' dow override.
Proof.
  intros Hp%groupByDate_Permutation. unfold predictFromDayOfWeek.
  generalize dependent (groupByDate h'). generalize (groupByDate h).
  intros D D' HD. cbv zeta.
  set (P := fun e : CalendarDate * DailyTotal =>
              num_eq (getDay LocalTZA (Date_of_string e.1)) dow = true).
  assert (filter P D ≡ₚ filter P D') as HF by (by rewrite HD).
  rewrite (Permutation_length HF).
  destruct (decide _); apply calculateAverage_Permutation; by apply fmap_Permutation.
Qed.

(** X6.  The prediction does not depend on the order of the rows of the
    history. *)
Theorem prediction_ignores_row_order h h' targetDate :
  h ≡ₚ h' ->
  predictDayuseRevenue LocalTZA cache h targetDate
  = predictDayuseRevenue LocalTZA cache h' targetDate.
Proof.
  intros Hp. unfold predictDayuseRevenue.
  rewrite (Permutation_length Hp).
  destruct (decide (length h' = 0%nat)); [done|].
  rewrite !(predictFromDayOfWeek_Permutation h h') by done.
  destruct (isHolidaySync LocalTZA cache (IsDate targetDate)); [|done].
  assert (predictFromHolidayData LocalTZA cache h
          = predictFromHolidayData LocalTZA cache h') as ->; [|done].
  apply groupByDate_Permutation in Hp. unfold predictFromHolidayData.
  generalize dependent (groupByDate h'). generalize (groupByDate h).
  intros D D' HD. cbv zeta.
  set (P := fun e : CalendarDate * DailyTotal =>
              isHolidaySync LocalTZA cache (IsString e.1) = true).
  assert (filter P D ≡ₚ filter P D') as HF by (by rewrite HD).
  rewrite (Permutation_length HF).
  destruct (decide _); [done|]. f_equal.
  apply calculateAverage_Permutation. by apply fmap_Permutation.
Qed.
End PredictionOrder.

Section PredictionStats.
Import Js JsDate Holidays Prediction Notions MoreNotions JsFacts PredictionFacts.

Variable LocalTZA : Z -> Z.

Lemma getDayOfWeekStats_explicit h :
  getDayOfWeekStats LocalTZA h
  = [ ("日", stat_of LocalTZA h 0); ("月", stat_of LocalTZA h 1); ("火", stat_of LocalTZA h 2);
      ("水", stat_of LocalTZA h 3); ("木", stat_of LocalTZA h 4); ("金", stat_of LocalTZA h 5);
      ("土", stat_of LocalTZA h 6) ].
Proof.
  unfold getDayOfWeekStats. change (seqZ 0 7) with [0; 1; 2; 3; 4; 5; 6].
  cbn [fold_left]. fold (stat_of LocalTZA h 0) (stat_of LocalTZA h 1) (stat_of LocalTZA h 2) (stat_of LocalTZA h 3)
    (stat_of LocalTZA h 4) (stat_of LocalTZA h 5) (stat_of LocalTZA h 6).
  generalize (stat_of LocalTZA h 0) (stat_of LocalTZA h 1) (stat_of LocalTZA h 2) (stat_of LocalTZA h 3)
    (stat_of LocalTZA h 4) (stat_of LocalTZA h 5) (stat_of LocalTZA h 6).
  intros s0 s1 s2 s3 s4 s5 s6. vm_compute. reflexivity.
Qed.

(** X7.  [getDayOfWeekStats] has the seven entries '日' to '土' in this
    order, the entry of a weekday holding the prediction for that weekday;
    for a non-empty history every entry has an average count of at least 1
    and an average price equal to revenue over count, rounded (a weekday
    without data shows the overall average); for the empty history every
    entry is zero. *)
Theorem getDayOfWeekStats_entries h :
  dict_keys (getDayOfWeekStats LocalTZA h) = dayNames
  /\ (forall name st, (name, st) ∈ getDayOfWeekStats LocalTZA h ->
        exists dow, 0 <= dow < 7 /\ dayNames !! Z.to_nat dow = Some name
                    /\ st = stat_of LocalTZA h dow)
  /\ (h <> [] ->
      forall name st, (name, st) ∈ getDayOfWeekStats LocalTZA h ->
        1 <= stat_avgCount st
        /\ stat_avgPrice st = Math_round_div (stat_avgRevenue st) (stat_avgCount st))
  /\ (h = [] ->
      forall name st, (name, st) ∈ getDayOfWeekStats LocalTZA h ->
        stat_avgCount st = 0 /\ stat_avgRevenue st = 0 /\ stat_avgPrice st = 0).
Proof.
  rewrite getDayOfWeekStats_explicit.
  assert (forall name st,
             (name, st) ∈ [ ("日", stat_of LocalTZA h 0); ("月", stat_of LocalTZA h 1); ("火", stat_of LocalTZA h 2);
                            ("水", stat_of LocalTZA h 3); ("木", stat_of LocalTZA h 4); ("金", stat_of LocalTZA h 5);
                            ("土", stat_of LocalTZA h 6) ] ->
             exists dow, 0 <= dow < 7 /\ dayNames !! Z.to_nat dow = Some name
                         /\ st = stat_of LocalTZA h dow) as Hall.
  { intros name st Hin. rewrite !elem_of_cons, elem_of_nil in Hin.
    destruct Hin as [H|[H|[H|[H|[H|[H|[H|[]]]]]]]]; injection H as -> ->;
      [exists 0|exists 1|exists 2|exists 3|exists 4|exists 5|exists 6];
      (split; [lia|split; reflexivity]). }
  split; [reflexivity|]. split; [exact Hall|]. split.
  - intros Hh name st (dow & _ & _ & ->)%Hall. unfold stat_of. cbn.
    destruct (predictFromDayOfWeek_averaged LocalTZA h (Some dow) None Hh)
      as (days & b & Hdays & Hc & ->).
    pose proof (calculateAverage_count_ge_1 days b Hdays Hc) as Hge.
    split; [done|]. apply calculateAverage_avgPrice. lia.
  - intros -> name st (dow & _ & _ & ->)%Hall. by vm_compute.
Qed.
End PredictionStats.

Section PredictionMoreInstances.
Import Js JsDate Holidays Prediction Notions MoreNotions Scenario CalendarNotions.

Lemma weekday_prediction_witness :
  predictDayuseRevenue JST cache_2024 two_mondays (noon_JST 2024 1 22)
  = calculateAverage (groupByDate (dated_on_weekday 1 two_mondays)).*2
      (weekdayBasis (Some 1)).
Proof.
  apply (weekday_prediction JST cache_2024 two_mondays (noon_JST 2024 1 22) 1).
  - intros t. unfold JST, msPerDay. lia.
  - vm_compute. reflexivity.
  - vm_compute. reflexivity.
  - vm_compute. discriminate.
Defined.

Lemma no_weekday_data_uses_overall_average_witness :
  predictDayuseRevenue JST cache_2024 two_mondays (noon_JST 2024 1 23)
  = calculateAverage (groupByDate two_mondays).*2 "全体平均（曜日データなし）"
  /\ count (predictDayuseRevenue JST cache_2024 two_mondays (noon_JST 2024 1 23))
     = Math_round_div (Z.of_nat (length two_mondays))
         (Z.of_nat (length (groupByDate two_mondays))).
Proof.
  apply (no_weekday_data_uses_overall_average JST cache_2024 two_mondays
           (noon_JST 2024 1 23)).
  - intros t. unfold JST, msPerDay. lia.
  - discriminate.
  - left. split; [vm_compute; reflexivity|].
    intros r Hr. unfold two_mondays in Hr.
    rewrite !elem_of_cons, elem_of_nil in Hr.
    destruct Hr as [Hr|[Hr|[]]]; rewrite Hr; vm_compute; discriminate.
Defined.

Lemma holiday_prediction_witness :
  predictDayuseRevenue JST cache_2024 two_mondays (noon_JST 2024 1 1)
  = calculateAverage (groupByDate (dated_on_holiday cache_2024 two_mondays)).*2
      "祝日の過去平均".
Proof.
  apply (holiday_prediction JST cache_2024 two_mondays (noon_JST 2024 1 1)).
  - intros t. unfold JST, msPerDay. lia.
  - unfold two_mondays. repeat constructor.
  - vm_compute. reflexivity.
  - vm_compute. discriminate.
Defined.

Lemma prediction_ignores_row_order_witness :
  predictDayuseRevenue JST cache_2024
    [ mkRecord (VNum 2) (mkCalendarDate 2024 1 15) (Some 7000);
      mkRecord (VNum 1) (mkCalendarDate 2024 1 8) (Some 5000) ]
    (noon_JST 2024 1 22)
  = predictDayuseRevenue JST cache_2024
      [ mkRecord (VNum 1) (mkCalendarDate 2024 1 8) (Some 5000);
        mkRecord (VNum 2) (mkCalendarDate 2024 1 15) (Some 7000) ]
      (noon_JST 2024 1 22).
Proof.
  apply (prediction_ignores_row_order JST cache_2024). apply perm_swap.
Defined.
End PredictionMoreInstances.

(* ===================================================================== *)
(** * The asynchronous holiday lookups *)
(* ===================================================================== *)

Section HolidayMore.
Import Js JsDate Holidays Notions MoreNotions Scenario JsFacts.

Variable LocalTZA : Z -> Z.

Lemma isHolidaySync_cached cache date year holidays :
  getFullYear LocalTZA (date_of date) = Some year ->
  cache !! year = Some holidays ->
  isHolidaySync LocalTZA cache date
  = bool_decide (is_Some (holidays !! formatDate LocalTZA (date_of date))).
Proof.
  intros Hy Hc. unfold isHolidaySync. fold (date_of date).
  rewrite Hy. cbn [mbind option_bind]. by rewrite Hc.
Qed.

Lemma bool_decide_lookup_empty (k : string) :
  bool_decide (is_Some ((∅ : gmap string string) !! k)) = false.
Proof. apply bool_decide_eq_false. rewrite lookup_empty. by intros [? ?]. Qed.

(** What one load does to the cache. *)
Lemma fetchHolidays_cache year resp w :
  holidayCache (fetchHolidays year resp w).2
  = match holidayCache w !! year, resp with
    | None, Responded true _ (Some holidays) => <[year := holidays]> (holidayCache w)
    | _, _ => holidayCache w
    end.
Proof.
  unfold fetchHolidays. destruct (holidayCache w !! year); [done|].
  by destruct resp as [|[] status [holidays|]].
Qed.

Lemma fetchHolidays_returns year resp w :
  exists holidays,
    (fetchHolidays year resp w).1 = Returned holidays
    /\ (holidayCache (fetchHolidays year resp w).2 !! year = Some holidays
        \/ (holidayCache (fetchHolidays year resp w).2 !! year = None
            /\ holidays = ∅ /\ failed resp /\ holidayCache w !! year = None)).
Proof.
  unfold fetchHolidays. destruct (holidayCache w !! year) as [holidays|] eqn:Hc.
  - exists holidays. split; [done|]. by left.
  - destruct resp as [|[] status [holidays|]]; cbn.
    + exists ∅. split; [done|]. right. by repeat split.
    + exists holidays. split; [done|]. left. apply lookup_insert_eq.
    + exists ∅. split; [done|]. right. repeat split; auto.
    + exists ∅. split; [done|]. right. repeat split; auto.
    + exists ∅. split; [done|]. right. repeat split; auto.
Qed.

(** X8.  For a valid date, [isHoliday] loads the table of the date's year
    and answers what [isHolidaySync] answers on the cache left by that load;
    when the year was not cached and the load fails, the answer is [false]. *)
Theorem isHoliday_agrees_with_cache date year resp w :
  getFullYear LocalTZA (date_of date) = Some year ->
  exists b,
    isHoliday LocalTZA date resp w = Some (Returned b, (fetchHolidays year resp w).2)
    /\ b = isHolidaySync LocalTZA (holidayCache (fetchHolidays year resp w).2) date
    /\ (failed resp -> holidayCache w !! year = None -> b = false).
Proof.
  intros Hy. unfold isHoliday. fold (date_of date). rewrite Hy.
  cbn [mbind option_bind].
  destruct (fetchHolidays_returns year resp w) as (holidays & Hret & Hcases).
  destruct (fetchHolidays year resp w) as [c w'] eqn:Hf. cbn [fst snd] in *.
  subst c. eexists. split; [reflexivity|].
  destruct Hcases as [Hc|(Hc & -> & _ & _)].
  - split; [symmetry; by apply isHolidaySync_cached with year|].
    intros Hfail Hnone.
    pose proof (fetchHolidays_cache year resp w) as Hcache.
    rewrite Hf in Hcache. cbn [snd] in Hcache. rewrite Hnone in Hcache.
    destruct resp as [|[] status [t|]]; cbn in Hfail;
      try (rewrite Hcache, Hnone in Hc; discriminate).
    destruct Hfail; discriminate.
  - rewrite bool_decide_lookup_empty. split; [|done].
    symmetry. by apply isHolidaySync_uncached with year.
Qed.

(** X9.  For a valid date, [getHolidayName] and [isHoliday] load the same
    year and leave the same cache; a name returned by [getHolidayName] is
    not empty and [isHoliday] is then [true]; the two disagree ([null]
    against [true]) only when the table maps the date to the empty text. *)
Theorem getHolidayName_implies_isHoliday date year resp w :
  getFullYear LocalTZA (date_of date) = Some year ->
  exists n b,
    getHolidayName LocalTZA date resp w
    = Some (Returned n, (fetchHolidays year resp w).2)
    /\ isHoliday LocalTZA date resp w
       = Some (Returned b, (fetchHolidays year resp w).2)
    /\ (forall name, n = Some name -> b = true /\ name <> "")
    /\ (n = None -> b = true ->
        exists holidays,
          (fetchHolidays year resp w).1 = Returned holidays
          /\ holidays !! formatDate LocalTZA (date_of date) = Some "").
Proof.
  intros Hy. unfold getHolidayName, isHoliday. fold (date_of date). rewrite Hy.
  cbn [mbind option_bind].
  destruct (fetchHolidays_returns year resp w) as (holidays & Hret & _).
  destruct (fetchHolidays year resp w) as [c w'] eqn:Hf. cbn [fst snd] in *.
  subst c. eexists _, _. split; [reflexivity|]. split; [reflexivity|].
  destruct (holidays !! formatDate LocalTZA (date_of date)) as [name|] eqn:Hn.
  - destruct (String.eqb_spec name "") as [->|Hne].
    + split; [discriminate|]. intros _ _. by exists holidays.
    + split; [|discriminate]. intros ? [= <-]. split; [|done].
      apply bool_decide_eq_true. by exists name.
  - split; [discriminate|]. intros _ Hb.
    apply bool_decide_eq_true in Hb as [? ?]. discriminate.
Qed.

(** X10.  Loading a year does not change what [isHolidaySync] answers for a
    date of another year; the Invalid Date is never a holiday; and after a
    successful first load of its year, a date is a holiday exactly when its
    text [YYYY-MM-DD] is a key of the loaded table. *)
Theorem fetchHolidays_then_lookup year resp w date :
  (forall year', getFullYear LocalTZA (date_of date) = Some year' -> year' <> year ->
     isHolidaySync LocalTZA (holidayCache (fetchHolidays year resp w).2) date
     = isHolidaySync LocalTZA (holidayCache w) date)
  /\ (date_of date = None ->
      isHolidaySync LocalTZA (holidayCache (fetchHolidays year resp w).2) date = false)
  /\ (forall status holidays,
        holidayCache w !! year = None ->
        resp = Responded true status (Some holidays) ->
        getFullYear LocalTZA (date_of date) = Some year ->
        isHolidaySync LocalTZA (holidayCache (fetchHolidays year resp w).2) date
        = bool_decide (is_Some (holidays !! formatDate LocalTZA (date_of date)))).
Proof.
  rewrite fetchHolidays_cache. split; [|split].
  - intros year' Hy Hne. unfold isHolidaySync. fold (date_of date). rewrite Hy.
    cbn [mbind option_bind].
    destruct (holidayCache w !! year); [done|].
    destruct resp as [|[] status [holidays|]]; try done.
    by rewrite lookup_insert_ne.
  - apply isHolidaySync_invalid.
  - intros status holidays Hc -> Hy. rewrite Hc.
    apply isHolidaySync_cached with year; [done|]. apply lookup_insert_eq.
Qed.

(** X11.  After [clearHolidayCache] no date is a holiday for
    [isHolidaySync], and the next load of any year sends a request; the
    requests sent and the lines logged so far are kept. *)
Theorem clearHolidayCache_forgets w :
  (forall date, isHolidaySync LocalTZA (holidayCache (clearHolidayCache w)) date = false)
  /\ (forall year resp,
        requested (fetchHolidays year resp (clearHolidayCache w)).2
        = requested w ++ [year])
  /\ requested (clearHolidayCache w) = requested w
  /\ console (clearHolidayCache w) = console w.
Proof.
  split; [|split; [|done]].
  - intros date. unfold isHolidaySync, clearHolidayCache. cbn [holidayCache].
    destruct (getFullYear LocalTZA _) as [year|]; [|done].
    cbn [mbind option_bind]. by rewrite lookup_empty.
  - intros year resp. unfold fetchHolidays, clearHolidayCache. cbn [holidayCache].
    rewrite lookup_empty. by destruct resp as [|[] status [holidays|]].
Qed.
End HolidayMore.

Section HolidayMoreInstances.
Import Js JsDate Holidays Notions Scenario.

Lemma isHoliday_agrees_with_cache_witness :
  exists b,
    isHoliday JST (IsDate (noon_JST 2024 1 1)) (Responded true 200 (Some holidays_2024))
      fresh_world
    = Some (Returned b,
            (fetchHolidays 2024 (Responded true 200 (Some holidays_2024)) fresh_world).2)
    /\ b = true.
Proof.
  destruct (isHoliday_agrees_with_cache JST (IsDate (noon_JST 2024 1 1)) 2024
              (Responded true 200 (Some holidays_2024)) fresh_world)
    as (b & Hb & Hbb & _).
  - vm_compute. reflexivity.
  - exists b. split; [exact Hb|]. rewrite Hbb. vm_compute. reflexivity.
Defined.

Lemma getHolidayName_implies_isHoliday_witness :
  exists n b,
    getHolidayName JST (IsDate (noon_JST 2024 1 8))
      (Responded true 200 (Some holidays_2024)) fresh_world
    = Some (Returned n,
            (fetchHolidays 2024 (Responded true 200 (Some holidays_2024)) fresh_world).2)
    /\ isHoliday JST (IsDate (noon_JST 2024 1 8))
         (Responded true 200 (Some holidays_2024)) fresh_world
       = Some (Returned b,
               (fetchHolidays 2024 (Responded true 200 (Some holidays_2024)) fresh_world).2).
Proof.
  destruct (getHolidayName_implies_isHoliday JST (IsDate (noon_JST 2024 1 8)) 2024
              (Responded true 200 (Some holidays_2024)) fresh_world)
    as (n & b & Hn & Hb & _).
  - vm_compute. reflexivity.
  - exists n, b. split; [exact Hn|exact Hb].
Defined.
End HolidayMoreInstances.

(* ===================================================================== *)
(** * The minimum price and the daily target *)
(* ===================================================================== *)

Section RoundingFacts.
Import Js.

(** [Math.ceil(a / b)] is the least integer at or above the quotient, and
    [Math.round(a / b)] is within one half of it. *)
Lemma Math_ceil_div_spec a b :
  0 < b ->
  a <= Math_ceil_div a b * b /\ (Math_ceil_div a b - 1) * b < a.
Proof.
  intros Hb. unfold Math_ceil_div.
  pose proof (Z.div_mod (- a) b ltac:(lia)) as Hdm.
  pose proof (Z.mod_pos_bound (- a) b Hb) as Hr.
  nia.
Qed.

Lemma Math_round_div_spec a b :
  0 < b ->
  2 * a - b < 2 * (Math_round_div a b * b) <= 2 * a + b.
Proof.
  intros Hb. unfold Math_round_div.
  pose proof (Z.div_mod (2 * a + b) (2 * b) ltac:(lia)) as Hdm.
  pose proof (Z.mod_pos_bound (2 * a + b) (2 * b) ltac:(lia)) as Hr.
  nia.
Qed.
End RoundingFacts.

Section PricingMore.
Import Js Dashboard JsFacts.

(** X12.  The minimum price is a number and is never negative.  When a daily
    target is set, selling every remaining room at the minimum price reaches
    the target together with the day-use revenue, and one yen less per room
    would not; the minimum price is 0 exactly when no target is set or the
    day-use revenue alone reaches it. *)
Theorem pricing_minimum_is_least_sufficient monthlyTarget daysInMonth totalRooms
    dayuseCount dayuseAvgPrice stayCount prediction_revenue :
  let ctx := pricing monthlyTarget daysInMonth totalRooms dayuseCount dayuseAvgPrice
               stayCount prediction_revenue in
  exists p,
    pc_minimumPrice ctx = Some p
    /\ 0 <= p
    /\ (0 < pc_dailyTarget ctx ->
        pc_dailyTarget ctx <= pc_dayuseRevenue ctx + p * pc_remainingRooms ctx)
    /\ (0 < p ->
        pc_dayuseRevenue ctx + (p - 1) * pc_remainingRooms ctx < pc_dailyTarget ctx)
    /\ (p = 0 <-> pc_dailyTarget ctx <= 0 \/ pc_dailyTarget ctx <= pc_dayuseRevenue ctx).
Proof.
  intros ctx. subst ctx. unfold pricing. cbn [pc_minimumPrice pc_dailyTarget pc_dayuseRevenue pc_remainingRooms].
  set (dt := dailyTarget monthlyTarget daysInMonth).
  set (dr := dayuseRevenue dayuseCount dayuseAvgPrice prediction_revenue).
  assert (1 <= remainingRooms totalRooms stayCount) as Hrooms
    by (unfold remainingRooms; lia).
  set (rooms := remainingRooms totalRooms stayCount) in *.
  unfold minimumPrice.
  destruct (Z.leb_spec dt 0) as [Hdt|Hdt].
  { exists 0. repeat split; intros; lia. }
  cbv zeta. destruct (Z.leb_spec (dt - dr) 0) as [Hreq|Hreq].
  { exists 0. repeat split; intros; lia. }
  unfold Math_ceil_quot. destruct (Z.eqb_spec rooms 0) as [H0|_]; [lia|].
  pose proof (Math_ceil_div_spec (dt - dr) rooms ltac:(lia)) as [Hup Hlow].
  exists (Math_ceil_div (dt - dr) rooms).
  assert (0 < Math_ceil_div (dt - dr) rooms) by nia.
  repeat split; intros; lia.
Qed.

(** X13.  For a month of at least one day, the daily target is 0 when no
    monthly target is set; otherwise it is not negative and, multiplied by
    the number of days, is within half that number of the monthly target. *)
Theorem dailyTarget_rounding monthlyTarget daysInMonth :
  0 < daysInMonth ->
  (monthlyTarget <= 0 -> dailyTarget monthlyTarget daysInMonth = 0)
  /\ (0 < monthlyTarget ->
      0 <= dailyTarget monthlyTarget daysInMonth
      /\ 2 * monthlyTarget - daysInMonth
         < 2 * (dailyTarget monthlyTarget daysInMonth * daysInMonth)
         <= 2 * monthlyTarget + daysInMonth).
Proof.
  intros Hd. unfold dailyTarget. split.
  - intros Hm. destruct (Z.ltb_spec 0 monthlyTarget); [lia|done].
  - intros Hm. destruct (Z.ltb_spec 0 monthlyTarget); [|lia].
    pose proof (Math_round_div_spec monthlyTarget daysInMonth Hd). split; [|lia].
    unfold Math_round_div. apply Z.div_pos; lia.
Qed.

Lemma dailyTarget_rounding_witness :
  0 < 31 /\ dailyTarget 300000 31 = 9677.
Proof.
  split; [lia|].
  pose proof (dailyTarget_rounding 300000 31 ltac:(lia)) as [_ H].
  destruct (H ltac:(lia)) as [_ Hb]. lia.
Defined.
End PricingMore.

(* ===================================================================== *)
(** * Lockout and session *)
(* ===================================================================== *)

Section SecurityMore.
Import Js Security SecurityNotions.

Lemma recordLoginFailure_attempts now st :
  attempts (getLoginAttempts (recordLoginFailure now st).2)
  = attempts (getLoginAttempts st) + 1
  /\ session (recordLoginFailure now st).2 = session st
  /\ app_password_hash (recordLoginFailure now st).2 = app_password_hash st.
Proof.
  unfold recordLoginFailure. cbv zeta.
  by destruct (MAX_LOGIN_ATTEMPTS <=? attempts (getLoginAttempts st) + 1).
Qed.

Lemma failures_attempts times : forall st,
  attempts (getLoginAttempts (failures times st))
  = attempts (getLoginAttempts st) + Z.of_nat (length times)
  /\ session (failures times st) = session st
  /\ app_password_hash (failures times st) = app_password_hash st.
Proof.
  induction times as [|t times IH]; intros st.
  - cbn [failures fold_left length]. split; [lia|done].
  - unfold failures. cbn [fold_left]. fold (failures times (recordLoginFailure t st).2).
    destruct (IH (recordLoginFailure t st).2) as (-> & -> & ->).
    destruct (recordLoginFailure_attempts t st) as (-> & -> & ->).
    rewrite length_cons, Nat2Z.inj_succ. split; [lia|done].
Qed.

(** X19.  Starting from no recorded attempt, after [n] failed logins one more
    failure leaves [n + 1] attempts recorded and reports [max 0 (4 - n)]
    remaining attempts; up to the fourth failure nothing is locked; from the
    fifth on the account is locked for 30 seconds, until 30000 ms after that
    failure. *)
Theorem fifth_failure_locks times now st :
  login_attempts st = None ->
  let n := Z.of_nat (length times) in
  let result := (recordLoginFailure now (failures times st)).1 in
  let st' := (recordLoginFailure now (failures times st)).2 in
  attempts (getLoginAttempts st') = n + 1
  /\ remainingAttempts result = Z.max 0 (4 - n)
  /\ (n < 4 ->
      fr_isLocked result = false /\ lockoutSeconds result = 0
      /\ lockoutUntil (getLoginAttempts st') = None)
  /\ (4 <= n ->
      fr_isLocked result = true /\ lockoutSeconds result = 30
      /\ lockoutUntil (getLoginAttempts st') = Some (now + 30000)).
Proof.
  intros Hfresh n result st'.
  destruct (failures_attempts times st) as (Hn & _).
  assert (attempts (getLoginAttempts st) = 0) as H0
    by (unfold getLoginAttempts; by rewrite Hfresh).
  rewrite H0 in Hn. fold n in Hn.
  subst result st'. unfold recordLoginFailure. cbv zeta. rewrite Hn.
  unfold MAX_LOGIN_ATTEMPTS, LOCKOUT_DURATION_MS.
  destruct (Z.leb_spec 5 (0 + n + 1)) as [Hge|Hlt];
    cbn [fst snd fr_isLocked remainingAttempts lockoutSeconds getLoginAttempts
         login_attempts default from_option Datatypes.id attempts lockoutUntil].
  - split; [lia|]. split; [lia|]. split; [lia|]. intros _. by vm_compute.
  - split; [lia|]. split; [lia|]. split; [done|]. lia.
Qed.

Lemma fifth_failure_locks_witness :
  lockoutUntil
    (getLoginAttempts
       (recordLoginFailure 5000 (failures [1000; 2000; 3000; 4000] (mkStore None None None))).2)
  = Some 35000.
Proof.
  destruct (fifth_failure_locks [1000; 2000; 3000; 4000] 5000 (mkStore None None None)
              eq_refl) as (_ & _ & _ & H).
  apply H. cbn. lia.
Defined.

(** X20.  [checkLockout] while a lock is recorded: before its end it reports
    the lock with the remaining time in whole seconds, rounded up and at
    least 1, and changes nothing; from its end on it reports no lock and
    resets the attempts to zero.  Without a recorded lock it reports no
    lock and changes nothing. *)
Theorem checkLockout_window now st :
  (forall lockedUntil,
      lockoutUntil (getLoginAttempts st) = Some lockedUntil -> lockedUntil <> 0 ->
      (now < lockedUntil ->
       exists s, checkLockout now st = (mkLock true s, st)
                 /\ 1 <= s /\ (s - 1) * 1000 < lockedUntil - now <= s * 1000)
      /\ (lockedUntil <= now ->
          checkLockout now st = (mkLock false 0, resetLoginAttempts st)
          /\ getLoginAttempts (resetLoginAttempts st) = mkAttempts 0 None))
  /\ (lockoutUntil (getLoginAttempts st) = None ->
      checkLockout now st = (mkLock false 0, st)).
Proof.
  split.
  - intros lockedUntil Hu Hne. unfold checkLockout. rewrite Hu.
    destruct (Z.eqb_spec lockedUntil 0); [done|]. split.
    + intros Hlt. destruct (Z.leb_spec lockedUntil now); [lia|].
      eexists. split; [reflexivity|].
      pose proof (Math_ceil_div_spec (lockedUntil - now) 1000 ltac:(lia)). lia.
    + intros Hge. destruct (Z.leb_spec lockedUntil now); [done|lia].
  - intros Hu. unfold checkLockout. by rewrite Hu.
Qed.

Lemma checkLockout_window_witness :
  checkLockout 20500 (mkStore (Some (mkAttempts 5 (Some 35000))) None None)
  = (mkLock true 15, mkStore (Some (mkAttempts 5 (Some 35000))) None None).
Proof.
  destruct (checkLockout_window 20500 (mkStore (Some (mkAttempts 5 (Some 35000))) None None))
    as [H _].
  destruct (H 35000 eq_refl ltac:(lia)) as [Hlocked _].
  destruct (Hlocked ltac:(lia)) as (s & -> & Hs1 & Hs2).
  assert (s = 15) as -> by lia. reflexivity.
Defined.

(** X21.  A session created at time [now2] is returned and valid at every
    time before [now2] + 24 h; from then on [getSession] returns [null],
    removes the session, and every later call returns [null] too.  Creating
    a session touches neither the login attempts nor the password hash. *)
Theorem session_window now1 now2 hotelId st now :
  let st' := createSession now1 now2 hotelId st in
  let s := mkSession now1 (now2 + SESSION_DURATION_MS) hotelId in
  (now < now2 + 86400000 ->
   getSession now st' = (Some s, st') /\ isSessionValid now st' = (true, st'))
  /\ (now2 + 86400000 <= now ->
      getSession now st' = (None, clearSession st')
      /\ isSessionValid now st' = (false, clearSession st')
      /\ forall later, getSession later (clearSession st') = (None, clearSession st'))
  /\ login_attempts st' = login_attempts st
  /\ app_password_hash st' = app_password_hash st.
Proof.
  intros st' s. subst st' s. unfold isSessionValid, getSession, createSession.
  cbn [session expiresAt]. unfold SESSION_DURATION_MS.
  change (24 * 60 * 60 * 1000) with 86400000.
  split; [|split; [|done]].
  - intros Hlt. destruct (Z.leb_spec (now2 + 86400000) now); [lia|]. done.
  - intros Hge. destruct (Z.leb_spec (now2 + 86400000) now); [|lia]. done.
Qed.

Lemma session_window_witness :
  isSessionValid 86400999 (createSession 1000 1000 None (mkStore None None None))
  = (true, createSession 1000 1000 None (mkStore None None None)).
Proof.
  destruct (session_window 1000 1000 None (mkStore None None None) 86400999) as [H _].
  apply H. lia.
Defined.

(** X22.  [refreshSession] on a session that has not expired keeps its
    creation time and hotel and moves its end to 24 h from now; on an
    expired session it removes the session; without a session it does
    nothing.  It touches neither the login attempts nor the password hash. *)
Theorem refreshSession_slides now1 now2 st :
  (forall s, session st = Some s -> now1 < expiresAt s ->
     session (refreshSession now1 now2 st)
     = Some (mkSession (createdAt s) (now2 + 86400000) (hotelId s)))
  /\ (forall s, session st = Some s -> expiresAt s <= now1 ->
        session (refreshSession now1 now2 st) = None)
  /\ (session st = None -> refreshSession now1 now2 st = st)
  /\ login_attempts (refreshSession now1 now2 st) = login_attempts st
  /\ app_password_hash (refreshSession now1 now2 st) = app_password_hash st.
Proof.
  unfold refreshSession, getSession. split; [|split; [|split]].
  - intros s -> Hlt. destruct (Z.leb_spec (expiresAt s) now1); [lia|]. done.
  - intros s -> Hge. destruct (Z.leb_spec (expiresAt s) now1); [done|lia].
  - by intros ->.
  - destruct (session st) as [s|]; [|done].
    by destruct (expiresAt s <=? now1).
Qed.

Lemma refreshSession_slides_witness :
  session (refreshSession 5000 5001
             (createSession 1000 1000 (Some "hotel_b") (mkStore None None None)))
  = Some (mkSession 1000 86405001 (Some "hotel_b")).
Proof.
  destruct (refreshSession_slides 5000 5001
              (createSession 1000 1000 (Some "hotel_b") (mkStore None None None)))
    as [H _].
  apply (H (mkSession 1000 86401000 (Some "hotel_b")) eq_refl). cbn. lia.
Defined.

(** X23.  The remaining session time is never negative; it is 0 when there
    is no valid session; for a valid session it is the time to its end in
    whole seconds, rounded up, and 0 once the end has passed. *)
Theorem getSessionRemainingTime_bounds now1 now2 st :
  let r := (getSessionRemainingTime now1 now2 st).1 in
  0 <= r
  /\ ((isSessionValid now1 st).1 = false -> r = 0)
  /\ (forall s, session st = Some s -> now1 < expiresAt s ->
        (now2 < expiresAt s ->
         1 <= r /\ (r - 1) * 1000 < expiresAt s - now2 <= r * 1000)
        /\ (expiresAt s <= now2 -> r = 0)).
Proof.
  intros r. subst r. unfold getSessionRemainingTime, isSessionValid, getSession.
  destruct (session st) as [s|]; [|by repeat split].
  destruct (Z.leb_spec (expiresAt s) now1) as [Hexp|Hok]; cbn [fst].
  - split; [done|]. split; [done|]. intros s' [= <-] Hlt. lia.
  - pose proof (Math_ceil_div_spec (expiresAt s - now2) 1000 ltac:(lia)) as Hb.
    split; [lia|]. split.
    + intros Hv. apply bool_decide_eq_false in Hv. exfalso. apply Hv. by eexists.
    + intros s' [= <-] _. split; intros; lia.
Qed.
End SecurityMore.

(* ===================================================================== *)
(** * The login form *)
(* ===================================================================== *)

Section LoginMore.
Import Js Security Login SecurityNotions.

Variable hashPassword : list N -> string.

(** X24.  While a lock is in force a login attempt is refused whatever the
    password, the right one included: the form shows the lock with at least
    one second remaining, and the stored attempts, session and hash are
    unchanged. *)
Theorem handleLogin_while_locked password clock st lockedUntil :
  lockoutUntil (getLoginAttempts st) = Some lockedUntil ->
  lockedUntil <> 0 ->
  at_check clock < lockedUntil ->
  exists seconds,
    handleLogin hashPassword password clock st = (Locked seconds, st)
    /\ 1 <= seconds.
Proof.
  intros Hu Hne Hlt. unfold handleLogin, checkLockout. rewrite Hu.
  destruct (Z.eqb_spec lockedUntil 0); [done|].
  destruct (Z.leb_spec lockedUntil (at_check clock)); [lia|].
  cbn [isLocked remainingSeconds]. eexists. split; [reflexivity|].
  unfold Math_ceil_div.
  pose proof (Z.div_mod (- (lockedUntil - at_check clock)) 1000 ltac:(lia)).
  pose proof (Z.mod_pos_bound (- (lockedUntil - at_check clock)) 1000 ltac:(lia)).
  lia.
Qed.

Lemma checkLockout_not_locked now st :
  not_locked_at now st ->
  (checkLockout now st).1 = mkLock false 0
  /\ session (checkLockout now st).2 = session st
  /\ app_password_hash (checkLockout now st).2 = app_password_hash st
  /\ ((checkLockout now st).2 = st
      \/ (checkLockout now st).2 = resetLoginAttempts st).
Proof.
  unfold not_locked_at, checkLockout.
  destruct (lockoutUntil (getLoginAttempts st)) as [u|]; [|by auto].
  intros Hu. destruct (Z.eqb_spec u 0); [by auto|].
  destruct (Z.leb_spec u now); [by auto|lia].
Qed.

Lemma handleLogin_correct_password password clock st :
  not_locked_at (at_check clock) st ->
  password <> [] ->
  app_password_hash st = Some (hashPassword password) ->
  handleLogin hashPassword password clock st
  = (LoginSuccess,
     mkStore None
       (Some (mkSession (at_created clock) (at_expiry clock + 86400000) None))
       (app_password_hash st)).
Proof.
  intros Hfree Hne Hok.
  destruct (checkLockout_not_locked (at_check clock) st Hfree)
    as (Hstatus & Hsess & Hhash & Hst0).
  unfold handleLogin.
  destruct (checkLockout (at_check clock) st) as [status st1] eqn:Hc.
  cbn [fst snd] in *. subst status. cbn [isLocked].
  rewrite bool_decide_false by done.
  unfold verifyPassword, getPasswordHash. rewrite Hhash, Hok.
  rewrite bool_decide_true by done.
  unfold createSession, resetLoginAttempts, SESSION_DURATION_MS.
  cbn [login_attempts session app_password_hash]. by rewrite Hhash, Hok.
Qed.

(** X25.  A login attempt while no lock is in force.  An empty password is
    rejected without being counted as a failure.  The right password succeeds: the
    attempts are forgotten and a session of 24 h is created.  A wrong
    password is counted: below five attempts the form shows the remaining
    attempts ([4 - n]) and nothing is locked; at the fifth the account is
    locked for 30 seconds.  A wrong password never changes the session or
    the hash. *)
Theorem handleLogin_outcomes password clock st :
  not_locked_at (at_check clock) st ->
  let st0 := (checkLockout (at_check clock) st).2 in
  let n := attempts (getLoginAttempts st0) in
  (password = [] ->
   handleLogin hashPassword password clock st = (ErrorEmptyPassword, st0))
  /\ (password <> [] ->
      app_password_hash st = Some (hashPassword password) ->
      handleLogin hashPassword password clock st
      = (LoginSuccess,
         mkStore None
           (Some (mkSession (at_created clock) (at_expiry clock + 86400000) None))
           (app_password_hash st)))
  /\ (password <> [] ->
      app_password_hash st <> Some (hashPassword password) ->
      exists outcome st',
        handleLogin hashPassword password clock st = (outcome, st')
        /\ attempts (getLoginAttempts st') = n + 1
        /\ session st' = session st
        /\ app_password_hash st' = app_password_hash st
        /\ (n + 1 < 5 ->
            outcome = ErrorWrongPassword (4 - n)
            /\ lockoutUntil (getLoginAttempts st') = None)
        /\ (5 <= n + 1 ->
            outcome = ErrorNowLocked 30
            /\ lockoutUntil (getLoginAttempts st')
               = Some (at_failure clock + 30000))).
Proof.
  intros Hfree st0 n.
  destruct (checkLockout_not_locked (at_check clock) st Hfree)
    as (Hstatus & Hsess & Hhash & Hst0).
  split; [|split].
  - intros ->. unfold handleLogin.
    destruct (checkLockout (at_check clock) st) as [status st1] eqn:Hc.
    cbn [fst snd] in *. subst status st0. cbn [isLocked]. by rewrite bool_decide_true.
  - intros Hne Hok. by apply handleLogin_correct_password.
  - intros Hne Hbad. unfold handleLogin.
    destruct (checkLockout (at_check clock) st) as [status st1] eqn:Hc.
    cbn [fst snd] in *. subst status st0. cbn [isLocked].
    rewrite bool_decide_false by done.
    unfold verifyPassword, getPasswordHash. rewrite Hhash.
    rewrite bool_decide_false by congruence.
    unfold recordLoginFailure. cbv zeta. fold n.
    unfold MAX_LOGIN_ATTEMPTS, LOCKOUT_DURATION_MS.
    destruct (Z.leb_spec 5 (n + 1)) as [Hge|Hlt]; cbn [fr_isLocked];
      eexists _, _; (split; [reflexivity|]);
      cbn [getLoginAttempts login_attempts default from_option Datatypes.id attempts
           lockoutUntil session app_password_hash remainingAttempts lockoutSeconds].
    + split; [done|]. split; [done|]. split; [done|]. split; [lia|].
      intros _. split; [|done]. f_equal.
    + split; [done|]. split; [done|]. split; [done|]. split; [|lia].
      intros _. split; [|done]. f_equal. lia.
Qed.

(** X26.  Setting the first password: fewer than 4 characters, or a
    confirmation that differs, is rejected and changes nothing; otherwise
    the hash is stored, a session is created, the login attempts are kept,
    and a later login with the same password succeeds when no lock is in
    force. *)
Theorem set_password_then_login password confirmPassword clock clock' st :
  (Z.of_nat (length password) < 4 ->
   handleSetPassword hashPassword password confirmPassword clock st = (ErrorTooShort, st))
  /\ (4 <= Z.of_nat (length password) -> password <> confirmPassword ->
      handleSetPassword hashPassword password confirmPassword clock st
      = (ErrorMismatch, st))
  /\ (4 <= Z.of_nat (length password) -> password = confirmPassword ->
      let st' := (handleSetPassword hashPassword password confirmPassword clock st).2 in
      (handleSetPassword hashPassword password confirmPassword clock st).1 = LoginSuccess
      /\ isPasswordSet st' = true
      /\ login_attempts st' = login_attempts st
      /\ (not_locked_at (at_check clock') st ->
          (handleLogin hashPassword password clock' st').1 = LoginSuccess)).
Proof.
  unfold handleSetPassword. split; [|split].
  - intros Hlen. by destruct (Z.ltb_spec (Z.of_nat (length password)) 4); [|lia].
  - intros Hlen Hne. destruct (Z.ltb_spec (Z.of_nat (length password)) 4); [lia|].
    by rewrite bool_decide_false.
  - intros Hlen <-. destruct (Z.ltb_spec (Z.of_nat (length password)) 4); [lia|].
    rewrite bool_decide_true by done. cbn [negb fst snd].
    split; [done|]. split; [done|]. split; [done|]. intros Hfree.
    assert (password <> []) as Hne by (intros ->; cbn in Hlen; lia).
    set (st' := createSession _ _ _ _).
    assert (not_locked_at (at_check clock') st') as Hfree' by exact Hfree.
    by rewrite (handleLogin_correct_password password clock' st' Hfree' Hne eq_refl).
Qed.
End LoginMore.

Section LoginInstances.
Import Js Security Login SecurityNotions.

Lemma handleLogin_while_locked_witness :
  handleLogin (fun _ => "h") [112; 119]%N (mkClock 20500 20600 20700 20800)
    (mkStore (Some (mkAttempts 5 (Some 35000))) None (Some "h"))
  = (Locked 15, mkStore (Some (mkAttempts 5 (Some 35000))) None (Some "h")).
Proof.
  destruct (handleLogin_while_locked (fun _ => "h") [112; 119]%N
              (mkClock 20500 20600 20700 20800)
              (mkStore (Some (mkAttempts 5 (Some 35000))) None (Some "h")) 35000
              eq_refl ltac:(lia) ltac:(cbn; lia)) as (s & Hs & _).
  rewrite Hs. vm_compute in Hs. by injection Hs as ->.
Defined.

Lemma handleLogin_outcomes_witness :
  handleLogin (fun _ => "h") [] (mkClock 10 20 30 40) (mkStore None None (Some "h"))
  = (ErrorEmptyPassword, mkStore None None (Some "h")).
Proof.
  destruct (handleLogin_outcomes (fun _ => "h") [] (mkClock 10 20 30 40)
              (mkStore None None (Some "h")) I) as [H _].
  exact (H eq_refl).
Defined.

Lemma set_password_then_login_witness :
  (handleSetPassword (fun _ => "h") [97; 98; 99; 100]%N [97; 98; 99; 100]%N
     (mkClock 10 20 30 40) (mkStore None None None)).1
  = LoginSuccess.
Proof.
  destruct (set_password_then_login (fun _ => "h") [97; 98; 99; 100]%N
              [97; 98; 99; 100]%N (mkClock 10 20 30 40) (mkClock 50 60 70 80)
              (mkStore None None None)) as (_ & _ & H).
  destruct (H ltac:(cbn; lia) eq_refl) as [Hs _]. exact Hs.
Defined.
End LoginInstances.

(* ===================================================================== *)
(** * Settings, history and daily input in the store *)
(* ===================================================================== *)

Section StorageMore.
Import Js Storage Notions MoreNotions JsFacts StorageFacts.

Lemma string_length_append s t :
  String.length (s +:+ t) = (String.length s + String.length t)%nat.
Proof.
  induction s as [|c s IH]; [done|].
  change (S (String.length (s +:+ t)) = S (String.length s + String.length t)).
  by rewrite IH.
Qed.

Lemma append_suffix_inj s1 s2 t1 t2 :
  String.length t1 = String.length t2 ->
  s1 +:+ t1 = s2 +:+ t2 -> s1 = s2 /\ t1 = t2.
Proof.
  intros Hlen. revert s2. induction s1 as [|c s1 IH]; intros [|c' s2] Heq.
  - done.
  - exfalso. change (t1 = String c' (s2 +:+ t2)) in Heq. subst t1.
    change (S (String.length (s2 +:+ t2)) = String.length t2) in Hlen.
    rewrite string_length_append in Hlen. lia.
  - exfalso. change (String c (s1 +:+ t1) = t2) in Heq. subst t2.
    change (String.length t1 = S (String.length (s1 +:+ t1))) in Hlen.
    rewrite string_length_append in Hlen. lia.
  - change (String c (s1 +:+ t1) = String c' (s2 +:+ t2)) in Heq.
    injection Heq as -> Heq. destruct (IH s2 Heq) as [-> ->]. done.
Qed.

Lemma month_text m :
  1 <= m <= 12 ->
  String.length (padStart2 (String_of_num (Some m))) = 2%nat
  /\ forall m', 1 <= m' <= 12 ->
       padStart2 (String_of_num (Some m)) = padStart2 (String_of_num (Some m')) ->
       m = m'.
Proof.
  intros Hm.
  assert (m = 1 \/ m = 2 \/ m = 3 \/ m = 4 \/ m = 5 \/ m = 6 \/ m = 7 \/ m = 8 \/ m = 9
          \/ m = 10 \/ m = 11 \/ m = 12) as Hc by lia.
  split.
  - destruct Hc as [->|[->|[->|[->|[->|[->|[->|[->|[->|[->|[->| ->]]]]]]]]]]];
      reflexivity.
  - intros m' Hm'.
    assert (m' = 1 \/ m' = 2 \/ m' = 3 \/ m' = 4 \/ m' = 5 \/ m' = 6 \/ m' = 7 \/ m' = 8
            \/ m' = 9 \/ m' = 10 \/ m' = 11 \/ m' = 12) as Hc' by lia.
    destruct Hc as [->|[->|[->|[->|[->|[->|[->|[->|[->|[->|[->| ->]]]]]]]]]]];
      destruct Hc' as [->|[->|[->|[->|[->|[->|[->|[->|[->|[->|[->| ->]]]]]]]]]]];
      vm_compute; congruence.
Qed.

Lemma monthKey_inj year month year' month' :
  1 <= month <= 12 -> 1 <= month' <= 12 ->
  monthKey year month = monthKey year' month' -> year = year' /\ month = month'.
Proof.
  intros Hm Hm' Heq. unfold monthKey in Heq.
  destruct (month_text month Hm) as [Hl Hinj].
  destruct (month_text month' Hm') as [Hl' _].
  apply append_suffix_inj in Heq as [Hy Hmo].
  - split; [unfold String_of_num in Hy; by apply (inj pretty) in Hy|].
    apply (append_suffix_inj "-" "-") in Hmo as [_ Hmo]; [by apply Hinj|].
    by rewrite Hl, Hl'.
  - rewrite !string_length_append. by rewrite Hl, Hl'.
Qed.

Lemma getHotelSettings_save hotelId settings allSettings :
  getHotelSettings hotelId (saveHotelSettings hotelId settings allSettings) = settings.
Proof. unfold getHotelSettings, saveHotelSettings. by rewrite lookup_insert_eq. Qed.

Lemma getHotelSettings_save_ne hotelId hotelId' settings allSettings :
  hotelId' <> hotelId ->
  getHotelSettings hotelId' (saveHotelSettings hotelId settings allSettings)
  = getHotelSettings hotelId' allSettings.
Proof.
  intros Hne. unfold getHotelSettings, saveHotelSettings. by rewrite lookup_insert_ne.
Qed.

(** X14.  A saved monthly target is read back; saving it changes no target
    of another hotel and, months being 1 to 12, no target of another month
    of the same hotel; a target that was never saved reads as 0. *)
Theorem monthly_target_round_trip hotelId year month target allSettings :
  getMonthlyTarget hotelId year month
    (saveMonthlyTarget hotelId year month target allSettings) = target
  /\ (forall hotelId' year' month',
        hotelId' <> hotelId ->
        getMonthlyTarget hotelId' year' month'
          (saveMonthlyTarget hotelId year month target allSettings)
        = getMonthlyTarget hotelId' year' month' allSettings)
  /\ (forall year' month',
        1 <= month <= 12 -> 1 <= month' <= 12 ->
        (year', month') <> (year, month) ->
        getMonthlyTarget hotelId year' month'
          (saveMonthlyTarget hotelId year month target allSettings)
        = getMonthlyTarget hotelId year' month' allSettings)
  /\ getMonthlyTarget hotelId year month ∅ = 0.
Proof.
  split; [|split; [|split]].
  - unfold getMonthlyTarget, saveMonthlyTarget. rewrite getHotelSettings_save.
    cbn [monthlyTargets mbind option_bind]. rewrite lookup_insert_eq.
    cbn. by destruct (Z.eqb_spec target 0).
  - intros hotelId' year' month' Hne.
    unfold getMonthlyTarget, saveMonthlyTarget. cbv zeta.
    by rewrite getHotelSettings_save_ne.
  - intros year' month' Hm Hm' Hne.
    assert (monthKey year month <> monthKey year' month') as Hkey.
    { intros Heq. apply monthKey_inj in Heq as [-> ->]; done. }
    unfold getMonthlyTarget, saveMonthlyTarget. rewrite getHotelSettings_save.
    cbn [monthlyTargets mbind option_bind]. rewrite lookup_insert_ne by done.
    destruct (getHotelSettings hotelId allSettings) as [[targets|]];
      cbn [default from_option Datatypes.id monthlyTargets mbind option_bind];
      [done|by rewrite lookup_empty].
  - unfold getMonthlyTarget, getHotelSettings. rewrite lookup_empty.
    cbn. by rewrite lookup_empty.
Qed.

Lemma monthly_target_round_trip_witness :
  getMonthlyTarget "hotel_a" 2026 1 (saveMonthlyTarget "hotel_a" 2026 1 300000 ∅)
  = 300000
  /\ getMonthlyTarget "hotel_a" 2026 2 (saveMonthlyTarget "hotel_a" 2026 1 300000 ∅)
     = getMonthlyTarget "hotel_a" 2026 2 ∅.
Proof.
  destruct (monthly_target_round_trip "hotel_a" 2026 1 300000 ∅) as (Hsame & _ & Hother & _).
  split; [exact Hsame|].
  apply (Hother 2026 2); [lia|lia|]. intros [= ?].
Defined.

(** X15.  The history of a hotel: what is saved is read back; appending adds
    the new rows after the stored ones and the count grows by their number;
    clearing leaves the empty history and the count 0; a hotel never written
    has the empty history; and saving, appending, clearing or merging the
    history of one hotel leaves the history of every other hotel as it was. *)
Theorem dayuse_store_operations hotelId data allData :
  getDayuseData hotelId (saveDayuseData hotelId data allData) = data
  /\ getDayuseData hotelId (appendDayuseData hotelId data allData)
     = getDayuseData hotelId allData ++ data
  /\ getDayuseDataCount hotelId (appendDayuseData hotelId data allData)
     = getDayuseDataCount hotelId allData + Z.of_nat (length data)
  /\ getDayuseData hotelId (clearDayuseData hotelId allData) = []
  /\ getDayuseDataCount hotelId (clearDayuseData hotelId allData) = 0
  /\ getDayuseData hotelId ∅ = []
  /\ (forall hotelId', hotelId' <> hotelId ->
        getDayuseData hotelId' (saveDayuseData hotelId data allData)
        = getDayuseData hotelId' allData
        /\ getDayuseData hotelId' (appendDayuseData hotelId data allData)
           = getDayuseData hotelId' allData
        /\ getDayuseData hotelId' (clearDayuseData hotelId allData)
           = getDayuseData hotelId' allData
        /\ getDayuseData hotelId' (mergeDayuseData hotelId data allData).2
           = getDayuseData hotelId' allData).
Proof.
  assert (forall d, getDayuseData hotelId (saveDayuseData hotelId d allData) = d) as Hsave.
  { intros d. unfold getDayuseData, saveDayuseData. by rewrite lookup_insert_eq. }
  assert (getDayuseData hotelId (clearDayuseData hotelId allData) = []) as Hclear.
  { unfold getDayuseData, clearDayuseData. by rewrite lookup_delete_eq. }
  split; [apply Hsave|]. split; [apply Hsave|].
  split; [unfold getDayuseDataCount, appendDayuseData; rewrite Hsave, length_app; lia|].
  split; [done|]. split; [unfold getDayuseDataCount; by rewrite Hclear|].
  split; [done|].
  intros hotelId' Hne.
  assert (forall d, getDayuseData hotelId' (saveDayuseData hotelId d allData)
                    = getDayuseData hotelId' allData) as Hframe.
  { intros d. unfold getDayuseData, saveDayuseData. by rewrite lookup_insert_ne. }
  split; [apply Hframe|]. split; [apply Hframe|]. split.
  - unfold getDayuseData, clearDayuseData. by rewrite lookup_delete_ne.
  - unfold mergeDayuseData.
    destruct (fold_left merge_step data _) as [[m a] u]. apply Hframe.
Qed.

(** X16.  The daily input saved for a hotel and a date is read back as the
    stored input overwritten by the fields given, stamped with [updatedAt]:
    a field given is read back, a field not given keeps its stored (or
    default) value; the inputs of other hotels and dates are unchanged; an
    input never saved reads as the default input. *)
Theorem daily_input_round_trip hotelId dateStr input now allData :
  getDailyInput hotelId dateStr (saveDailyInput hotelId dateStr input now allData)
  = <["updatedAt" := VStr now]> (spread2 (getDailyInput hotelId dateStr allData) input)
  /\ (forall field v, field <> "updatedAt" -> input !! field = Some v ->
        getDailyInput hotelId dateStr
          (saveDailyInput hotelId dateStr input now allData) !! field = Some v)
  /\ (forall field, field <> "updatedAt" -> input !! field = None ->
        getDailyInput hotelId dateStr
          (saveDailyInput hotelId dateStr input now allData) !! field
        = getDailyInput hotelId dateStr allData !! field)
  /\ (forall hotelId' dateStr', (hotelId', dateStr') <> (hotelId, dateStr) ->
        getDailyInput hotelId' dateStr'
          (saveDailyInput hotelId dateStr input now allData)
        = getDailyInput hotelId' dateStr' allData)
  /\ getDailyInput hotelId dateStr ∅ = defaultDailyInput.
Proof.
  assert (getDailyInput hotelId dateStr
            (saveDailyInput hotelId dateStr input now allData)
          = <["updatedAt" := VStr now]>
              (spread2 (getDailyInput hotelId dateStr allData) input)) as Hget.
  { unfold getDailyInput at 1, saveDailyInput. rewrite lookup_insert_eq.
    cbn [mbind option_bind]. by rewrite lookup_insert_eq. }
  split; [done|]. rewrite Hget. split; [|split; [|split]].
  - intros field v Hne Hin. rewrite lookup_insert_ne by done.
    unfold spread2. by apply lookup_union_Some_l.
  - intros field Hne Hin. rewrite lookup_insert_ne by done.
    unfold spread2. by rewrite lookup_union_r.
  - intros hotelId' dateStr' Hne. unfold saveDailyInput.
    generalize (<["updatedAt" := VStr now]>
                  (spread2 (getDailyInput hotelId dateStr allData) input)).
    intros e. unfold getDailyInput.
    destruct (decide (hotelId' = hotelId)) as [->|Hh].
    + rewrite lookup_insert_eq. cbn [mbind option_bind].
      rewrite lookup_insert_ne by congruence.
      by destruct (allData !! hotelId).
    + by rewrite lookup_insert_ne.
  - unfold getDailyInput. by rewrite lookup_empty.
Qed.
End StorageMore.

(* ===================================================================== *)
(** * Merging twice, and the last write *)
(* ===================================================================== *)

Section MergeTwice.
Import Js Storage Notions MoreNotions MergeNotions JsFacts StorageFacts.

Lemma merge_step_get m a u item k :
  dict_get k (merge_step (m, a, u) item).1.1
  = if decide (has_id item /\ id_of item = k)
    then Some (spread2 (default ∅ (dict_get k m)) item)
    else dict_get k m.
Proof.
  rewrite merge_step_eq. unfold has_id.
  destruct (truthy (id_of item)) eqn:Hid; cbn [negb].
  - destruct (decide (id_of item = k)) as [<-|Hne].
    + rewrite decide_True by done.
      destruct (dict_get (id_of item) m) as [old|]; cbn [fst];
        rewrite dict_get_set_eq; [done|].
      cbn. unfold spread2. by rewrite (right_id ∅ (∪)).
    + rewrite decide_False by tauto.
      destruct (dict_get (id_of item) m) as [old|]; cbn [fst];
        by rewrite dict_get_set_ne.
  - rewrite decide_False; [done|]. intros [? _]. congruence.
Qed.

Lemma merge_fold_get newData : forall m a u k,
  dict_get k (fold_left merge_step newData (m, a, u)).1.1
  = merged_value (dict_get k m) (written_to k newData).
Proof.
  induction newData as [|item l IH]; intros m a u k; [done|].
  cbn [fold_left]. pose proof (merge_step_get m a u item k) as Hstep.
  destruct (merge_step (m, a, u) item) as [[m1 a1] u1]. cbn [fst] in Hstep.
  rewrite IH, Hstep. unfold written_to. rewrite filter_cons.
  by destruct (decide (has_id item /\ id_of item = k)).
Qed.

Lemma overlay_from acc items :
  fold_left (fun acc item => spread2 acc item) items acc = overlay items ∪ acc.
Proof.
  unfold overlay. revert acc. induction items as [|item l IH]; intros acc.
  - cbn. by rewrite (left_id ∅ (∪)).
  - cbn [fold_left]. rewrite IH, (IH (spread2 ∅ item)). unfold spread2.
    by rewrite (right_id ∅ (∪) item), (assoc_L (∪)).
Qed.

Lemma overlay_cons item items : overlay (item :: items) = overlay items ∪ item.
Proof.
  unfold overlay at 1. cbn [fold_left]. rewrite overlay_from. unfold spread2.
  by rewrite (right_id ∅ (∪) item).
Qed.

Lemma merged_value_overlay v items :
  items <> [] -> merged_value v items = Some (overlay items ∪ default ∅ v).
Proof.
  revert v. induction items as [|item l IH]; intros v Hne; [done|].
  unfold merged_value. cbn [fold_left]. fold (merged_value (Some (spread2 (default ∅ v) item)) l).
  destruct l as [|item' l'].
  - rewrite overlay_cons. cbn. unfold overlay, spread2. cbn.
    by rewrite (left_id ∅ (∪)).
  - rewrite IH by done. cbn [default from_option Datatypes.id]. f_equal.
    rewrite (overlay_cons item). unfold spread2. by rewrite (assoc_L (∪)).
Qed.

Lemma merged_value_twice v items :
  merged_value (merged_value v items) items = merged_value v items.
Proof.
  destruct items as [|item l]; [done|].
  rewrite !merged_value_overlay by done. cbn [default from_option Datatypes.id].
  by rewrite (assoc_L (∪)), (idemp_L (∪)).
Qed.

(** Merging records whose ids are all stored adds no key and no record. *)
Lemma merge_fold_known newData : forall m a u,
  (forall item, item ∈ newData -> has_id item -> id_of item ∈ m.*1) ->
  (fold_left merge_step newData (m, a, u)).1.1.*1 = m.*1
  /\ (fold_left merge_step newData (m, a, u)).1.2 = a
  /\ (fold_left merge_step newData (m, a, u)).2
     = u + Z.of_nat (length (filter has_id newData)).
Proof.
  induction newData as [|item l IH]; intros m a u Hknown.
  - cbn [fold_left fst snd]. rewrite filter_nil. cbn [length]. split; [done|]. split; [done|lia].
  - cbn [fold_left]. rewrite filter_cons.
    assert (exists m1 u1, merge_step (m, a, u) item = (m1, a, u1)
                          /\ m1.*1 = m.*1
                          /\ u1 = u + (if truthy (id_of item) then 1 else 0))
      as (m1 & u1 & -> & Hk1 & ->).
    { rewrite merge_step_eq. destruct (truthy (id_of item)) eqn:Hid; cbn [negb].
      - assert (id_of item ∈ m.*1) as Hin
          by (apply Hknown; [apply list_elem_of_here|done]).
        destruct (dict_get (id_of item) m) as [old|] eqn:Hg.
        + eexists _, _. split; [reflexivity|]. split; [by apply dict_set_keys_old|done].
        + apply dict_get_None in Hg. done.
      - eexists _, _. split; [reflexivity|]. split; [done|lia]. }
    destruct (IH m1 a (u + (if truthy (id_of item) then 1 else 0))) as (-> & -> & ->).
    { intros i Hi Hid. rewrite Hk1. apply Hknown; [by apply list_elem_of_further|done]. }
    split; [done|]. split; [done|].
    destruct (decide (has_id item)) as [Ht|Ht]; unfold has_id in Ht.
    + rewrite Ht. cbn [length]. lia.
    + apply not_true_is_false in Ht. rewrite Ht. lia.
Qed.

Lemma dict_ext {K V} `{EqDecision K} (m m' : list (K * V)) :
  m.*1 = m'.*1 -> NoDup m.*1 ->
  (forall k, dict_get k m = dict_get k m') -> m = m'.
Proof.
  revert m'. induction m as [|[k v] m IH]; intros [|[k' v'] m'] Hkeys Hnd Hget;
    try done.
  rewrite !fmap_cons in Hkeys. cbn [fst] in Hkeys. injection Hkeys as <- Hkeys.
  rewrite fmap_cons in Hnd. apply NoDup_cons in Hnd as [Hk Hnd].
  pose proof (Hget k) as Hv. cbn [dict_get] in Hv. rewrite !decide_True in Hv by done.
  injection Hv as <-. f_equal. apply IH; [done..|].
  intros k0. specialize (Hget k0). cbn [dict_get] in Hget.
  destruct (decide (k0 = k)) as [->|Hne]; [|done].
  cbn in Hk. rewrite (proj2 (dict_get_None k m) Hk).
  rewrite Hkeys in Hk. by rewrite (proj2 (dict_get_None k m') Hk).
Qed.

Lemma indexed_entries m : indexed m -> entry <$> dict_values m = m.
Proof.
  intros [Hok _]. unfold dict_values.
  induction Hok as [|[k r] m [Hk _] _ IH]; [done|].
  rewrite !fmap_cons. cbn [fst snd] in Hk. unfold entry at 1. cbn [snd].
  rewrite Hk. by f_equal.
Qed.

(** X17.  Merging the same rows a second time changes nothing in the store:
    the second merge adds no record, counts every row with an id as an
    update, and reports the same total as the first. *)
Theorem merge_twice_changes_nothing hotelId newData allData :
  let first := mergeDayuseData hotelId newData allData in
  let second := mergeDayuseData hotelId newData first.2 in
  second.2 = first.2
  /\ added second.1 = 0
  /\ updated second.1 = Z.of_nat (length (filter has_id newData))
  /\ total second.1 = total first.1.
Proof.
  intros first second.
  destruct (index_fold (getDayuseData hotelId allData) [] indexed_nil) as [Hi0 Hk0].
  pose proof (merge_fold newData (fold_left index_step (getDayuseData hotelId allData) [])
                0 0 Hi0) as Hm.
  pose proof (merge_fold_get newData
                (fold_left index_step (getDayuseData hotelId allData) []) 0 0) as Hg1.
  destruct (fold_left merge_step newData
              (fold_left index_step (getDayuseData hotelId allData) [], 0, 0))
    as [[m1 a1] u1] eqn:E1.
  destruct Hm as (Hi1 & _ & _ & Hk1). cbn [fst] in Hg1.
  assert (first = (mkMergeResult a1 u1 (Z.of_nat (length (dict_values m1))),
                   saveDayuseData hotelId (dict_values m1) allData)) as Hfirst
    by (by apply mergeDayuseData_unfold).
  destruct (indexed_values m1 Hi1) as [Hids Hkeys].
  assert (fold_left index_step (dict_values m1) [] = m1) as Hindex.
  { rewrite index_wellFormed.
    - by rewrite app_nil_l, indexed_entries.
    - split; [done|]. rewrite Hkeys. apply Hi1.
    - intros r _. apply not_elem_of_nil. }
  pose proof (merge_fold_known newData m1 0 0) as Hknown.
  pose proof (merge_fold_get newData m1 0 0) as Hg2.
  pose proof (merge_fold newData m1 0 0 Hi1) as Hm2.
  destruct (fold_left merge_step newData (m1, 0, 0)) as [[m2 a2] u2] eqn:E2.
  cbn [fst snd] in Hknown, Hg2. destruct Hm2 as (Hi2 & _).
  destruct Hknown as (Hkeys2 & -> & ->).
  { intros item Hin Hid. apply Hk1. right. split; [done|].
    by apply list_elem_of_fmap_2. }
  assert (m2 = m1) as ->.
  { apply dict_ext; [done|apply Hi2|]. intros k.
    rewrite Hg2, Hg1. apply merged_value_twice. }
  assert (second = (mkMergeResult 0 (0 + Z.of_nat (length (filter has_id newData)))
                      (Z.of_nat (length (dict_values m1))),
                    saveDayuseData hotelId (dict_values m1) first.2)) as Hsecond.
  { subst second. apply mergeDayuseData_unfold.
    rewrite Hfirst. cbn [snd]. by rewrite getDayuseData_save, Hindex. }
  rewrite Hsecond. cbn [fst snd added updated total]. rewrite Hfirst.
  cbn [fst snd total]. split; [|split; [done|split; [lia|done]]].
  unfold saveDayuseData. by rewrite insert_insert_eq.
Qed.

Lemma written_to_app k l1 l2 :
  written_to k (l1 ++ l2) = written_to k l1 ++ written_to k l2.
Proof. unfold written_to. apply filter_app. Qed.

Lemma merged_value_snoc v items item :
  merged_value v (items ++ [item])
  = Some (spread2 (default ∅ (merged_value v items)) item).
Proof. unfold merged_value. by rewrite fold_left_app. Qed.

(** X18.  The last write wins: after a merge, a row with an id that no later
    row of the import shares is found in the stored history, under its id
    and with every one of its properties. *)
Theorem merge_last_write_wins hotelId l1 item l2 allData :
  has_id item ->
  (forall later, later ∈ l2 -> id_of later <> id_of item) ->
  exists r,
    r ∈ getDayuseData hotelId (mergeDayuseData hotelId (l1 ++ item :: l2) allData).2
    /\ id_of r = id_of item
    /\ item ⊆ r.
Proof.
  intros Hid Hlater.
  set (newData := l1 ++ item :: l2).
  destruct (index_fold (getDayuseData hotelId allData) [] indexed_nil) as [Hi0 _].
  pose proof (merge_fold newData (fold_left index_step (getDayuseData hotelId allData) [])
                0 0 Hi0) as Hm.
  pose proof (merge_fold_get newData
                (fold_left index_step (getDayuseData hotelId allData) []) 0 0
                (id_of item)) as Hg.
  destruct (fold_left merge_step newData
              (fold_left index_step (getDayuseData hotelId allData) [], 0, 0))
    as [[m a] u] eqn:E.
  destruct Hm as (Hi & _). cbn [fst] in Hg.
  rewrite (mergeDayuseData_unfold hotelId newData allData m a u E).
  cbn [snd]. rewrite getDayuseData_save.
  assert (written_to (id_of item) newData = written_to (id_of item) l1 ++ [item]) as Hw.
  { subst newData. rewrite written_to_app. f_equal. unfold written_to.
    rewrite filter_cons_True by done. f_equal. apply filter_none.
    intros later Hin [_ Heq]. by apply (Hlater later). }
  rewrite Hw, merged_value_snoc in Hg.
  apply dict_get_elem_of in Hg.
  eexists. split; [|split].
  - unfold dict_values. apply list_elem_of_fmap. eexists (_, _). split; [|exact Hg].
    reflexivity.
  - by apply spread2_id.
  - unfold spread2. apply map_union_subseteq_l.
Qed.
End MergeTwice.

Section MergeInstances.
Import Js Storage Notions Scenario.

Lemma merge_last_write_wins_witness :
  exists r,
    r ∈ getDayuseData "hotel_a"
          (mergeDayuseData "hotel_a" ([] ++ record "a" "2024-01-15" 7500 :: []) store_ab).2
    /\ id_of r = id_of (record "a" "2024-01-15" 7500)
    /\ record "a" "2024-01-15" 7500 ⊆ r.
Proof.
  apply (merge_last_write_wins "hotel_a" [] (record "a" "2024-01-15" 7500) [] store_ab).
  - reflexivity.
  - intros later Hin. inversion Hin.
Defined.
End MergeInstances.

(* ===================================================================== *)
(** * Reading a line of a CSV file *)
(* ===================================================================== *)

Section CsvMore.
Import Csv CsvNotions.

Lemma trimStart_idemp s : trimStart (trimStart s) = trimStart s.
Proof.
  induction s as [|c s IH]; [done|]. cbn [trimStart].
  destruct (isWhiteSpace c) eqn:Hc; [done|]. cbn [trimStart]. by rewrite Hc.
Qed.

Lemma trimStart_snoc s c :
  isWhiteSpace c = false -> trimStart (s ++ [c]) = trimStart s ++ [c].
Proof.
  intros Hc. induction s as [|d s IH]; cbn [trimStart app].
  - by rewrite Hc.
  - by destruct (isWhiteSpace d).
Qed.

Lemma trimStart_head s :
  trimStart s = [] \/ exists c s', trimStart s = c :: s' /\ isWhiteSpace c = false.
Proof.
  induction s as [|c s IH]; [by left|]. cbn [trimStart].
  destruct (isWhiteSpace c) eqn:Hc; [done|]. right. by exists c, s.
Qed.

Lemma trim_trimmed s : trimmed (trim s).
Proof.
  unfold trimmed, trim. rewrite reverse_involutive, trimStart_idemp. split; [|done].
  destruct (trimStart_head s) as [->|(c & s' & -> & Hc)]; [done|].
  rewrite reverse_cons, trimStart_snoc by done.
  rewrite reverse_app. cbn [reverse app]. change (reverse [c]) with [c].
  cbn [app trimStart]. by rewrite Hc.
Qed.

Lemma trimmed_trim s : trimmed s -> trim s = s.
Proof.
  intros [H1 H2]. unfold trim. by rewrite H1, H2, reverse_involutive.
Qed.

(** Characters that are neither a quote nor a separating comma are appended
    to the current field. *)
Lemma parse_plain f : forall rest result current inQuotes,
  QUOTE ∉ f -> (inQuotes = true \/ COMMA ∉ f) ->
  parseCSVLine_from (f ++ rest) result current inQuotes
  = parseCSVLine_from rest result (current ++ f) inQuotes.
Proof.
  induction f as [|c f IH]; intros rest result current inQuotes Hq Hc.
  - by rewrite app_nil_r.
  - apply not_elem_of_cons in Hq as [Hcq Hq]. cbn [app parseCSVLine_from].
    rewrite (proj2 (N.eqb_neq c QUOTE)) by done.
    assert ((N.eqb c COMMA && negb inQuotes) = false) as ->.
    { destruct Hc as [->|Hc]; [by rewrite andb_false_r|].
      apply not_elem_of_cons in Hc as [Hcc _].
      by rewrite (proj2 (N.eqb_neq c COMMA)). }
    rewrite IH.
    + by rewrite <-app_assoc.
    + done.
    + destruct Hc as [?|Hc]; [by left|]. right.
      by apply not_elem_of_cons in Hc as [_ ?].
Qed.

Lemma parse_cell field cell rest result :
  QUOTE ∉ field -> written_as field cell ->
  parseCSVLine_from (cell ++ rest) result [] false
  = parseCSVLine_from rest result field false.
Proof.
  intros Hq [[-> Hc]| ->].
  - rewrite parse_plain by auto. done.
  - unfold quoted. cbn [app parseCSVLine_from]. rewrite N.eqb_refl. cbn [negb].
    rewrite <-app_assoc, parse_plain by auto.
    cbn [app parseCSVLine_from]. by rewrite N.eqb_refl.
Qed.

Lemma parse_joined fields : forall cells result,
  fields <> [] ->
  Forall2 (fun field cell => (QUOTE ∉ field) /\ trimmed field /\ written_as field cell)
          fields cells ->
  parseCSVLine_from (joined cells) result [] false = result ++ fields.
Proof.
  induction fields as [|field fields IH]; intros cells result Hne Hall; [done|].
  apply Forall2_cons_inv_l in Hall as (cell & cells' & (Hq & Ht & Hw) & Hall & ->).
  destruct fields as [|field' fields'].
  - apply Forall2_nil_inv_l in Hall as ->. cbn [joined].
    rewrite <-(app_nil_r cell), (parse_cell field) by done.
    cbn [parseCSVLine_from]. by rewrite trimmed_trim.
  - destruct cells' as [|cell' cells'']; [by apply Forall2_cons_nil_inv in Hall|].
    change (joined (cell :: cell' :: cells''))
      with (cell ++ COMMA :: joined (cell' :: cells'')).
    rewrite (parse_cell field) by done. cbn [parseCSVLine_from].
    change (N.eqb COMMA QUOTE) with false. rewrite N.eqb_refl. cbn [andb negb].
    rewrite IH by done. rewrite trimmed_trim by done. by rewrite <-app_assoc.
Qed.

(** X27.  [parseCSVLine] reads back what was written: when each field has no
    double quote and no white space at either end, and is written either as
    it is (if it has no comma) or between double quotes, the line of the
    cells joined by commas parses to the fields. *)
Theorem parseCSVLine_reads_back fields cells :
  fields <> [] ->
  Forall2 (fun field cell => (QUOTE ∉ field) /\ trimmed field /\ written_as field cell)
          fields cells ->
  parseCSVLine (joined cells) = fields.
Proof.
  intros Hne Hall. unfold parseCSVLine. by rewrite (parse_joined fields cells []).
Qed.

Lemma elem_of_trimStart x s : x ∈ trimStart s -> x ∈ s.
Proof.
  induction s as [|c s IH]; [done|]. cbn [trimStart].
  destruct (isWhiteSpace c); [|done]. intros Hx. apply list_elem_of_further. auto.
Qed.

Lemma elem_of_trim x s : x ∈ trim s -> x ∈ s.
Proof.
  unfold trim. rewrite elem_of_reverse. intros Hx%elem_of_trimStart.
  rewrite elem_of_reverse in Hx. by apply elem_of_trimStart.
Qed.

Lemma clean_trim current : QUOTE ∉ current -> clean (trim current).
Proof.
  intros Hq. split; [|apply trim_trimmed]. intros Hin. by apply Hq, elem_of_trim.
Qed.

Lemma parse_clean line : forall result current inQuotes,
  Forall clean result -> QUOTE ∉ current ->
  Forall clean (parseCSVLine_from line result current inQuotes).
Proof.
  induction line as [|c line IH]; intros result current inQuotes Hres Hcur;
    cbn [parseCSVLine_from].
  - apply Forall_app. split; [done|]. constructor; [by apply clean_trim|done].
  - destruct (N.eqb_spec c QUOTE) as [->|Hq]; [by apply IH|].
    destruct (N.eqb c COMMA && negb inQuotes).
    + apply IH; [|apply not_elem_of_nil].
      apply Forall_app. split; [done|]. constructor; [by apply clean_trim|done].
    + apply IH; [done|]. rewrite not_elem_of_app, not_elem_of_cons.
      split; [done|]. split; [congruence|apply not_elem_of_nil].
Qed.

Lemma parse_length line : forall result current inQuotes,
  (length result + 1 <= length (parseCSVLine_from line result current inQuotes)
   <= length result + 1 + commas line)%nat
  /\ (QUOTE ∉ line -> inQuotes = false ->
      length (parseCSVLine_from line result current inQuotes)
      = (length result + 1 + commas line)%nat).
Proof.
  unfold commas.
  induction line as [|c line IH]; intros result current inQuotes;
    cbn [parseCSVLine_from].
  - rewrite length_app, filter_nil. cbn [length]. lia.
  - rewrite filter_cons.
    destruct (N.eqb_spec c QUOTE) as [->|Hq].
    + rewrite decide_False by done.
      destruct (IH result current (negb inQuotes)) as [Hb _].
      split; [done|]. intros Hin. exfalso. apply Hin, list_elem_of_here.
    + destruct (N.eqb_spec c COMMA) as [->|Hc]; cbn [andb].
      * rewrite decide_True by done. cbn [length].
        destruct inQuotes; cbn [negb].
        -- destruct (IH result (current ++ [COMMA]) true) as [Hb _].
           split; [lia|]. intros _ Hf. discriminate.
        -- destruct (IH (result ++ [trim current]) [] false) as [Hb He].
           rewrite length_app in Hb, He. cbn [length] in Hb, He.
           split; [lia|]. intros Hin _.
           apply not_elem_of_cons in Hin as [_ Hin]. rewrite (He Hin eq_refl). lia.
      * rewrite decide_False by done.
        destruct (IH result (current ++ [c]) inQuotes) as [Hb He].
        split; [done|]. intros Hin Hf.
        apply not_elem_of_cons in Hin as [_ Hin]. by apply He.
Qed.

(** X28.  [parseCSVLine] always returns at least one field, and at most one
    more than the line has commas, exactly that many when the line has no
    double quote; no field returned holds a double quote or has white space
    at either end. *)
Theorem parseCSVLine_fields line :
  parseCSVLine line <> []
  /\ (length (parseCSVLine line) <= 1 + commas line)%nat
  /\ (QUOTE ∉ line -> length (parseCSVLine line) = (1 + commas line)%nat)
  /\ Forall (fun field => (QUOTE ∉ field) /\ trimmed field) (parseCSVLine line).
Proof.
  unfold parseCSVLine.
  destruct (parse_length line [] [] false) as [Hb He]. cbn [length] in Hb, He.
  split; [|split; [lia|split]].
  - intros Hnil. rewrite Hnil in Hb. cbn in Hb. lia.
  - intros Hq. by apply He.
  - apply (parse_clean line [] [] false); [constructor|apply not_elem_of_nil].
Qed.
End CsvMore.

Section CsvInstances.
Import Csv CsvNotions.

Lemma parseCSVLine_reads_back_witness :
  parseCSVLine (joined [ [49; 50]%N; quoted [97; 44; 32; 98]%N; [] ])
  = [ [49; 50]%N; [97; 44; 32; 98]%N; [] ].
Proof.
  apply (parseCSVLine_reads_back
           [ [49; 50]%N; [97; 44; 32; 98]%N; [] ]
           [ [49; 50]%N; quoted [97; 44; 32; 98]%N; [] ]).
  - discriminate.
  - repeat constructor;
      first [ reflexivity
            | apply (bool_decide_unpack _); vm_compute; exact I
            | left; split; [reflexivity | apply (bool_decide_unpack _); vm_compute; exact I]
            | right; reflexivity ].
Defined.
End CsvInstances.

(* ===================================================================== *)
(** * Record dates read in local time *)
(* ===================================================================== *)

Section CalendarZone.
Import Js JsDate Holidays Notions CalendarNotions.
Variable LocalTZA : Z -> Z.

(** X29.  In a time zone at or east of Greenwich, the date made from the
    text [YYYY-MM-DD] of a day of the calendar, in the years 1000 to 9999,
    has that year, month and day in local time, and [formatDate] gives the
    text back; so [isHolidaySync] on a record's date looks the record's own
    text up in the table of the record's own year. *)
Theorem record_date_reads_back cache s :
  (forall t, 0 <= LocalTZA t < msPerDay) ->
  realCalendarDate s = true ->
  let d := Date_of_string s in
  getFullYear LocalTZA d = Some (cd_year s)
  /\ getMonth LocalTZA d = Some (cd_month s - 1)
  /\ getDate LocalTZA d = Some (cd_day s)
  /\ formatDate LocalTZA d = date_text s
  /\ isHolidaySync LocalTZA cache (IsString s)
     = match cache !! cd_year s with
       | Some holidays => bool_decide (is_Some (holidays !! date_text s))
       | None => false
       end.
Proof.
  intros Htz Hreal d. subst d.
  destruct (Date_of_string_east LocalTZA s Htz Hreal) as (Hy & Hm & Hd & Hf).
  repeat split; try done.
  by rewrite isHolidaySync_listed.
Qed.

End CalendarZone.

Section CalendarZones.
Import Js JsDate Holidays Notions CalendarNotions.

(** X30.  In a time zone west of Greenwich the weekday of a record's date is
    the day before the one it has in a zone at or east of Greenwich: the
    text is read as midnight UTC and the weekday is taken in local time. *)
Theorem west_of_Greenwich_weekday_is_the_day_before (east west : Z -> Z) s :
  (forall t, 0 <= east t < msPerDay) ->
  (forall t, - msPerDay <= west t < 0) ->
  validCalendarDate s = true ->
  exists e, getDay east (Date_of_string s) = Some e
    /\ 0 <= e < 7
    /\ getDay west (Date_of_string s) = Some ((e + 6) mod 7)
    /\ (e + 6) mod 7 <> e.
Proof.
  intros He Hw Hv. unfold Date_of_string. rewrite Hv. cbn [getDay mbind option_bind].
  rewrite Day_LocalTime_east, Day_LocalTime_west by done.
  set (n := days_from_civil _ _ _).
  exists ((n + 4) mod 7). repeat split; try done; try f_equal; Z.div_mod_to_equations; lia.
Qed.

Lemma record_date_reads_back_witness :
  getFullYear Scenario.JST (Date_of_string (mkCalendarDate 2024 2 29)) = Some 2024
  /\ formatDate Scenario.JST (Date_of_string (mkCalendarDate 2024 2 29)) = "2024-02-29".
Proof.
  destruct (record_date_reads_back Scenario.JST ∅ (mkCalendarDate 2024 2 29))
    as (Hy & _ & _ & Hf & _).
  - intros t. unfold Scenario.JST, msPerDay. lia.
  - reflexivity.
  - split; [exact Hy | exact Hf].
Defined.

Lemma west_of_Greenwich_weekday_is_the_day_before_witness :
  exists e, getDay Scenario.JST (Date_of_string (mkCalendarDate 2024 1 8)) = Some e
    /\ 0 <= e < 7
    /\ getDay EST (Date_of_string (mkCalendarDate 2024 1 8))
       = Some ((e + 6) mod 7)
    /\ (e + 6) mod 7 <> e.
Proof.
  apply (west_of_Greenwich_weekday_is_the_day_before Scenario.JST EST).
  - intros t. unfold Scenario.JST, msPerDay. lia.
  - intros t. unfold EST, msPerDay. lia.
  - reflexivity.
Defined.
End CalendarZones.
